(** * KBLaM evaluation harness ([experiments/eval.py]): a shallow embedding

    The first part of the file follows the layout of [eval.py]:

    - [PyStr]: the Python string operations the script relies on
      ([str.replace], [str.split], [in], [str.join]);
    - [Format]: the per-family prompt templates and their pruning functions;
    - [Regex]: the fragment of [re] used by the answer extractor;
    - [Collaborators]: the interfaces of the tokenizer, the model, the
      encoder, the metric libraries and NumPy's random state, and the state
      monad the routines run in;
    - [Driver]: [answer_question] and the call it issues to the generator;
    - [Generation]: [perform_eval];
    - [Refusal]: [perform_eval_refusal];
    - [Accuracy]: the KB-subset selection and the attention scoring loop of
      [eval_accuracy];
    - [Toy]: small concrete collaborators on which the routines run.

    The second part states and proves the properties.

    Python [str] values are modelled as [string] (sequences of characters
    with codes below 256), Python [int] as [Z], or [nat] where the value is a
    size, Python [float] as the kernel's binary64 [float], raised exceptions
    as the [Raise] constructor of [result]. *)

From Stdlib Require Import Bool Arith ZArith Lia List String Ascii.
From Stdlib Require Import Permutation Floats QArith DecimalString.
Import ListNotations.

Set Warnings "-inexact-float".

Open Scope string_scope.
Open Scope list_scope.
Open Scope nat_scope.

(** ** Exceptions and results *)

Inductive exn : Type :=
| IndexError
| ValueError
| RuntimeError
| OverflowError
| FileNotFoundError.

Inductive result (A : Type) : Type :=
| Ok (a : A)
| Raise (e : exn).

Arguments Ok {A} a.
Arguments Raise {A} e.

Definition rbind {A B : Type} (r : result A) (f : A -> result B) : result B :=
  match r with
  | Ok a => f a
  | Raise e => Raise e
  end.

Notation "x <- c1 ;; c2" := (rbind c1 (fun x => c2))
  (at level 61, c1 at next level, right associativity).

(** Whether a routine returned. *)
Definition is_ok {A : Type} (r : result A) : bool :=
  match r with
  | Ok _ => true
  | Raise _ => false
  end.

(** Python's [xs[i]] for a non-negative [i]. *)
Definition getitem {A : Type} (xs : list A) (i : nat) : result A :=
  match nth_error xs i with
  | Some a => Ok a
  | None => Raise IndexError
  end.

(** ** Python string operations *)

Module PyStr.

(** [s.startswith(p)] *)
Fixpoint starts_with (p s : string) : bool :=
  match p with
  | EmptyString => true
  | String a p' =>
      match s with
      | EmptyString => false
      | String b s' => if Ascii.eqb a b then starts_with p' s' else false
      end
  end.

(** [s[n:]] *)
Fixpoint drop (n : nat) (s : string) : string :=
  match n with
  | O => s
  | S n' =>
      match s with
      | EmptyString => EmptyString
      | String _ s' => drop n' s'
      end
  end.

(** [sub in s] *)
Fixpoint contains (sub s : string) : bool :=
  starts_with sub s
  || match s with
     | EmptyString => false
     | String _ s' => contains sub s'
     end.

(** No proper suffix of [old] starts [t]: an occurrence of [old] cannot
    begin before [t] and end inside it. *)
Definition no_overlap (old t : string) : bool :=
  forallb (fun k => negb (starts_with (drop k old) t))
          (seq 1 (String.length old - 1)).

(** [s.replace(old, new)] for a non-empty [old]: the occurrences of [old]
    are found from left to right and do not overlap.  [skip] counts the
    characters of the occurrence just replaced that are still to be passed
    over. *)
Fixpoint replace_go (old new : string) (skip : nat) (s : string) : string :=
  match s with
  | EmptyString => EmptyString
  | String c s' =>
      match skip with
      | S k => replace_go old new k s'
      | O =>
          if starts_with old s
          then new ++ replace_go old new (String.length old - 1) s'
          else String c (replace_go old new 0 s')
      end
  end.

(** With an empty [old], Python inserts [new] before every character and at
    the end. *)
Fixpoint intersperse (new s : string) : string :=
  match s with
  | EmptyString => new
  | String c s' => new ++ String c (intersperse new s')
  end.

Definition replace (old new s : string) : string :=
  match old with
  | EmptyString => intersperse new s
  | _ => replace_go old new 0 s
  end.

(** [s.split(sep)]: the pieces between the occurrences of [sep], found from
    left to right without overlap.  [split_go] returns the piece under
    construction and the pieces after it. *)
Fixpoint split_go (sep : string) (skip : nat) (s : string) : string * list string :=
  match s with
  | EmptyString => (EmptyString, [])
  | String c s' =>
      match skip with
      | S k => split_go sep k s'
      | O =>
          if starts_with sep s
          then (EmptyString,
                let (p, ps) := split_go sep (String.length sep - 1) s' in p :: ps)
          else let (p, ps) := split_go sep 0 s' in (String c p, ps)
      end
  end.

(** An empty separator is refused with [ValueError]. *)
Definition split (sep s : string) : result (list string) :=
  match sep with
  | EmptyString => Raise ValueError
  | _ => let (p, ps) := split_go sep 0 s in Ok (p :: ps)
  end.

(** [sep.join(xs)] *)
Fixpoint join (sep : string) (xs : list string) : string :=
  match xs with
  | [] => EmptyString
  | [x] => x
  | x :: xs' => x ++ sep ++ join sep xs'
  end.

End PyStr.

(** ** Question formatter (lines 55-83) *)

Module Format.
Import PyStr.

(** The two supported model classes, [KblamLlamaForCausalLM] and
    [KBLaMPhi3ForCausalLM]. *)
Inductive family : Type := Llama | Phi3.

Definition _format_Q_llama (Q : string) : string :=
  "<|start_header_id|>user<|end_header_id|> " ++ Q ++ "<|eot_id|>"
  ++ "<|start_header_id|>assistant<|end_header_id|>".

(** The line feed, code 10. *)
Definition newline : string := String "010"%char EmptyString.

Definition _format_Q_phi3 (Q : string) : string :=
  ("<|user|>" ++ newline) ++ Q ++ ("<|end|>" ++ newline) ++ ("<|assistant|>" ++ newline).

Definition model_question_format_mapping (m : family) : string -> string :=
  match m with
  | Llama => _format_Q_llama
  | Phi3 => _format_Q_phi3
  end.

Definition _prune_for_llama (S : string) : string :=
  let S := replace "<|eot_id|>" "" S in
  let S := replace "<|start_header_id|>assistant<|end_header_id|>" "" S in
  let S := replace "<|start_header_id|>user<|end_header_id|>" "" S in
  let S := replace "<|end_of_text|>" "" S in
  S.

Definition _prune_for_phi3 (S : string) : string :=
  let S := replace "<|end|>" "" S in
  let S := replace "<|assistant|>" "" S in
  let S := replace "<|user|>" "" S in
  S.

Definition model_prune_format_mapping (m : family) : string -> string :=
  match m with
  | Llama => _prune_for_llama
  | Phi3 => _prune_for_phi3
  end.

(** The control markers each pruning function deletes. *)
Definition markers (m : family) : list string :=
  match m with
  | Llama => [ "<|eot_id|>";
               "<|start_header_id|>assistant<|end_header_id|>";
               "<|start_header_id|>user<|end_header_id|>";
               "<|end_of_text|>" ]
  | Phi3 => [ "<|end|>"; "<|assistant|>"; "<|user|>" ]
  end.

(** What is left of a formatted question around [Q] once the markers are
    gone. *)
Definition residue_before (m : family) : string :=
  match m with
  | Llama => " "
  | Phi3 => newline
  end.

Definition residue_after (m : family) : string :=
  match m with
  | Llama => ""
  | Phi3 => newline ++ newline
  end.

End Format.

(** ** The fragment of [re] used by the answer extractor *)

Module Regex.
Import PyStr.

(** Patterns: literal text, character classes, sequencing, ordered
    alternation, greedy [c+] and lazy [c*?] over a character class, and the
    capturing group. *)
Inductive regex : Type :=
| Str (lit : string)
| Cls (p : ascii -> bool)
| Cat (r1 r2 : regex)
| Alt (r1 r2 : regex)
| Plus (p : ascii -> bool)
| StarLazy (p : ascii -> bool)
| Group (r : regex).

(** [s[:n]] *)
Fixpoint take (n : nat) (s : string) : string :=
  match n with
  | O => EmptyString
  | S n' =>
      match s with
      | EmptyString => EmptyString
      | String c s' => String c (take n' s')
      end
  end.

Section Matcher.
Variable X : Type.

(** Greedy repetition: take as many characters as possible, give them back
    one at a time when the rest of the pattern fails. *)
Fixpoint star_greedy (p : ascii -> bool) (s : string) (k : string -> option X) : option X :=
  match s with
  | EmptyString => k EmptyString
  | String c s' =>
      if p c
      then match star_greedy p s' k with
           | Some x => Some x
           | None => k s
           end
      else k s
  end.

Definition plus_greedy (p : ascii -> bool) (s : string) (k : string -> option X) : option X :=
  match s with
  | EmptyString => None
  | String c s' => if p c then star_greedy p s' k else None
  end.

(** Lazy repetition: try the rest of the pattern first, take one more
    character when it fails. *)
Fixpoint star_lazy (p : ascii -> bool) (s : string) (k : string -> option X) : option X :=
  match k s with
  | Some x => Some x
  | None =>
      match s with
      | EmptyString => None
      | String c s' => if p c then star_lazy p s' k else None
      end
  end.

(** Backtracking matcher in continuation-passing style: [run r s cap k]
    matches [r] at the start of [s]; [k] receives what is left of the input
    and the text captured by the group so far. *)
Fixpoint run (r : regex) (s : string) (cap : option string)
  (k : string -> option string -> option X) : option X :=
  match r with
  | Str lit =>
      if starts_with lit s then k (drop (String.length lit) s) cap else None
  | Cls p =>
      match s with
      | EmptyString => None
      | String c s' => if p c then k s' cap else None
      end
  | Cat r1 r2 => run r1 s cap (fun s' cap' => run r2 s' cap' k)
  | Alt r1 r2 =>
      match run r1 s cap k with
      | Some x => Some x
      | None => run r2 s cap k
      end
  | Plus p => plus_greedy p s (fun s' => k s' cap)
  | StarLazy p => star_lazy p s (fun s' => k s' cap)
  | Group r1 =>
      run r1 s cap
        (fun s' _ => k s' (Some (take (String.length s - String.length s') s)))
  end.

End Matcher.

Arguments star_greedy {X} p s k.
Arguments plus_greedy {X} p s k.
Arguments star_lazy {X} p s k.
Arguments run {X} r s cap k.

(** A match at the start of [s]: the group's text and the rest of the input. *)
Definition match_here (r : regex) (s : string) : option (option string * string) :=
  run r s None (fun rest cap => Some (cap, rest)).

Definition group1 (cap : option string) : string :=
  match cap with
  | Some c => c
  | None => EmptyString
  end.

(** [re.search(r, s)]: the leftmost match; the result is [m.group(1)]. *)
Fixpoint search (r : regex) (s : string) : option string :=
  match match_here r s with
  | Some (cap, _) => Some (group1 cap)
  | None =>
      match s with
      | EmptyString => None
      | String _ s' => search r s'
      end
  end.

(** [re.findall(r, s)] for a pattern with one group: the group's text of
    every match, the matches found from left to right without overlap. *)
Fixpoint findall_go (r : regex) (skip : nat) (s : string) : list string :=
  match s with
  | EmptyString =>
      match match_here r EmptyString with
      | Some (cap, _) => [group1 cap]
      | None => []
      end
  | String c s' =>
      match skip with
      | S k => findall_go r k s'
      | O =>
          match match_here r s with
          | Some (cap, rest) =>
              group1 cap
              :: findall_go r (String.length s - String.length rest - 1) s'
          | None => findall_go r 0 s'
          end
      end
  end.

Definition findall (r : regex) (s : string) : list string := findall_go r 0 s.

(** Character classes, on the code points below 256. *)
Definition code_in (ranges : list (nat * nat)) (c : ascii) : bool :=
  existsb (fun '(lo, hi) => (lo <=? nat_of_ascii c) && (nat_of_ascii c <=? hi)) ranges.

(** [\s] *)
Definition is_space : ascii -> bool :=
  code_in [(9, 13); (28, 32); (133, 133); (160, 160)].

(** [\w] *)
Definition is_word : ascii -> bool :=
  code_in [(48, 57); (65, 90); (95, 95); (97, 122); (170, 170); (178, 179);
           (181, 181); (185, 186); (188, 190); (192, 214); (216, 246); (248, 255)].

(** [.] (every character but the newline) *)
Definition is_dot : ascii -> bool := fun c => negb (nat_of_ascii c =? 10).

(** The double quote, code 34. *)
Definition is_not_dquote : ascii -> bool := fun c => negb (nat_of_ascii c =? 34).

Definition chr (c : ascii) : regex := Cls (Ascii.eqb c).

Fixpoint seq_of (rs : list regex) : regex :=
  match rs with
  | [] => Str EmptyString
  | [r] => r
  | r :: rs' => Cat r (seq_of rs')
  end.

(** Line 239: the single-entity answer pattern, [The], [\s+], [\w+], [\s+],
    [of], [\s+], one or more characters other than the double quote, [\s+],
    [is], [\s+], and the group [(.+)]. *)
Definition pattern_single : regex :=
  seq_of [ Str "The"; Plus is_space; Plus is_word; Plus is_space; Str "of";
           Plus is_space; Plus is_not_dquote; Plus is_space; Str "is";
           Plus is_space; Group (Plus is_dot) ].

(** Line 245: [(?:is|are) (.*?)(?:\.|;)], applied to the generated text. *)
Definition pattern_multi_prediction : regex :=
  seq_of [ Alt (Str "is") (Str "are"); chr " "; Group (StarLazy is_dot);
           Alt (chr ".") (chr ";") ].

(** Line 248: [(?:is|are) (.*?);], applied to the ground-truth answer. *)
Definition pattern_multi_reference : regex :=
  seq_of [ Alt (Str "is") (Str "are"); chr " "; Group (StarLazy is_dot); chr ";" ].

End Regex.

(** ** External collaborators

    The tokenizer, the language model, the KB encoder, the metric libraries
    and [generate_multi_entity_qa] are specified by interface only. *)

Module Collaborators.

(** Values passed as keyword arguments to [model.generate]. *)
Inductive pyval (T K : Type) : Type :=
| VTensor (t : T)
| VKb (kb : option K)
| VInt (n : Z)
| VBool (b : bool)
| VStr (s : string)
| VTokenizer.

Arguments VTensor {T K} t.
Arguments VKb {T K} kb.
Arguments VInt {T K} n.
Arguments VBool {T K} b.
Arguments VStr {T K} s.
Arguments VTokenizer {T K}.

Class Collab : Type := {
  (** token-id tensors *)
  tensor : Type;
  (** a KB embedding pair [(key_embedding, value_embedding)] *)
  kb_embd : Type;
  (** metric values *)
  metric : Type;
  (** [tokenizer(strs, return_tensors='pt', padding=True)]: the input ids
      and the attention mask *)
  tokenizer_call : list string -> tensor * tensor;
  (** [model.generate] applied to keyword arguments; its failures
      propagate *)
  model_generate : list (string * pyval tensor kb_embd) -> result tensor;
  (** [tokenizer.decode(outputs.squeeze(), skip_special_tokens=False)] *)
  tokenizer_decode : tensor -> string;
  (** [tokenizer.batch_decode(outputs.squeeze(), skip_special_tokens=False)] *)
  tokenizer_batch_decode : tensor -> list string;
  (** [get_kb_embd] of [kblam.utils.train_utils], on the retriever's rows *)
  get_kb_embd : list nat -> kb_embd;
  (** [generate_multi_entity_qa] of [kblam.utils.data_utils] *)
  generate_multi_entity_qa : list string -> list string -> list string -> string * string;
  (** [rouge.compute(predictions, references)], its values listed *)
  rouge_compute : list string -> list string -> list metric;
  (** [bert_score.compute(predictions, references, ...)], the mean of every
      list-valued entry *)
  bert_score_compute : list string -> list string -> list metric
}.

Definition kwargs {C : Collab} : Type := list (string * pyval tensor kb_embd).

(** The keyword [name] of a call, when it was passed. *)
Fixpoint kwarg {T K : Type} (name : string) (kw : list (string * pyval T K))
  : option (pyval T K) :=
  match kw with
  | [] => None
  | (n, v) :: kw' => if String.eqb n name then Some v else kwarg name kw'
  end.

(** NumPy's global random state. [np_random_seed] is [np.random.seed] on a
    seed it accepts; [np_random_randint st high size] is
    [np.random.randint(0, high, size)] where it returns (a positive [high],
    or [size = 0]); [np_random_shuffle] is [np.random.shuffle]. *)
Class Rng : Type := {
  rng_state : Type;
  np_random_seed : Z -> rng_state;
  np_random_randint : rng_state -> nat -> nat -> list nat * rng_state;
  np_random_shuffle : rng_state -> list nat -> list nat * rng_state
}.

(** What the script relies on: [randint] draws [size] values below [high],
    [shuffle] permutes. *)
Class RngLaws (R : Rng) : Prop := {
  randint_length : forall st high size,
    List.length (fst (np_random_randint st high size)) = size;
  randint_range : forall st high size,
    0 < high -> Forall (fun i => i < high) (fst (np_random_randint st high size));
  shuffle_perm : forall st l, Permutation (fst (np_random_shuffle st l)) l
}.

(** The state an evaluation routine threads: the random state and the calls
    made to [model.generate], latest first. *)
Record world {C : Collab} {R : Rng} : Type := World {
  w_rng : rng_state;
  w_calls : list kwargs
}.

Definition M {C : Collab} {R : Rng} (A : Type) : Type := world -> result A * world.

Section Monad.
Context {C : Collab} {R : Rng}.

Definition ret {A : Type} (a : A) : M A := fun w => (Ok a, w).

Definition raise {A : Type} (e : exn) : M A := fun w => (Raise e, w).

Definition bind {A B : Type} (m : M A) (f : A -> M B) : M B :=
  fun w =>
    match m w with
    | (Ok a, w') => f a w'
    | (Raise e, w') => (Raise e, w')
    end.

Definition lift {A : Type} (r : result A) : M A := fun w => (r, w).

(** [np.random.seed(seed)] for an integer [seed]: a seed outside
    [0, 2**32 - 1] is refused, and the state is then left as it was. *)
Definition seed_rng (seed : Z) : M unit :=
  fun w =>
    if ((0 <=? seed) && (seed <? 2 ^ 32))%Z
    then (Ok tt, World _ _ (np_random_seed seed) (w_calls w))
    else (Raise ValueError, w).

(** [np.random.randint(0, high, size)]: drawing from an empty range is
    refused; drawing nothing ([size = 0]) is not, whatever the range. *)
Definition randint (high size : nat) : M (list nat) :=
  fun w =>
    if (high =? 0) && negb (size =? 0) then (Raise ValueError, w)
    else let (xs, st) := np_random_randint (w_rng w) high size in
         (Ok xs, World _ _ st (w_calls w)).

(** [np.random.shuffle(xs)], returning the shuffled array. *)
Definition shuffle (xs : list nat) : M (list nat) :=
  fun w =>
    let (ys, st) := np_random_shuffle (w_rng w) xs in
    (Ok ys, World _ _ st (w_calls w)).

(** One call of [model.generate]. *)
Definition generate (kw : kwargs) : M tensor :=
  fun w => (model_generate kw, World _ _ (w_rng w) (kw :: w_calls w)).

End Monad.

End Collaborators.

Notation "x <~ c1 ;; c2" := (Collaborators.bind c1 (fun x => c2))
  (at level 61, c1 at next level, right associativity).

(** ** Generation driver (lines 86-122) *)

Module Driver.
Import PyStr Format Collaborators.

Section Driver.
Context {C : Collab} {R : Rng}.

(** [x == -1], for an [x] that is an [int] or [None]. *)
Definition is_minus_one (x : option Z) : bool :=
  match x with
  | Some z => (z =? -1)%Z
  | None => false
  end.

Definition answer_question (model : family) (Q : string) (kb : option kb_embd)
  (kb_layer_frequency : Z) (topk_size : option Z) (kb_scale_factor : option Z)
  : M string :=
  let input_str := model_question_format_mapping model Q in
  let (input_ids, attention_masks) := tokenizer_call [input_str] in
  let dynamic_sparsify := if negb (is_minus_one topk_size) then true else false in
  let kb_scale_factor :=
    if is_minus_one kb_scale_factor then None else kb_scale_factor in
  outputs <~ generate [ ("input_ids", VTensor input_ids);
                        ("attention_mask", VTensor attention_masks);
                        ("kb_kvs", VKb kb);
                        ("max_new_tokens", VInt 150);
                        ("tokenizer", VTokenizer);
                        ("output_attentions", VBool true) ] ;;
  let outputs := tokenizer_decode outputs in
  let pruned_output := model_prune_format_mapping model outputs in
  ret pruned_output.

(** The keyword arguments [answer_question] hands to [model.generate]. *)
Definition issued_call (model : family) (Q : string) (kb : option kb_embd) : kwargs :=
  [ ("input_ids", VTensor (fst (tokenizer_call [model_question_format_mapping model Q])));
    ("attention_mask", VTensor (snd (tokenizer_call [model_question_format_mapping model Q])));
    ("kb_kvs", VKb kb);
    ("max_new_tokens", VInt 150);
    ("tokenizer", VTokenizer);
    ("output_attentions", VBool true) ].

End Driver.

End Driver.

(** ** Python helpers shared by the evaluation routines *)

Module Py.

(** [[f(x) for x in xs]] where [f] may raise. *)
Fixpoint mapM {A B : Type} (f : A -> result B) (xs : list A) : result (list B) :=
  match xs with
  | [] => Ok []
  | x :: xs' => y <- f x ;; ys <- mapM f xs' ;; Ok (y :: ys)
  end.

(** [xs[:n]]: a negative [n] counts from the end. *)
Definition slice_to {A : Type} (n : Z) (xs : list A) : list A :=
  if (n <? 0)%Z
  then firstn (Z.to_nat (Z.of_nat (List.length xs) + n)) xs
  else firstn (Z.to_nat n) xs.

(** [[x] * n]: empty for a negative [n]. *)
Definition times {A : Type} (x : A) (n : Z) : list A := repeat x (Z.to_nat n).

(** The conversion of an [int] operand of a [float] product (sizes below
    2^63). *)
Definition float_of_nat (n : nat) : float :=
  PrimFloat.of_uint63 (Uint63.of_Z (Z.of_nat n)).

(** [int(x)] on a [float]: truncation toward zero; [nan] and the infinities
    are refused. *)
Definition int_of_float (x : float) : result Z :=
  match Prim2SF x with
  | S754_zero _ => Ok 0%Z
  | S754_infinity _ => Raise OverflowError
  | S754_nan => Raise ValueError
  | S754_finite s m e =>
      let v := Z.shiftl (Z.pos m) e in
      Ok (if s then (- v)%Z else v)
  end.

(** [np.array([a, b])] on two lists of integers: a 2 x N array, given as its
    two rows; rows of different lengths are refused. *)
Definition np_array2 (a b : list Z) : result (list Z * list Z) :=
  if List.length a =? List.length b then Ok (a, b) else Raise ValueError.

(** The double quote, code 34. *)
Definition dquote : string := String "034"%char EmptyString.

End Py.

(** ** Generation evaluation: [perform_eval] (lines 155-282) *)

Module Generation.
Import PyStr Format Regex Collaborators Driver Py.

(** A dataset row; the fields are the keys the script reads. *)
Record KBEntry : Type := {
  kb_name : string;
  kb_description_type : string;
  kb_description : string;
  kb_key_string : string;
  kb_Q : string;
  kb_A : string
}.

Inductive eval_mode : Type := kb | icl | zeroshot.

Definition instruction_prompts : string :=
  newline
  ++ "Please answer questions based on the given text with format: "
  ++ dquote ++ "The {property} of {name} is {description}" ++ dquote
  ++ newline.

Definition instruction_prompts_multi_entities : string :=
  newline
  ++ "Please answer questions based on the given text with format: "
  ++ dquote
  ++ "The {property} of {name1} is {description}; The {property} of {name2} is {description}; ..."
  ++ dquote ++ newline.

Definition zero_shot_prompt : string :=
  newline
  ++ "Please answer the question in a very compact manner with format: The {property} of {name} is {description}"
  ++ newline.

Definition zero_shot_prompt_multi_entities : string :=
  newline
  ++ "Please answer the question in a very compact manner with format: "
  ++ dquote
  ++ "The {property} of {name1} is {description}; The {property} of {name2} is {description}; ..."
  ++ newline.

(** The expression [output.split(Q)[1]] applied to every generated text
    (lines 216, 224, 232, 340, 350, 358). *)
Definition split_Q_1 (output Q : string) : result string :=
  parts <- split Q output ;; getitem parts 1.

(** Lines 175-179: the textual rendering of the KB for the [icl] regime. *)
Definition render_prompt_strs (test_kb : list KBEntry) : string :=
  let key_str := map kb_key_string test_kb in
  let value_str := map kb_description test_kb in
  fold_left
    (fun (prompt_strs : string) '(k, v) =>
       (prompt_strs ++ k ++ " is " ++ v ++ "; ")%string)
    (combine key_str value_str) "".

(** The three lists the loop appends to. *)
Record outputs : Type := Outputs {
  model_outputs : list string;
  answers : list string;
  full_outputs : list (string * string)
}.

Definition no_outputs : outputs := Outputs [] [] [].

(** Lines 277-279. *)
Definition render_results (pairs : list (string * string)) : string :=
  fold_left
    (fun (results : string) '(a, A) =>
       (results ++ "Model output: " ++ a ++ newline ++ "True answer: " ++ A
        ++ newline ++ "-------" ++ newline)%string)
    pairs "".

Section Generation.
Context {C : Collab} {R : Rng}.

(** A loop over rows whose body may raise. *)
Fixpoint for_each {A S : Type} (body : S -> A -> M S) (xs : list A) (s : S) : M S :=
  match xs with
  | [] => ret s
  | x :: xs' => s' <~ body s x ;; for_each body xs' s'
  end.

Section Row.
Variable model : family.
Variable eval_mode_ : eval_mode.
Variable kb_layer_frequency : Z.
Variables topk_size kb_scale_factor : option Z.
Variable multi_entites : Z.
Variable remove_sorry : bool.
Variable test_kb : list KBEntry.
Variable kb_embedding : kb_embd.
Variable prompt_strs : string.

(** Lines 195-205: the question and its reference answer. *)
Definition question_of (row : KBEntry) : M (string * string) :=
  if (multi_entites =? -1)%Z then ret (kb_Q row, kb_A row)
  else if (multi_entites <? 0)%Z then raise ValueError
  else
    kb_subset_idx <~ randint (List.length test_kb) (Z.to_nat multi_entites) ;;
    rows <~ lift (mapM (getitem test_kb) kb_subset_idx) ;;
    ret (generate_multi_entity_qa (map kb_name rows)
           (map kb_description_type rows) (map kb_description rows)).

(** Lines 207-232: one answer under the chosen prompting regime. *)
Definition generate_output (Q : string) : M string :=
  match eval_mode_ with
  | kb =>
      out <~ answer_question model Q (Some kb_embedding) kb_layer_frequency
               topk_size kb_scale_factor ;;
      lift (split_Q_1 out Q)
  | icl =>
      let ins_prompt :=
        if negb (multi_entites =? -1)%Z then instruction_prompts_multi_entities
        else instruction_prompts in
      out <~ answer_question model (ins_prompt ++ prompt_strs ++ Q) None
               kb_layer_frequency None (Some (-1)%Z) ;;
      lift (split_Q_1 out Q)
  | zeroshot =>
      let ins_prompt :=
        if negb (multi_entites =? -1)%Z then zero_shot_prompt_multi_entities
        else zero_shot_prompt in
      out <~ answer_question model (ins_prompt ++ Q) None
               kb_layer_frequency None (Some (-1)%Z) ;;
      lift (split_Q_1 out Q)
  end.

(** Lines 234-249: what one generated text adds to the three lists. *)
Definition record_output (acc : outputs) (row : KBEntry) (answer model_output : string)
  : outputs :=
  if remove_sorry && contains "sorry" model_output then acc
  else
    let full_outputs' := full_outputs acc ++ [(model_output, answer)] in
    if (multi_entites =? -1)%Z then
      let answers' := answers acc ++ [kb_description row] in
      let model_output :=
        match search pattern_single model_output with
        | Some g => g
        | None => model_output
        end in
      Outputs (model_outputs acc ++ [model_output]) answers' full_outputs'
    else
      let matches := findall pattern_multi_prediction model_output in
      let model_output := join "; " matches in
      let answers' :=
        answers acc ++ [join ";" (findall pattern_multi_reference answer)] in
      Outputs (model_outputs acc ++ [model_output]) answers' full_outputs'.

(** The keyword arguments of the call each regime issues. *)
Definition regime_call (Q : string) : kwargs :=
  match eval_mode_ with
  | kb => issued_call model Q (Some kb_embedding)
  | icl =>
      issued_call model
        ((if negb (multi_entites =? -1)%Z then instruction_prompts_multi_entities
          else instruction_prompts) ++ prompt_strs ++ Q) None
  | zeroshot =>
      issued_call model
        ((if negb (multi_entites =? -1)%Z then zero_shot_prompt_multi_entities
          else zero_shot_prompt) ++ Q) None
  end.

(** The body of the loop of line 194. *)
Definition eval_row (acc : outputs) (row : KBEntry) : M outputs :=
  qa <~ question_of row ;;
  let (Q, answer) := qa in
  model_output <~ generate_output Q ;;
  ret (record_output acc row answer model_output).

End Row.

(** Lines 171-249: sampling the KB and running the loop. *)
Definition perform_eval_rows (model : family) (dataset : list KBEntry)
  (eval_mode_ : eval_mode) (kb_layer_frequency : Z) (kb_size : nat) (seed : Z)
  (topk_size kb_scale_factor : option Z) (multi_entites : Z) (remove_sorry : bool)
  : M outputs :=
  _ <~ seed_rng seed ;;
  kb_idx <~ randint (List.length dataset) kb_size ;;
  test_kb <~ lift (mapM (getitem dataset) kb_idx) ;;
  let prompt_strs := render_prompt_strs test_kb in
  let kb_embedding := get_kb_embd kb_idx in
  let subset_size := Nat.min 400 (List.length test_kb) in
  for_each
    (eval_row model eval_mode_ kb_layer_frequency topk_size kb_scale_factor
       multi_entites remove_sorry test_kb kb_embedding prompt_strs)
    (firstn subset_size test_kb) no_outputs.

(** The whole routine: the text of the results and the scores handed back by
    the metric collaborators. *)
Definition perform_eval (model : family) (dataset : list KBEntry)
  (eval_mode_ : eval_mode) (kb_layer_frequency : Z) (kb_size : nat) (seed : Z)
  (topk_size kb_scale_factor : option Z) (multi_entites : Z) (remove_sorry : bool)
  : M (string * list metric) :=
  acc <~ perform_eval_rows model dataset eval_mode_ kb_layer_frequency kb_size
           seed topk_size kb_scale_factor multi_entites remove_sorry ;;
  let rouge_score := rouge_compute (model_outputs acc) (answers acc) in
  let bert_scores := bert_score_compute (model_outputs acc) (answers acc) in
  let results := render_results (full_outputs acc) in
  ret (results, bert_scores ++ rouge_score).

End Generation.

End Generation.

(** ** Refusal protocol: [perform_eval_refusal] (lines 285-370) *)

Module Refusal.
Import PyStr Format Collaborators Driver Py Generation.

(** The prompts local to the routine (lines 299-305). *)
Definition instruction_prompts : string :=
  "Please answer questions based on the given text with format: "
  ++ dquote ++ "The {property} of {name} is {description}" ++ dquote
  ++ ", if relevant information cannot be found in the text, please respond "
  ++ dquote ++ "I am sorry I cannot find relevant information in the KB" ++ dquote
  ++ ".".

Definition zero_shot_prompt : string :=
  newline
  ++ "    Please answer the question in a very compact manner with format: The {property} of {name} is {description}"
  ++ newline ++ "    ".

(** Lines 322-323: the rows of the dataset outside the active KB,
    [outlier_idx[~np.isin(outlier_idx, kb_idx)]]. *)
Definition complement_of (dataset_len : nat) (kb_idx : list nat) : list nat :=
  filter (fun i => negb (existsb (Nat.eqb i) kb_idx)) (seq 0 dataset_len).

(** [int(question_size * outlier_ratio)] (lines 326 and 364). *)
Definition outlier_count (question_size : nat) (outlier_ratio : float) : result Z :=
  int_of_float (float_of_nat question_size * outlier_ratio).

(** [int(question_size * (1 - outlier_ratio))] (lines 327 and 328). *)
Definition change_point (question_size : nat) (outlier_ratio : float) : result Z :=
  int_of_float (float_of_nat question_size * (1 - outlier_ratio)).

(** Line 364. *)
Definition true_label (question_size : nat) (outlier_ratio : float) : result (list Z) :=
  cp <- change_point question_size outlier_ratio ;;
  n <- outlier_count question_size outlier_ratio ;;
  Ok (times 0%Z cp ++ times 1%Z n).

(** Line 365. *)
Definition prediction (model_outputs : list string) : list Z :=
  map (fun model_output => if contains "sorry" model_output then 1%Z else 0%Z)
      model_outputs.

(** The reference answer of the question at position [i] (lines 360-363). *)
Definition reference_answer (change_point : Z) (i : nat) (row : KBEntry) : string :=
  if (Z.of_nat i <? change_point)%Z then kb_description row
  else "Cannot find relevant information in the KB".

Section Refusal.
Context {C : Collab} {R : Rng}.

(** Lines 307-328: the active KB and the mixed question list.  The result
    holds the KB indices, the outlier indices, the questions and the change
    point. *)
Definition sample_with_outliers (dataset : list KBEntry) (kb_size : nat) (seed : Z)
  (outlier_ratio : float) (question_size : nat)
  : M (list nat * list nat * list KBEntry * list KBEntry * Z) :=
  _ <~ seed_rng seed ;;
  kb_idx <~ randint (List.length dataset) kb_size ;;
  test_kb <~ lift (mapM (getitem dataset) kb_idx) ;;
  let outlier_idx := complement_of (List.length dataset) kb_idx in
  outlier_idx <~ shuffle outlier_idx ;;
  let question_size := Nat.min kb_size question_size in
  n <~ lift (outlier_count question_size outlier_ratio) ;;
  let outlier_idx := slice_to n outlier_idx in
  cp <~ lift (change_point question_size outlier_ratio) ;;
  outliers <~ lift (mapM (getitem dataset) outlier_idx) ;;
  let questions := slice_to cp test_kb ++ outliers in
  change_point <~ lift (change_point question_size outlier_ratio) ;;
  ret (kb_idx, outlier_idx, test_kb, questions, change_point).

(** Lines 330-358: one answer under the chosen prompting regime. *)
Definition generate_output (model : family) (eval_mode_ : eval_mode)
  (kb_layer_frequency : Z) (topk_size kb_scale_factor : option Z)
  (kb_embedding : kb_embd) (prompt_strs : string) (Q : string) : M string :=
  match eval_mode_ with
  | kb =>
      out <~ answer_question model Q (Some kb_embedding) kb_layer_frequency
               topk_size kb_scale_factor ;;
      lift (split_Q_1 out Q)
  | icl =>
      out <~ answer_question model (instruction_prompts ++ prompt_strs ++ Q) None
               kb_layer_frequency None (Some (-1)%Z) ;;
      lift (split_Q_1 out Q)
  | zeroshot =>
      out <~ answer_question model (zero_shot_prompt ++ Q) None
               kb_layer_frequency None (Some (-1)%Z) ;;
      lift (split_Q_1 out Q)
  end.

(** The keyword arguments of the call each regime issues. *)
Definition regime_call (model : family) (eval_mode_ : eval_mode)
  (kb_embedding : kb_embd) (prompt_strs : string) (Q : string) : kwargs :=
  match eval_mode_ with
  | kb => issued_call model Q (Some kb_embedding)
  | icl => issued_call model (instruction_prompts ++ prompt_strs ++ Q) None
  | zeroshot => issued_call model (zero_shot_prompt ++ Q) None
  end.

(** [answers_for gen rows w outs w']: starting in [w], the generator [gen]
    answers the questions of [rows] one after the other with the texts
    [outs], ending in [w']. *)
Inductive answers_for (gen : string -> M string)
  : list KBEntry -> world -> list string -> world -> Prop :=
| answers_for_nil (w : world) : answers_for gen [] w [] w
| answers_for_cons (row : KBEntry) (rows : list KBEntry) (w w1 w2 : world)
    (out : string) (outs : list string) :
    gen (kb_Q row) w = (Ok out, w1) ->
    answers_for gen rows w1 outs w2 ->
    answers_for gen (row :: rows) w (out :: outs) w2.

(** Lines 329-363: the loop over the enumerated questions; the state holds
    the position, the generated texts and the reference answers. *)
Definition refusal_row (model : family) (eval_mode_ : eval_mode)
  (kb_layer_frequency : Z) (topk_size kb_scale_factor : option Z)
  (kb_embedding : kb_embd) (prompt_strs : string) (change_point : Z)
  (st : nat * list string * list string) (row : KBEntry)
  : M (nat * list string * list string) :=
  let '(i, model_outputs, answers) := st in
  let Q := kb_Q row in
  model_output <~ generate_output model eval_mode_ kb_layer_frequency topk_size
                    kb_scale_factor kb_embedding prompt_strs Q ;;
  ret (S i, model_outputs ++ [model_output],
       answers ++ [reference_answer change_point i row]).

Definition perform_eval_refusal (model : family) (dataset : list KBEntry)
  (eval_mode_ : eval_mode) (kb_layer_frequency : Z) (kb_size : nat) (seed : Z)
  (outlier_ratio : float) (topk_size : option Z) (question_size : nat)
  (kb_scale_factor : option Z)
  : M (string * (list Z * list Z)) :=
  sampled <~ sample_with_outliers dataset kb_size seed outlier_ratio question_size ;;
  let '(kb_idx, outlier_idx, test_kb, questions, change_point) := sampled in
  let prompt_strs := render_prompt_strs test_kb in
  let kb_embedding := get_kb_embd kb_idx in
  st <~ for_each
          (refusal_row model eval_mode_ kb_layer_frequency topk_size
             kb_scale_factor kb_embedding prompt_strs change_point)
          questions (0, [], []) ;;
  let '(_, model_outputs, answers) := st in
  labels <~ lift (true_label (Nat.min kb_size question_size) outlier_ratio) ;;
  let prediction := prediction model_outputs in
  let results := render_results (combine model_outputs answers) in
  arr <~ lift (np_array2 prediction labels) ;;
  ret (results, arr).

End Refusal.

End Refusal.

(** ** Retrieval accuracy: [eval_accuracy] (lines 717-893) *)

Module Accuracy.
Import PyStr Format Collaborators Py Generation.

(** Attention weights: a numeric type with addition and a strict order.
    NumPy's floating-point numbers are one instance, the rationals
    another. *)
Class Weight : Type := {
  weight : Type;
  wzero : weight;
  wadd : weight -> weight -> weight;
  wltb : weight -> weight -> bool
}.

(** The order is strict. *)
Class WeightLaws (Wt : Weight) : Prop := {
  wltb_asym : forall a b, wltb a b = true -> wltb b a = false
}.

(** Addition is exact: it keeps strict inequalities.  This holds of the
    rationals, not of floating-point numbers. *)
Class WeightAddLaws (Wt : Weight) : Prop := {
  wadd_mono : forall a b c d,
    wltb a b = true -> wltb c d = true -> wltb (wadd a c) (wadd b d) = true
}.

(** An array: its shape and its elements in row-major order. *)
Record ndarray {Wt : Weight} : Type := NdArray {
  shape : list nat;
  data : list weight
}.

Arguments NdArray {Wt} shape data.

(** What [eval_accuracy] needs beyond [Collab]: [aug_row] of
    [kblam.utils.data_utils], and the files found under a path once
    [model.generate] has run with the given keyword arguments. *)
Class AccuracyCollab (C : Collab) (Wt : Weight) : Type := {
  aug_row : KBEntry -> string;
  saved_files : kwargs -> string -> option ndarray
}.

(** [os.path.join(a, b)] on POSIX paths. *)
Definition ends_with_slash (a : string) : bool :=
  match a with
  | EmptyString => true
  | _ => starts_with "/" (drop (String.length a - 1) a)
  end.

Definition path_join (a b : string) : string :=
  if starts_with "/" b then b
  else if ends_with_slash a then a ++ b
  else a ++ "/" ++ b.

(** Decimal rendering of an index inside an f-string. *)
Definition str_of_nat (n : nat) : string :=
  DecimalString.NilEmpty.string_of_uint (Nat.to_uint n).

(** [range(0, stop, step)] *)
Definition py_range (stop : nat) (step : Z) : result (list nat) :=
  if (step =? 0)%Z then Raise ValueError
  else if (step <? 0)%Z then Ok []
  else
    let f := Z.to_nat step in
    Ok (map (fun i => i * f) (seq 0 ((stop + f - 1) / f))).

(** [s.strip(c)] for a one-character [c]. *)
Fixpoint lstrip (c : ascii) (s : string) : string :=
  match s with
  | EmptyString => EmptyString
  | String b s' => if Ascii.eqb b c then lstrip c s' else s
  end.

Fixpoint rstrip (c : ascii) (s : string) : string :=
  match s with
  | EmptyString => EmptyString
  | String b s' =>
      match rstrip c s' with
      | EmptyString => if Ascii.eqb b c then EmptyString else String b EmptyString
      | t => String b t
      end
  end.

Definition strip (c : ascii) (s : string) : string := rstrip c (lstrip c s).

Section Arrays.
Context {Wt : Weight}.

Definition product (dims : list nat) : nat := fold_right Nat.mul 1 dims.

(** [count] consecutive rows of [width] elements. *)
Fixpoint rows_of {A : Type} (count width : nat) (xs : list A) : list (list A) :=
  match count with
  | O => []
  | S count' => firstn width xs :: rows_of count' width (skipn width xs)
  end.

(** [a[..., :kb_size]]: every row of the last axis keeps its first
    [kb_size] elements. *)
Definition truncate_last (kb_size : nat) (a : ndarray) : result ndarray :=
  match rev (shape a) with
  | [] => Raise IndexError
  | last :: rev_outer =>
      let outer := rev rev_outer in
      Ok (NdArray (outer ++ [Nat.min last kb_size])
            (List.concat (map (firstn kb_size) (rows_of (product outer) last (data a)))))
  end.

(** [a.reshape(batch, -1, kb_size)]: the middle axis is inferred; the matrix
    of each batch element is returned row by row. *)
Definition reshape3 (batch kb_size : nat) (a : ndarray) : result (list (list (list weight))) :=
  let known := batch * kb_size in
  let size := List.length (data a) in
  if (known =? 0) || negb (size mod known =? 0) then Raise ValueError
  else
    let middle := size / known in
    Ok (map (rows_of middle kb_size) (rows_of batch (middle * kb_size) (data a))).

Fixpoint zip_with {A : Type} (f : A -> A -> A) (xs ys : list A) : list A :=
  match xs, ys with
  | x :: xs', y :: ys' => f x y :: zip_with f xs' ys'
  | _, _ => []
  end.

(** [m.sum(0)] on a matrix with [kb_size] columns: the rows are added from
    the first on; an empty matrix sums to zeros. *)
Definition sum_rows (kb_size : nat) (m : list (list weight)) : list weight :=
  match m with
  | [] => repeat wzero kb_size
  | r :: rs => fold_left (zip_with wadd) rs r
  end.

(** [w.sum(1)] on the reshaped array. *)
Definition sum_axis1 (kb_size : nat) (w : list (list (list weight))) : list (list weight) :=
  map (sum_rows kb_size) w.

(** [v.argmax()]: the first index holding the largest value. *)
Fixpoint argmax_from (best_i : nat) (best : weight) (i : nat) (xs : list weight) : nat :=
  match xs with
  | [] => best_i
  | x :: xs' =>
      if wltb best x then argmax_from i x (S i) xs'
      else argmax_from best_i best (S i) xs'
  end.

Definition argmax (xs : list weight) : result nat :=
  match xs with
  | [] => Raise ValueError
  | x :: xs' => Ok (argmax_from 0 x 1 xs')
  end.

(** The largest entry of an indexed list (the first one among equals) and
    the entries left. *)
Fixpoint extract_max (best : nat * weight) (xs : list (nat * weight))
  : (nat * weight) * list (nat * weight) :=
  match xs with
  | [] => (best, [])
  | x :: xs' =>
      if wltb (snd best) (snd x)
      then let (m, rest) := extract_max x xs' in (m, best :: rest)
      else let (m, rest) := extract_max best xs' in (m, x :: rest)
  end.

Fixpoint select_top (k : nat) (xs : list (nat * weight)) : list nat :=
  match k with
  | O => []
  | S k' =>
      match xs with
      | [] => []
      | x :: xs' =>
          let (m, rest) := extract_max x xs' in fst m :: select_top k' rest
      end
  end.

(** [torch.topk(v, k)[1]]: the indices of the [k] largest values; [k] beyond
    the length of [v] is refused.  Which of several equal values [torch.topk]
    returns, and in which order, is left to its implementation; here equal
    values are taken by index, and the facts proved of [topk] use it on
    vectors with a strict maximum, or state no value. *)
Definition topk (k : nat) (xs : list weight) : result (list nat) :=
  if List.length xs <? k then Raise RuntimeError
  else Ok (select_top k (combine (seq 0 (List.length xs)) xs)).

(** Row [j] of the last axis of an array with [last] columns, cut to
    [kb_size] columns. *)
Definition cut_row (data : list weight) (last kb_size : nat) (j : nat) : list weight :=
  firstn kb_size (firstn last (skipn (j * last) data)).

(** The sum of a list of weights, from its first element on. *)
Definition reduce_add (xs : list weight) : weight :=
  match xs with
  | [] => wzero
  | x :: xs' => fold_left wadd xs' x
  end.

(** The score the scoring step is meant to give question [i] on KB row [k],
    for an artifact of shape [[batch, middle, last]]: the sum over the
    middle axis of the entries at [(i, h, k)]. *)
Definition score_of (data : list weight) (middle last : nat) (i k : nat) : weight :=
  reduce_add (map (fun h => nth ((i * middle + h) * last + k) data wzero)
                  (seq 0 middle)).

(** One score vector of [kb_size] entries per batch element. *)
Definition score_matrix (data : list weight) (batch middle last kb_size : nat)
  : list (list weight) :=
  map (fun i => map (score_of data middle last i) (seq 0 kb_size)) (seq 0 batch).

(** The vector [v] has its strict maximum at index [i]. *)
Definition peak_at (v : list weight) (i : nat) : Prop :=
  exists p,
    nth_error v i = Some p
    /\ forall k x, nth_error v k = Some x -> k <> i -> wltb x p = true.

(** The mean of a non-empty list of booleans. *)
Definition mean_bool (bs : list bool) : Q :=
  Z.of_nat (List.length (filter (fun b => b) bs)) # Pos.of_nat (List.length bs).

(** Lines 873-879 once the artifact is loaded: the pair appended to
    [accs]. *)
Definition score_attention (kb_size test_batch_size : nat) (artifact : ndarray)
  : result (Q * Q) :=
  weight_ <- truncate_last kb_size artifact ;;
  let label := seq 0 test_batch_size in
  weight_ <- reshape3 test_batch_size kb_size weight_ ;;
  let scores := sum_axis1 kb_size weight_ in
  predictions <- mapM argmax scores ;;
  let acc := mean_bool (map (fun '(p, l) => p =? l) (combine predictions label)) in
  top_5_predictions <- mapM (topk 5) scores ;;
  let top_5_acc :=
    mean_bool (map (fun '(ps, l) => existsb (Nat.eqb l) ps)
                   (combine top_5_predictions label)) in
  Ok (acc, top_5_acc).

End Arrays.

Section EvalAccuracy.
Context {C : Collab} {R : Rng} {Wt : Weight} {AC : AccuracyCollab C Wt}.

(** [np.random.choice(n, size, replace=False)]: the first [size] entries of
    a random permutation of [range(n)]. *)
Definition choice_no_replace (n size : nat) : M (list nat) :=
  perm <~ shuffle (seq 0 n) ;;
  ret (firstn size perm).

(** Lines 825-830. *)
Definition dataset_subset_idx (dataset_len kb_size : nat) : M (list nat) :=
  if kb_size =? dataset_len then ret (seq 0 dataset_len)
  else if dataset_len <? kb_size then raise IndexError
  else choice_no_replace dataset_len kb_size.

(** Lines 870-879: the scoring loop over the KB layers. *)
Definition score_layers (files : string -> option ndarray) (attn_save_dir exp_config : string)
  (kb_layer_frequency : Z) (kb_size test_batch_size : nat) : result (list (Q * Q)) :=
  layers <- py_range 32 kb_layer_frequency ;;
  mapM (fun idx =>
          let path := path_join attn_save_dir (exp_config ++ "_" ++ str_of_nat idx ++ ".npy") in
          match files path with
          | None => Raise FileNotFoundError
          | Some artifact => score_attention kb_size test_batch_size artifact
          end)
       layers.

(** The routine with its collaborators (model, tokenizer, encoder, dataset,
    embeddings) handed in.  It returns the array saved as
    [{exp_config}_acc.npy] and the lines of [{exp_config}_acc.txt]. *)
Definition eval_accuracy (exp_config : string) (fancy_question : bool)
  (kb_layer_frequency : Z) (kb_scale_factor : option Z) (kb_size : nat)
  (llm_type : family) (test_batch_size : nat) (attn_save_dir : string)
  (dataset : list KBEntry) : M (list (Q * Q) * list string) :=
  let kb_scale_factor :=
    if Driver.is_minus_one kb_scale_factor then None else kb_scale_factor in
  let kb_layer_frequency :=
    if (kb_layer_frequency =? -1)%Z then 3%Z else kb_layer_frequency in
  subset_idx <~ dataset_subset_idx (List.length dataset) kb_size ;;
  dataset_subset <~ lift (mapM (getitem dataset) subset_idx) ;;
  let kb_embedding_real := get_kb_embd subset_idx in
  let format_func := model_question_format_mapping llm_type in
  input_strs <~ lift (mapM (fun i =>
                             row <- getitem dataset_subset i ;;
                             Ok (format_func (if fancy_question then aug_row row
                                              else kb_Q row)))
                           (seq 0 test_batch_size)) ;;
  let (input_ids, attention_masks) := tokenizer_call input_strs in
  let call := [ ("input_ids", VTensor input_ids);
                ("attention_mask", VTensor attention_masks);
                ("kb_kvs", VKb (Some kb_embedding_real));
                ("max_new_tokens", VInt 60);
                ("tokenizer", VTokenizer);
                ("output_attentions", VBool true);
                ("save_attention_weights", VBool true);
                ("attention_save_loc", VStr attn_save_dir);
                ("attention_file_base_name", VStr exp_config) ] in
  outputs <~ generate call ;;
  let outputs := tokenizer_batch_decode outputs in
  accs <~ lift (score_layers (saved_files call) attn_save_dir exp_config
                  kb_layer_frequency kb_size test_batch_size) ;;
  ret (accs, map (strip "^") outputs).

End EvalAccuracy.

End Accuracy.

(** ** Stand-in collaborators

    Small concrete collaborators on which the routines can be run: a
    generator that answers every prompt with a fixed reply (after repeating
    the prompt or not), a counter-based random state, and rational attention
    weights. *)

Module Toy.
Import PyStr Format Collaborators Py Generation Accuracy.
Local Open Scope string_scope.

Definition toy_generate (echo : bool) (reply : string)
  (kw : list (string * pyval (list string) (list nat))) : result (list string) :=
  match kwarg "input_ids" kw with
  | Some (VTensor prompts) =>
      Ok (map (fun prompt : string => (if echo then prompt else "") ++ reply) prompts)
  | _ => Raise RuntimeError
  end.

Definition toy_collab (echo : bool) (reply : string) : Collab := {|
  tensor := list string;
  kb_embd := list nat;
  metric := nat;
  tokenizer_call := fun strs => (strs, map (fun _ => "1") strs);
  model_generate := toy_generate echo reply;
  tokenizer_decode := String.concat "";
  tokenizer_batch_decode := fun t => t;
  get_kb_embd := fun idx => idx;
  generate_multi_entity_qa := fun names _ descriptions =>
    ("What are the properties of " ++ join ", " names ++ "?",
     String.concat "" (map (fun d => "It is " ++ d ++ "; ") descriptions));
  rouge_compute := fun predictions _ => [List.length predictions];
  bert_score_compute := fun _ references => [List.length references]
|}.

(** A random state that counts: [randint] walks through the range from the
    counter on, [shuffle] reverses. *)
Definition toy_rng : Rng := {|
  rng_state := nat;
  np_random_seed := fun seed => Z.to_nat seed;
  np_random_randint := fun st high size =>
    (map (fun i => (st + i) mod high) (seq 0 size), st + size);
  np_random_shuffle := fun st xs => (rev xs, S st)
|}.

Definition toy_world {C : Collab} : @world C toy_rng := World C toy_rng 0 [].

(** Row [i] of a synthetic dataset. *)
Definition toy_row (i : nat) : KBEntry := {|
  kb_name := "entity" ++ str_of_nat i;
  kb_description_type := "purpose";
  kb_description := "task" ++ str_of_nat i;
  kb_key_string := "the purpose of entity" ++ str_of_nat i;
  kb_Q := "What is the purpose of entity" ++ str_of_nat i ++ "?";
  kb_A := "The purpose of entity" ++ str_of_nat i ++ " is task" ++ str_of_nat i
|}.

Definition toy_dataset (n : nat) : list KBEntry := map toy_row (seq 0 n).

(** A run of [perform_eval] on five rows with the stand-in model. *)
Abbreviation generation_run kb_size reply echo remove_sorry :=
  (@perform_eval_rows (toy_collab echo reply) toy_rng Llama (toy_dataset 5) kb 3
     kb_size 1 None None (-1) remove_sorry toy_world).

(** The sampling step and a whole run of [perform_eval_refusal] with the
    stand-in model, the default [question_size] and [outlier_ratio]. *)
Abbreviation refusal_sample dataset_size kb_size :=
  (@Refusal.sample_with_outliers (toy_collab true " I am sorry") toy_rng
     (toy_dataset dataset_size) kb_size 1 0.2%float 100 toy_world).

Abbreviation refusal_run dataset_size kb_size reply :=
  (@Refusal.perform_eval_refusal (toy_collab true reply) toy_rng Llama
     (toy_dataset dataset_size) kb 3 kb_size 1 0.2%float None 100 None toy_world).

(** Rational attention weights. *)
Definition Qltb (a b : Q) : bool :=
  (Qnum a * Z.pos (Qden b) <? Qnum b * Z.pos (Qden a))%Z.

Definition QWeight : Weight := {|
  weight := Q;
  wzero := 0%Q;
  wadd := Qplus;
  wltb := Qltb
|}.

(** A sink that holds one artifact under every path. *)
Definition toy_sink (C : Collab) (a : @ndarray QWeight) : AccuracyCollab C QWeight := {|
  aug_row := kb_Q;
  saved_files := fun _ _ => Some a
|}.

(** A run of [eval_accuracy] on [n] rows with the stand-in model and one
    artifact under every path. *)
Abbreviation accuracy_run n kb_size batch artifact :=
  (@eval_accuracy (toy_collab true " The purpose of it is 42") toy_rng QWeight
     (toy_sink _ artifact) "accuracy_results" false 3 None kb_size Llama batch
     "attn" (toy_dataset n) toy_world).

(** An artifact of shape [[4, 2, 4]] whose row [i] peaks at column [i] in
    both heads. *)
Definition artifact_4_2_4 : @ndarray QWeight :=
  @NdArray QWeight [4; 2; 4]
    [ 7#10; 1#10; 1#10; 1#10;   6#10; 2#10; 1#10; 1#10;
      1#10; 7#10; 1#10; 1#10;   2#10; 6#10; 1#10; 1#10;
      1#10; 1#10; 7#10; 1#10;   1#10; 2#10; 6#10; 1#10;
      1#10; 1#10; 1#10; 7#10;   1#10; 1#10; 2#10; 6#10 ]%Q.

(** An artifact of shape [[5, 2, 6]]: five KB columns and one column of
    padding; row [i] peaks at column [i] in both heads. *)
Definition artifact_5_2_6 : @ndarray QWeight :=
  @NdArray QWeight [5; 2; 6]
    [ 6#10; 1#10; 1#10; 1#10; 1#10; 9#10;   5#10; 2#10; 1#10; 1#10; 1#10; 9#10;
      1#10; 6#10; 1#10; 1#10; 1#10; 9#10;   2#10; 5#10; 1#10; 1#10; 1#10; 9#10;
      1#10; 1#10; 6#10; 1#10; 1#10; 9#10;   1#10; 2#10; 5#10; 1#10; 1#10; 9#10;
      1#10; 1#10; 1#10; 6#10; 1#10; 9#10;   1#10; 1#10; 2#10; 5#10; 1#10; 9#10;
      1#10; 1#10; 1#10; 1#10; 6#10; 9#10;   1#10; 1#10; 1#10; 2#10; 5#10; 9#10 ]%Q.

End Toy.
(** ** Further Python helpers

    Operations that occur in the statements of the second part only. *)

Module PyText.
Import PyStr.

(** [s.find(sub)]: the first position at which [sub] occurs; [None] stands
    for Python's [-1]. *)
Fixpoint find (sub s : string) : option nat :=
  if starts_with sub s then Some 0
  else match s with
       | EmptyString => None
       | String _ s' => option_map S (find sub s')
       end.

(** [all(p(c) for c in s)] *)
Fixpoint all_chars (p : ascii -> bool) (s : string) : bool :=
  match s with
  | EmptyString => true
  | String c s' => p c && all_chars p s'
  end.

(** [c * n] for a one-character [c]. *)
Fixpoint copies (n : nat) (c : ascii) : string :=
  match n with
  | O => EmptyString
  | S n' => String c (copies n' c)
  end.

(** [s.endswith(c)] for a one-character [c]. *)
Fixpoint ends_with_char (c : ascii) (s : string) : bool :=
  match s with
  | EmptyString => false
  | String b EmptyString => Ascii.eqb b c
  | String _ s' => ends_with_char c s'
  end.

End PyText.

(** ** The tail of the single-entity answer pattern *)

Module AnswerPattern.
Import PyStr Regex.

(** The tail [\s+is\s+(.+)] of the pattern of line 239. *)
Definition pattern_is_tail : regex :=
  seq_of [ Plus is_space; Str "is"; Plus is_space; Group (Plus is_dot) ].

(** Whether [s] begins with a character of the class [p]. *)
Definition begins_with_class (p : ascii -> bool) (s : string) : bool :=
  match s with
  | EmptyString => false
  | String c _ => p c
  end.

(** Whether [s] begins with white space ([\s]). *)
Definition leading_space (s : string) : bool := begins_with_class is_space s.

(** The text holds neither a full stop nor a semicolon. *)
Definition no_terminator (s : string) : Prop :=
  contains "." s = false /\ contains ";" s = false.

End AnswerPattern.

(** ** The call issued by [eval_accuracy] *)

Module AccuracyCall.
Import PyStr Format Collaborators Generation Accuracy.

Section AccuracyCall.
Context {C : Collab} {R : Rng} {Wt : Weight} {AC : AccuracyCollab C Wt}.

(** Lines 842-846: the prompt of batch element [i]. *)
Definition input_str (llm_type : family) (fancy_question : bool)
  (dataset_subset : list KBEntry) (i : nat) : result string :=
  row <- getitem dataset_subset i ;;
  Ok (model_question_format_mapping llm_type
        (if fancy_question then aug_row row else kb_Q row)).

(** Lines 856-866: the keyword arguments handed to [model.generate]. *)
Definition generate_call (exp_config attn_save_dir : string)
  (kb_embedding_real : kb_embd) (input_strs : list string) : kwargs :=
  [ ("input_ids", VTensor (fst (tokenizer_call input_strs)));
    ("attention_mask", VTensor (snd (tokenizer_call input_strs)));
    ("kb_kvs", VKb (Some kb_embedding_real));
    ("max_new_tokens", VInt 60);
    ("tokenizer", VTokenizer);
    ("output_attentions", VBool true);
    ("save_attention_weights", VBool true);
    ("attention_save_loc", VStr attn_save_dir);
    ("attention_file_base_name", VStr exp_config) ].

(** [range(0, 32, kb_layer_frequency)] has this many entries. *)
Definition layer_count (kb_layer_frequency : Z) : nat :=
  if (kb_layer_frequency <? 0)%Z then 0
  else (32 + Z.to_nat kb_layer_frequency - 1) / Z.to_nat kb_layer_frequency.

End AccuracyCall.

End AccuracyCall.

(** ** The state of the generation loop *)

Module LoopState.
Import PyStr Generation.

(** The three lists of [perform_eval] are aligned, and with the filter on the
    transcript holds no text with the marker. *)
Definition filtered (remove_sorry : bool) (acc : outputs) : Prop :=
  List.length (full_outputs acc) = List.length (model_outputs acc)
  /\ List.length (answers acc) = List.length (model_outputs acc)
  /\ (remove_sorry = true ->
      Forall (fun pair => contains "sorry" (fst pair) = false) (full_outputs acc)).

End LoopState.

(** ** The command line (lines 373-527 and 1205-1217)

    The options are listed as [add_argument] declares them, by destination
    and default; a sub-command's parser holds the shared options of
    [parent_parser] and then its own. *)

Module Cli.
Import PyStr.

(** The value of a parsed option. *)
Inductive argval : Type :=
| ANone
| ABool (b : bool)
| AInt (n : Z)
| AFloat (x : float)
| AStr (s : string).

(** The exceptions of the drivers: Python's own, and those of the
    libraries. *)
Inductive error : Type :=
| AttributeError (name : string)
| TypeError
| UnboundLocalError (name : string)
| ZeroDivisionError
| Library (e : exn).

Inductive outcome (A : Type) : Type :=
| Done (a : A)
| Failed (e : error).

Arguments Done {A} a.
Arguments Failed {A} e.

Definition obind {A B : Type} (o : outcome A) (f : A -> outcome B) : outcome B :=
  match o with
  | Done a => f a
  | Failed e => Failed e
  end.

(** Lines 376-408. *)
Definition parent_parser : list (string * argval) :=
  [ ("ckpt_idx", AInt 10000);
    ("dataset_dir", ANone);
    ("encoder_dir", ANone);
    ("encoder_spec", AStr "OAI");
    ("fancy_instruction", ABool false);
    ("kb_layer_frequency", AInt 3);
    ("kb_scale_factor", ANone);
    ("kb_size", AInt 200);
    ("llm_base_dir", ANone);
    ("llm_type", AStr "phi3");
    ("lr", AFloat 0.0005);
    ("model_dir", ANone);
    ("tokenizer_path", AStr "");
    ("save_dir", ANone);
    ("seed", ANone);
    ("test_dataset", ANone);
    ("query_head_path", AStr "");
    ("sep_query_head", ANone);
    ("sep_query_head", ANone);
    ("mlflow", ABool false) ].

(** Lines 414-448. *)
Definition gen_parser : list (string * argval) :=
  parent_parser
  ++ [ ("eval_mode", AStr "kb");
       ("exp_config_name", AStr "generation_results");
       ("kb_token_layer_frequency", ANone);
       ("multi_entites", AInt (-1));
       ("no_outlier", ABool false);
       ("remove_sorry", ABool false);
       ("topk_size", AInt (-1));
       ("use_precomputed_embd", ABool false);
       ("test_batch_size", AInt 50);
       ("log_save_dir", ANone) ].

(** Lines 451-463. *)
Definition acc_parser : list (string * argval) :=
  parent_parser
  ++ [ ("attn_save_dir", AStr "");
       ("exp_config_name", AStr "accuracy_results");
       ("fancy_question", ABool false);
       ("log_save_dir", ANone);
       ("test_batch_size", AInt 50);
       ("use_shift_match", ABool false) ].

(** Lines 466-498. *)
Definition ref_parser : list (string * argval) :=
  parent_parser
  ++ [ ("eval_mode", AStr "kb");
       ("exp_config_name", AStr "refusal_results");
       ("kb_token_layer_frequency", ANone);
       ("multi_entites", AInt (-1));
       ("no_outlier", ABool false);
       ("remove_sorry", ABool false);
       ("topk_size", AInt (-1));
       ("use_precomputed_embd", ABool false) ].

(** Lines 501-527. *)
Definition basic_parser : list (string * argval) :=
  parent_parser
  ++ [ ("eval_mode", AStr "kb");
       ("exp_config_name", AStr "basic_results");
       ("kb_token_layer_frequency", ANone);
       ("no_outlier", ABool false);
       ("output_dir", AStr "");
       ("sample_size", AInt 5);
       ("subset_size", AInt 100);
       ("topk_size", AInt (-1));
       ("use_precomputed_embd", ABool false) ].

(** The sub-commands of line 411. *)
Inductive command : Type := generation | accuracy | refusal | standard.

Definition command_name (c : command) : string :=
  match c with
  | generation => "generation"
  | accuracy => "accuracy"
  | refusal => "refusal"
  | standard => "standard"
  end.

Definition subparser (c : command) : list (string * argval) :=
  match c with
  | generation => gen_parser
  | accuracy => acc_parser
  | refusal => ref_parser
  | standard => basic_parser
  end.

(** The object [parse_args] returns. *)
Definition namespace : Type := list (string * argval).

(** [parser.parse_args()] for a command line that names the sub-command [c]
    and sets the destinations on which [given] is defined: the namespace
    holds [command] and one attribute per declared destination, with the
    value given or else the default. *)
Definition parse_args (c : command) (given : string -> option argval) : namespace :=
  ("command", AStr (command_name c))
  :: map (fun '(dest, default) =>
            (dest, match given dest with
                   | Some v => v
                   | None => default
                   end))
         (subparser c).

(** [args.name] *)
Fixpoint getattr (args : namespace) (name : string) : outcome argval :=
  match args with
  | [] => Failed (AttributeError name)
  | (dest, v) :: args' => if String.eqb dest name then Done v else getattr args' name
  end.

(** A run of attribute reads, in order. *)
Fixpoint read_all (args : namespace) (names : list string) : outcome (list argval) :=
  match names with
  | [] => Done []
  | name :: names' =>
      obind (getattr args name) (fun v =>
      obind (read_all args names') (fun vs => Done (v :: vs)))
  end.

(** The attributes [eval_generate] reads (lines 533-552, 645-646 and
    656-657). *)
Definition eval_generate_reads : list string :=
  [ "dataset_dir"; "encoder_spec"; "encoder_dir"; "eval_mode"; "exp_config_name";
    "kb_layer_frequency"; "kb_scale_factor"; "kb_size"; "llm_base_dir"; "llm_type";
    "model_dir"; "seed"; "test_dataset"; "use_precomputed_embd"; "query_head_path";
    "mlflow"; "log_save_dir"; "remove_sorry"; "tokenizer_path"; "sep_query_head";
    "topk_size"; "multi_entites"; "save_dir"; "save_dir" ].

(** The attributes [eval_accuracy_cli] reads (lines 666-686). *)
Definition eval_accuracy_cli_reads : list string :=
  [ "dataset_dir"; "encoder_dir"; "encoder_spec"; "exp_config_name"; "fancy_question";
    "kb_layer_frequency"; "kb_scale_factor"; "kb_size"; "llm_base_dir"; "llm_type";
    "model_dir"; "test_batch_size"; "test_dataset"; "use_shift_match";
    "query_head_path"; "log_save_dir"; "attn_save_dir"; "seed"; "mlflow";
    "sep_query_head"; "tokenizer_path" ].

(** The attributes [eval_refusal] reads (lines 899-912, 956, 975 and
    979-981). *)
Definition eval_refusal_reads : list string :=
  [ "dataset_dir"; "encoder_spec"; "encoder_dir"; "eval_mode"; "exp_config_name";
    "kb_layer_frequency"; "kb_scale_factor"; "kb_size"; "llm_base_dir"; "llm_type";
    "model_dir"; "seed"; "test_dataset"; "use_precomputed_embd";
    "use_precomputed_embd"; "topk_size"; "save_dir"; "save_dir" ].

(** The attributes [eval] reads (lines 988-1004). *)
Definition eval_reads : list string :=
  [ "attn_save_dir"; "dataset_dir"; "encoder_spec"; "encoder_dir"; "exp_config_name";
    "kb_layer_frequency"; "kb_scale_factor"; "kb_size"; "llm_base_dir"; "llm_type";
    "model_dir"; "sample_size"; "seed"; "subset_size"; "test_dataset"; "log_save_dir";
    "mlflow" ].

(** Lines 1205-1217: the driver [main] runs for each sub-command, by the
    attributes it reads. *)
Definition driver_reads (c : command) : list string :=
  match c with
  | generation => eval_generate_reads
  | accuracy => eval_accuracy_cli_reads
  | refusal => eval_refusal_reads
  | standard => eval_reads
  end.

End Cli.

(** ** The KB retriever (lines 125-152) and the set-up of [eval_refusal]
    (lines 896-965) *)

Module RefusalSetup.
Import PyStr Format Cli.

Set Warnings "-abstract-large-number".

(** The options [eval_refusal] reads, typed as [add_argument] declares
    them; an option without default is [None] unless given. *)
Record options : Type := {
  dataset_dir : option string;
  encoder_spec : string;
  encoder_dir : option string;
  eval_mode : string;
  exp_config_name : string;
  kb_layer_frequency : Z;
  kb_scale_factor : option Z;
  kb_size : Z;
  llm_base_dir : option string;
  llm_type : string;
  model_dir : option string;
  seed : option Z;
  test_dataset : option string;
  use_precomputed_embd : bool;
  topk_size : Z;
  save_dir : option string
}.

(** What the set-up loads, by interface only. *)
Class Loader : Type := {
  (** a row of an embedding array *)
  embd_row : Type;
  tokenizer_obj : Type;
  model_obj : Type;
  encoder_obj : Type;
  (** a KB embedding pair *)
  kb_pair : Type;
  (** [json.load(open(path))], a list of KB rows *)
  json_load : string -> result (list Generation.KBEntry);
  (** [np.load(path).astype("float32")] *)
  np_load : string -> result (list embd_row);
  (** [AutoTokenizer.from_pretrained(path, trust_remote_code=True,
      padding_side="left")] *)
  tokenizer_from_pretrained : option string -> result tokenizer_obj;
  (** [tokenizer.pad_token = token] *)
  set_pad_token : tokenizer_obj -> string -> tokenizer_obj;
  (** [cls.from_pretrained(path, device_map="cuda", torch_dtype="auto",
      trust_remote_code=True)], [cls] being the class of the family *)
  model_from_pretrained : family -> option string -> result model_obj;
  (** lines 945-947: the pad and end-of-sequence token ids are taken from
      the tokenizer, then [model.eval()] *)
  prepare_generation : model_obj -> tokenizer_obj -> model_obj;
  (** [model.config.hidden_size] and [model.config.num_hidden_layers] *)
  hidden_size : model_obj -> Z;
  num_hidden_layers : model_obj -> Z;
  (** [KBEncoder(encoder_name=spec.upper(), projector_type="linear",
      endpoint_url="", out_dim=out_dim, frozen_base_model=True,
      projector_kwargs={"mlp_depth": 1, "mlp_hidden_dim": 512},
      get_oai_embd_online=online)] *)
  KBEncoder : string -> Z -> bool -> result encoder_obj;
  (** [encoder.load_state_dict(torch.load(path))] *)
  load_state_dict : encoder_obj -> option string -> result encoder_obj;
  (** [get_kb_embd(encoder, batch_indices, precomputed_embd=..., kb_dict=...)]
      of [kblam.utils.train_utils]; an argument left out is [None] *)
  get_kb_embd :
    encoder_obj -> list nat ->
    option (option (list embd_row) * option (list embd_row)) ->
    option (list Generation.KBEntry) -> kb_pair
}.

Section Retriever.
Context {Ld : Loader}.

(** Lines 125-136. *)
Record KBRetriever : Type := {
  encoder : encoder_obj;
  dataset : list Generation.KBEntry;
  key_embds : option (list embd_row);
  value_embds : option (list embd_row)
}.

(** Lines 138-142. *)
Definition _use_cached_embd (self : KBRetriever) : bool :=
  match key_embds self, value_embds self with
  | Some _, Some _ => true
  | _, _ => false
  end.

(** Lines 144-152. *)
Definition get_key_embeddings (self : KBRetriever) (batch_indices : list nat) : kb_pair :=
  if _use_cached_embd self
  then get_kb_embd (encoder self) batch_indices
         (Some (key_embds self, value_embds self)) None
  else get_kb_embd (encoder self) batch_indices None (Some (dataset self)).

(** A library call within a driver. *)
Definition lib {A : Type} (r : result A) : outcome A :=
  match r with
  | Ok a => Done a
  | Raise e => Failed (Library e)
  end.

(** An operand that must be a string: [None] makes [in], [+] and
    [os.path.join] raise [TypeError]. *)
Definition as_str (v : option string) : outcome string :=
  match v with
  | Some s => Done s
  | None => Failed TypeError
  end.

(** [a // b] *)
Definition floordiv (a b : Z) : outcome Z :=
  if (b =? 0)%Z then Failed ZeroDivisionError else Done (a / b)%Z.

(** A local variable that is bound on some paths only. *)
Definition local {A : Type} (name : string) (v : option A) : outcome A :=
  match v with
  | Some a => Done a
  | None => Failed (UnboundLocalError name)
  end.

(** Lines 896-965 of [eval_refusal], up to the construction of the
    retriever: the model, the tokenizer and the retriever handed to
    [perform_eval_refusal]. *)
Definition eval_refusal_setup (args : options)
  : outcome (model_obj * tokenizer_obj * KBRetriever) :=
  let dataset_dir := dataset_dir args in
  let encoder_model_spec := encoder_spec args in
  let encoder_path := encoder_dir args in
  let kb_layer_frequency := kb_layer_frequency args in
  let llm_base_dir := llm_base_dir args in
  let llm_type := llm_type args in
  let model_path := model_dir args in
  let use_precomputed_embd := use_precomputed_embd args in
  obind (as_str (test_dataset args)) (fun test_dataset =>
  let validation_part_start_idx := if contains "gpt" test_dataset then 120000 else 0 in
  obind (as_str dataset_dir) (fun dir =>
  obind (lib (json_load (Accuracy.path_join dir (test_dataset ++ ".json")))) (fun rows =>
  let dataset := skipn validation_part_start_idx rows in
  obind (if use_precomputed_embd
         then
           obind (lib (np_load (Accuracy.path_join dir
                                  (test_dataset ++ "_" ++ encoder_model_spec
                                   ++ "_embd_key.npy")))) (fun key =>
           let key_embds := skipn validation_part_start_idx key in
           obind (lib (np_load (Accuracy.path_join dir
                                  (test_dataset ++ "_" ++ encoder_model_spec
                                   ++ "_embd_value.npy")))) (fun value =>
           let value_embds := skipn validation_part_start_idx value in
           Done (Some key_embds, Some value_embds)))
         else Done (None, None)) (fun '(key_embds, value_embds) =>
  let encoder_spec := encoder_model_spec in
  obind (lib (tokenizer_from_pretrained llm_base_dir)) (fun tokenizer =>
  let tokenizer := set_pad_token tokenizer "^" in
  obind (if String.eqb llm_type "llama3"
         then lib (model_from_pretrained Llama model_path)
         else lib (model_from_pretrained Phi3 model_path)) (fun model =>
  let model := prepare_generation model tokenizer in
  obind (floordiv (num_hidden_layers model) kb_layer_frequency) (fun quotient =>
  let out_dim := (hidden_size model * (quotient + 1))%Z in
  obind (lib (KBEncoder encoder_spec out_dim
                (if RefusalSetup.use_precomputed_embd args then false else true)))
    (fun encoder =>
  obind (lib (load_state_dict encoder encoder_path)) (fun encoder =>
  obind (local "key_embds" key_embds) (fun key_embds =>
  obind (local "value_embds" value_embds) (fun value_embds =>
  Done (model, tokenizer,
        {| encoder := encoder;
           dataset := dataset;
           key_embds := Some key_embds;
           value_embds := Some value_embds |})))))))))))).

End Retriever.

End RefusalSetup.

(** A stand-in loader: three synthetic rows under [data/synthetic.json],
    embedding arrays of three rows, and objects that load from any path. *)

Module ToyLoader.
Import PyStr Format Cli RefusalSetup.

Definition toy_loader : Loader := {|
  embd_row := nat;
  tokenizer_obj := string;
  model_obj := family;
  encoder_obj := string;
  kb_pair := list nat;
  json_load := fun path =>
    if String.eqb path "data/synthetic.json" then Ok (Toy.toy_dataset 3)
    else Raise FileNotFoundError;
  np_load := fun _ => Ok [0; 1; 2];
  tokenizer_from_pretrained := fun _ => Ok "tokenizer";
  set_pad_token := fun tokenizer _ => tokenizer;
  model_from_pretrained := fun m _ => Ok m;
  prepare_generation := fun model _ => model;
  hidden_size := fun _ => 8%Z;
  num_hidden_layers := fun _ => 32%Z;
  KBEncoder := fun spec _ _ => Ok spec;
  load_state_dict := fun encoder _ => Ok encoder;
  get_kb_embd := fun _ batch_indices _ _ => batch_indices
|}.

(** The command line [refusal --dataset_dir data --test_dataset synthetic],
    with or without [--use_precomputed_embd]. *)
Definition toy_options (use_precomputed_embd : bool) : options := {|
  dataset_dir := Some "data";
  encoder_spec := "OAI";
  encoder_dir := None;
  eval_mode := "kb";
  exp_config_name := "refusal_results";
  kb_layer_frequency := 3;
  kb_scale_factor := None;
  kb_size := 200;
  llm_base_dir := None;
  llm_type := "phi3";
  model_dir := None;
  seed := None;
  test_dataset := Some "synthetic";
  use_precomputed_embd := use_precomputed_embd;
  topk_size := -1;
  save_dir := None
|}.

End ToyLoader.


(** * Properties *)

(** ** Python strings *)

Module PyStrFacts.
Import PyStr.
Local Open Scope string_scope.

Lemma starts_with_iff (p s : string) :
  starts_with p s = true <-> exists t, s = p ++ t.
Proof.
  revert s; induction p as [|a p IH]; intros s; simpl.
  - split; [intros _; now exists s | reflexivity].
  - destruct s as [|b s].
    + split; [discriminate | intros [t Ht]; discriminate].
    + destruct (Ascii.eqb_spec a b) as [->|Hab].
      * rewrite IH; split; intros [t Ht]; exists t.
        -- now rewrite Ht.
        -- now injection Ht.
      * split; [discriminate | intros [t Ht]; injection Ht; congruence].
Qed.

Lemma append_assoc (a b c : string) : (a ++ b) ++ c = a ++ (b ++ c).
Proof. induction a as [|x a IH]; simpl; [reflexivity | now rewrite IH]. Qed.

Lemma append_nil_r (a : string) : a ++ "" = a.
Proof. induction a as [|x a IH]; simpl; [reflexivity | now rewrite IH]. Qed.

Lemma contains_iff (sub s : string) :
  contains sub s = true <-> exists pre post, s = pre ++ sub ++ post.
Proof.
  induction s as [|c s IH]; simpl.
  - rewrite orb_false_r, starts_with_iff; split.
    + intros [t Ht]; now exists "", t.
    + intros [pre [post H]]; destruct pre; simpl in H; [now exists post | discriminate].
  - rewrite orb_true_iff, starts_with_iff, IH; split.
    + intros [[t Ht] | [pre [post H]]].
      * now exists "", t.
      * exists (String c pre), post; simpl; now rewrite H.
    + intros [pre [post H]]; destruct pre as [|d pre]; simpl in H.
      * left; now exists post.
      * right; injection H as _ H; now exists pre, post.
Qed.

Lemma contains_app_r (sub a b : string) :
  contains sub b = true -> contains sub (a ++ b) = true.
Proof.
  rewrite !contains_iff; intros [pre [post H]].
  exists (a ++ pre), post; now rewrite H, append_assoc.
Qed.

Lemma starts_with_contains (sub s : string) :
  starts_with sub s = true -> contains sub s = true.
Proof. destruct s; simpl; intros ->; reflexivity. Qed.

(** An occurrence of [old] that starts inside [x] and is found in [x ++ t]
    either lies within [x] or runs over into [t]. *)
Lemma starts_with_app_cases (old x t : string) :
  starts_with old (x ++ t) = true ->
  starts_with old x = true
  \/ (String.length x < String.length old
      /\ starts_with (drop (String.length x) old) t = true).
Proof.
  revert old; induction x as [|c x IH]; intros old H.
  - destruct old as [|a old]; [now left | right; split; [simpl; lia | exact H]].
  - destruct old as [|a old]; [now left|].
    simpl in H |- *. destruct (Ascii.eqb a c); [|discriminate].
    destruct (IH old H) as [Hl | [Hlen Hr]]; [now left | right; split; [lia | exact Hr]].
Qed.

Lemma no_occurrence_across (old x t : string) :
  contains old x = false ->
  no_overlap old t = true ->
  forall x1 x2, x = x1 ++ x2 -> x2 <> "" -> starts_with old (x2 ++ t) = false.
Proof.
  intros Hfree Hover x1 x2 -> Hne.
  destruct (starts_with old (x2 ++ t)) eqn:E; [exfalso | reflexivity].
  destruct (starts_with_app_cases _ _ _ E) as [Hin | [Hlen Hrun]].
  - apply starts_with_contains, (contains_app_r _ x1) in Hin; congruence.
  - unfold no_overlap in Hover; rewrite forallb_forall in Hover.
    assert (Hk : In (String.length x2) (seq 1 (String.length old - 1))).
    { apply in_seq; destruct x2; [congruence | simpl in *; lia]. }
    apply Hover in Hk; rewrite Hrun in Hk; discriminate.
Qed.

(** [replace] passes over a stretch of text in which no occurrence of [old]
    starts. *)
Lemma replace_go_passes (old new x t : string) :
  (forall x1 x2, x = x1 ++ x2 -> x2 <> "" -> starts_with old (x2 ++ t) = false) ->
  replace_go old new 0 (x ++ t) = x ++ replace_go old new 0 t.
Proof.
  induction x as [|c x IH]; intros H; [reflexivity|].
  simpl. change (String c (x ++ t)) with (String c x ++ t).
  rewrite (H "" (String c x) eq_refl) by discriminate.
  rewrite IH; [reflexivity|].
  intros x1 x2 -> Hne; apply (H (String c x1) x2); [reflexivity | exact Hne].
Qed.

Lemma replace_go_marker_free (old new x t : string) :
  contains old x = false ->
  no_overlap old t = true ->
  replace_go old new 0 (x ++ t) = x ++ replace_go old new 0 t.
Proof.
  intros Hfree Hover; apply replace_go_passes.
  now apply no_occurrence_across.
Qed.

(** [split] finds a separator only where the text contains it. *)
Lemma split_go_absent (sep s : string) :
  contains sep s = false -> split_go sep 0 s = (s, []).
Proof.
  induction s as [|c s IH]; simpl; intros H; [reflexivity|].
  apply orb_false_iff in H as [H1 H2].
  cbn in H1; rewrite H1, (IH H2); reflexivity.
Qed.

End PyStrFacts.

(** ** Question formatter: format, then prune *)

Module FormatFacts.
Import PyStr Format PyStrFacts.
Local Open Scope string_scope.

(** Reduce [replace_go] over the literal parts of a formatted prompt. *)
Ltac run_replace :=
  cbn [replace_go starts_with String.append Ascii.eqb Bool.eqb String.length
       Nat.sub].

(** Carry the innermost pending [replace_go] over the question [Q], which
    holds no occurrence of its marker. *)
Ltac pass_question H :=
  rewrite (replace_go_marker_free _ "" _ _ H) by reflexivity; run_replace.

Lemma prune_format_llama (Q : string) :
  (forall mk, In mk (markers Llama) -> contains mk Q = false) ->
  _prune_for_llama (_format_Q_llama Q) = " " ++ Q.
Proof.
  intros H.
  assert (H1 : contains "<|eot_id|>" Q = false) by (apply H; simpl; tauto).
  assert (H2 : contains "<|start_header_id|>assistant<|end_header_id|>" Q = false)
    by (apply H; simpl; tauto).
  assert (H3 : contains "<|start_header_id|>user<|end_header_id|>" Q = false)
    by (apply H; simpl; tauto).
  assert (H4 : contains "<|end_of_text|>" Q = false) by (apply H; simpl; tauto).
  unfold _prune_for_llama, _format_Q_llama, replace.
  run_replace. f_equal.
  pass_question H1. pass_question H2. pass_question H3. pass_question H4.
  apply append_nil_r.
Qed.

Lemma prune_format_phi3 (Q : string) :
  (forall mk, In mk (markers Phi3) -> contains mk Q = false) ->
  _prune_for_phi3 (_format_Q_phi3 Q) = newline ++ Q ++ newline ++ newline.
Proof.
  intros H.
  assert (H1 : contains "<|end|>" Q = false) by (apply H; simpl; tauto).
  assert (H2 : contains "<|assistant|>" Q = false) by (apply H; simpl; tauto).
  assert (H3 : contains "<|user|>" Q = false) by (apply H; simpl; tauto).
  unfold _prune_for_phi3, _format_Q_phi3, replace, newline.
  run_replace. f_equal.
  pass_question H1. pass_question H2. pass_question H3.
  reflexivity.
Qed.

(** C9, amended: for both families and every question that holds none of
    the control markers the family's pruning deletes, formatting and then
    pruning leaves exactly the question between the family's residual white
    space, so the question is a substring of the result and nothing of it is
    removed. *)
Theorem prune_format_round_trip (m : family) (Q : string) :
  (forall mk, In mk (markers m) -> contains mk Q = false) ->
  model_prune_format_mapping m (model_question_format_mapping m Q)
  = residue_before m ++ Q ++ residue_after m
  /\ contains Q (model_prune_format_mapping m (model_question_format_mapping m Q)) = true.
Proof.
  intros H.
  assert (E : model_prune_format_mapping m (model_question_format_mapping m Q)
              = residue_before m ++ Q ++ residue_after m).
  { destruct m; simpl.
    - rewrite (prune_format_llama Q H); simpl; now rewrite append_nil_r.
    - exact (prune_format_phi3 Q H). }
  split; [exact E|].
  rewrite E; apply contains_iff.
  now exists (residue_before m), (residue_after m).
Qed.

(** The round trip on an ordinary question, for both families. *)
Lemma prune_format_round_trip_witness :
  model_prune_format_mapping Llama
    (model_question_format_mapping Llama "What is the purpose of KBLaM?")
  = " What is the purpose of KBLaM?"
  /\ contains "What is the purpose of KBLaM?"
       (model_prune_format_mapping Phi3
          (model_question_format_mapping Phi3 "What is the purpose of KBLaM?"))
     = true.
Proof.
  split.
  - refine (proj1 (prune_format_round_trip Llama "What is the purpose of KBLaM?" _)).
    intros mk Hmk; simpl in Hmk.
    repeat (destruct Hmk as [<- | Hmk]; [vm_compute; reflexivity|]); contradiction.
  - refine (proj2 (prune_format_round_trip Phi3 "What is the purpose of KBLaM?" _)).
    intros mk Hmk; simpl in Hmk.
    repeat (destruct Hmk as [<- | Hmk]; [vm_compute; reflexivity|]); contradiction.
Defined.

(** C9 as stated fails: a question that is itself a control marker is
    deleted by the pruning, for either family. *)
Lemma prune_format_loses_marker_question :
  _prune_for_llama (_format_Q_llama "<|eot_id|>") = " "
  /\ contains "<|eot_id|>" (_prune_for_llama (_format_Q_llama "<|eot_id|>")) = false
  /\ contains "<|end|>" (_prune_for_phi3 (_format_Q_phi3 "<|end|>")) = false.
Proof. repeat split; vm_compute; reflexivity. Qed.

End FormatFacts.

(** ** The stand-in collaborators obey the laws *)

Module ToyFacts.
Import Collaborators Accuracy Toy.

Lemma toy_rng_laws : RngLaws toy_rng.
Proof.
  split; simpl.
  - intros st high size. now rewrite length_map, length_seq.
  - intros st high size Hpos. apply Forall_forall. intros x Hx.
    apply in_map_iff in Hx as [i [<- _]]. apply Nat.mod_upper_bound; lia.
  - intros st l. apply Permutation_sym, Permutation_rev.
Qed.

End ToyFacts.

(** ** Generation driver: what reaches [model.generate] *)

Module DriverFacts.
Import PyStr Format Collaborators Driver.

Section DriverFacts.
Context {C : Collab} {R : Rng}.

Lemma answer_question_unfold (model : family) (Q : string) (kb : option kb_embd)
  (kb_layer_frequency : Z) (topk_size kb_scale_factor : option Z) (w : world) :
  answer_question model Q kb kb_layer_frequency topk_size kb_scale_factor w
  = (match model_generate (issued_call model Q kb) with
     | Ok outputs => Ok (model_prune_format_mapping model (tokenizer_decode outputs))
     | Raise e => Raise e
     end,
     World C R (w_rng w) (issued_call model Q kb :: w_calls w)).
Proof.
  unfold answer_question, issued_call, bind, generate, ret.
  destruct (tokenizer_call [model_question_format_mapping model Q]) as [ids mask].
  simpl. destruct (model_generate _); reflexivity.
Qed.

(** C3: the call issued by [answer_question] is the same whatever
    [topk_size] and [kb_scale_factor] are, and it carries no keyword for the
    dynamic-sparsification flag, the top-k size or the scale factor: the
    flag computed from [topk_size] and the sentinel handling of
    [kb_scale_factor] never reach [model.generate]. *)
Theorem answer_question_drops_topk_and_scale
  (model : family) (Q : string) (kb : option kb_embd) (kb_layer_frequency : Z)
  (topk_size kb_scale_factor topk_size' kb_scale_factor' : option Z) (w : world) :
  answer_question model Q kb kb_layer_frequency topk_size kb_scale_factor w
  = answer_question model Q kb kb_layer_frequency topk_size' kb_scale_factor' w
  /\ w_calls (snd (answer_question model Q kb kb_layer_frequency topk_size
                     kb_scale_factor w))
     = issued_call model Q kb :: w_calls w
  /\ kwarg "dynamic_sparsify" (issued_call model Q kb) = None
  /\ kwarg "topk_size" (issued_call model Q kb) = None
  /\ kwarg "kb_scale_factor" (issued_call model Q kb) = None.
Proof.
  rewrite !answer_question_unfold. repeat split; reflexivity.
Qed.

(** Every call of [answer_question] issues exactly one call of
    [model.generate] and leaves the random state alone. *)
Lemma answer_question_world (model : family) (Q : string) (kb : option kb_embd)
  (kb_layer_frequency : Z) (topk_size kb_scale_factor : option Z) (w : world) :
  w_rng (snd (answer_question model Q kb kb_layer_frequency topk_size kb_scale_factor w))
  = w_rng w
  /\ List.length (w_calls (snd (answer_question model Q kb kb_layer_frequency
                                  topk_size kb_scale_factor w)))
     = S (List.length (w_calls w)).
Proof. rewrite answer_question_unfold; split; reflexivity. Qed.

End DriverFacts.

End DriverFacts.

(** ** The answer patterns *)

Module RegexFacts.
Import PyStr Regex PyStrFacts.
Local Open Scope string_scope.

Section Extensionality.
(** A property of the remaining input that is kept when characters are
    consumed. *)
Variable P : string -> Prop.
Hypothesis P_tail : forall c s, P (String c s) -> P s.
Variable X : Type.

Lemma P_drop (n : nat) (s : string) : P s -> P (drop n s).
Proof.
  revert s; induction n as [|n IH]; intros s H; [exact H|].
  destruct s as [|c s]; [exact H | apply IH, (P_tail c), H].
Qed.

Lemma star_greedy_ext (p : ascii -> bool) (s : string) (k1 k2 : string -> option X) :
  P s -> (forall s', P s' -> k1 s' = k2 s') ->
  star_greedy p s k1 = star_greedy p s k2.
Proof.
  intros Hs Hk; induction s as [|c s IH]; simpl; [now apply Hk|].
  rewrite (IH (P_tail _ _ Hs)), (Hk _ Hs); reflexivity.
Qed.

Lemma star_lazy_ext (p : ascii -> bool) (s : string) (k1 k2 : string -> option X) :
  P s -> (forall s', P s' -> k1 s' = k2 s') ->
  star_lazy p s k1 = star_lazy p s k2.
Proof.
  intros Hs Hk; induction s as [|c s IH]; simpl; rewrite (Hk _ Hs); [reflexivity|].
  rewrite (IH (P_tail _ _ Hs)); reflexivity.
Qed.

(** The matcher calls its continuation on what is left of the input only:
    two continuations that agree there give the same result. *)
Lemma run_ext (r : regex) :
  forall (s : string) (cap : option string)
         (k1 k2 : string -> option string -> option X),
    P s -> (forall s' c, P s' -> k1 s' c = k2 s' c) ->
    run r s cap k1 = run r s cap k2.
Proof.
  induction r as [lit | p | r1 IH1 r2 IH2 | r1 IH1 r2 IH2 | p | p | r1 IH1];
    intros s cap k1 k2 Hs Hk; simpl.
  - destruct (starts_with lit s); [apply Hk, P_drop, Hs | reflexivity].
  - destruct s as [|c s]; [reflexivity|].
    destruct (p c); [apply Hk, (P_tail c), Hs | reflexivity].
  - apply IH1; [exact Hs|]. intros s' c Hs'. apply IH2; assumption.
  - rewrite (IH1 s cap k1 k2 Hs Hk), (IH2 s cap k1 k2 Hs Hk); reflexivity.
  - unfold plus_greedy. destruct s as [|c s]; [reflexivity|].
    destruct (p c); [|reflexivity].
    apply star_greedy_ext; [apply (P_tail c), Hs | intros; now apply Hk].
  - apply star_lazy_ext; [exact Hs | intros; now apply Hk].
  - apply IH1; [exact Hs|]. intros s' c Hs'. now apply Hk.
Qed.

(** Replacing the tail of a sequence by a pattern with the same matches. *)
Lemma run_cat_ext (r1 r2 r2' : regex) :
  (forall s cap (k : string -> option string -> option X),
      P s -> run r2 s cap k = run r2' s cap k) ->
  forall s cap (k : string -> option string -> option X),
    P s -> run (Cat r1 r2) s cap k = run (Cat r1 r2') s cap k.
Proof.
  intros H s cap k Hs. cbn [run].
  apply run_ext; [exact Hs|]. intros s' c Hs'. now apply H.
Qed.

End Extensionality.

(** On a text without a full stop the terminator [(?:\.|;)] matches exactly
    where [;] does. *)
Lemma terminator_without_dot (X : Type) (s : string) (cap : option string)
  (k : string -> option string -> option X) :
  contains "." s = false ->
  run (Alt (chr ".") (chr ";")) s cap k = run (chr ";") s cap k.
Proof.
  intros H. destruct s as [|c s]; [reflexivity|].
  cbn [contains starts_with] in H. apply orb_false_iff in H as [H _].
  unfold chr; cbn [run].
  destruct (Ascii.eqb "." c); [discriminate | reflexivity].
Qed.

Lemma contains_tail (sub : string) (c : ascii) (s : string) :
  contains sub (String c s) = false -> contains sub s = false.
Proof.
  cbn [contains]; intros H; now apply orb_false_iff in H as [_ H].
Qed.

Lemma match_here_without_dot (s : string) :
  contains "." s = false ->
  match_here pattern_multi_prediction s = match_here pattern_multi_reference s.
Proof.
  intros H. unfold match_here, pattern_multi_prediction, pattern_multi_reference.
  cbn [seq_of].
  revert H; generalize (@None string); revert s.
  generalize (fun (rest : string) (cap : option string) => Some (cap, rest)).
  intros k s cap H; revert s cap k H.
  do 3 (apply (run_cat_ext _ (contains_tail ".")); intros s cap k H;
        revert s cap k H).
  intros s cap k H. now apply terminator_without_dot.
Qed.

Lemma findall_go_without_dot (s : string) :
  contains "." s = false ->
  forall skip,
    findall_go pattern_multi_prediction skip s
    = findall_go pattern_multi_reference skip s.
Proof.
  induction s as [|c s IH]; intros H skip.
  - reflexivity.
  - cbn [findall_go]. destruct skip as [|k].
    + rewrite (match_here_without_dot _ H).
      destruct (match_here pattern_multi_reference (String c s)) as [[cap rest]|];
        rewrite (IH (contains_tail _ _ _ H)); reflexivity.
    + apply IH, (contains_tail _ _ _ H).
Qed.

(** The two multi-entity patterns find the same answers in a text that has
    no full stop. *)
Lemma findall_without_dot (s : string) :
  contains "." s = false ->
  findall pattern_multi_prediction s = findall pattern_multi_reference s.
Proof. intros H; now apply findall_go_without_dot. Qed.

End RegexFacts.

(** ** Monadic plumbing *)

Module MonadFacts.
Import Collaborators Py.

Section MonadFacts.
Context {C : Collab} {R : Rng}.

Lemma bind_ok_inv {A B : Type} (m : M A) (f : A -> M B) (w w' : world) (b : B) :
  bind m f w = (Ok b, w') ->
  exists a w1, m w = (Ok a, w1) /\ f a w1 = (Ok b, w').
Proof.
  unfold bind. destruct (m w) as [[a|e] w1]; intros H; [|discriminate].
  now exists a, w1.
Qed.

Lemma lift_ok_inv {A : Type} (r : result A) (w w' : world) (a : A) :
  lift r w = (Ok a, w') -> r = Ok a /\ w' = w.
Proof. unfold lift; intros H; injection H as -> ->; now split. Qed.

Lemma ret_ok_inv {A : Type} (x a : A) (w w' : world) :
  ret x w = (Ok a, w') -> a = x /\ w' = w.
Proof. unfold ret; intros H; injection H as -> ->; now split. Qed.

Lemma randint_ok_inv (high size : nat) (w w' : world) (xs : list nat) :
  randint high size w = (Ok xs, w') ->
  (0 < high \/ size = 0)
  /\ xs = fst (np_random_randint (w_rng w) high size)
  /\ w_calls w' = w_calls w.
Proof.
  unfold randint.
  destruct (Nat.eqb_spec high 0) as [->|Hne], (Nat.eqb_spec size 0) as [->|Hs];
    cbn [andb negb]; try discriminate;
    destruct (np_random_randint (w_rng w) _ _) as [ys st];
    intros H; injection H as -> <-; repeat split; simpl; lia.
Qed.

Lemma shuffle_ok_inv (xs ys : list nat) (w w' : world) :
  shuffle xs w = (Ok ys, w') ->
  ys = fst (np_random_shuffle (w_rng w) xs) /\ w_calls w' = w_calls w.
Proof.
  unfold shuffle. destruct (np_random_shuffle (w_rng w) xs) as [zs st].
  intros H; injection H as -> <-; now split.
Qed.

Lemma seed_rng_ok_inv (seed : Z) (w w' : world) (u : unit) :
  seed_rng seed w = (Ok u, w') ->
  w_rng w' = np_random_seed seed /\ w_calls w' = w_calls w.
Proof.
  unfold seed_rng. destruct ((0 <=? seed) && (seed <? 2 ^ 32))%Z; [|discriminate].
  intros H; injection H as _ <-; now split.
Qed.

End MonadFacts.

Lemma rbind_ok_inv {A B : Type} (r : result A) (f : A -> result B) (b : B) :
  rbind r f = Ok b -> exists a, r = Ok a /\ f a = Ok b.
Proof. destruct r as [a|e]; simpl; intros H; [now exists a | discriminate]. Qed.

Lemma mapM_length {A B : Type} (f : A -> result B) (xs : list A) (ys : list B) :
  mapM f xs = Ok ys -> List.length ys = List.length xs.
Proof.
  revert ys; induction xs as [|x xs IH]; simpl; intros ys H.
  - injection H as <-; reflexivity.
  - apply rbind_ok_inv in H as [y [_ H]].
    apply rbind_ok_inv in H as [ys' [Hys H]].
    injection H as <-; simpl; now rewrite (IH _ Hys).
Qed.

Lemma mapM_ok_forall {A B : Type} (f : A -> result B) (xs : list A) :
  (forall x, In x xs -> exists y, f x = Ok y) ->
  exists ys, mapM f xs = Ok ys.
Proof.
  induction xs as [|x xs IH]; intros H; simpl; [now exists []|].
  destruct (H x (or_introl eq_refl)) as [y ->].
  destruct IH as [ys ->]; [intros; apply H; now right|].
  now exists (y :: ys).
Qed.

Lemma mapM_nth {A B : Type} (f : A -> result B) (xs : list A) (ys : list B) :
  mapM f xs = Ok ys ->
  forall i x, nth_error xs i = Some x ->
              exists y, nth_error ys i = Some y /\ f x = Ok y.
Proof.
  revert ys; induction xs as [|x0 xs IH]; simpl; intros ys H i x Hi.
  - destruct i; discriminate.
  - apply rbind_ok_inv in H as [y [Hy H]].
    apply rbind_ok_inv in H as [ys' [Hys H]].
    injection H as <-. destruct i as [|i]; simpl in *.
    + injection Hi as <-; now exists y.
    + eapply IH; eauto.
Qed.

End MonadFacts.

(** ** Answer extraction and the generation loop *)

Module GenerationFacts.
Import PyStr Format Regex Collaborators Driver Py Generation.
Import PyStrFacts RegexFacts DriverFacts MonadFacts.

(** The text does not hold the separator: [split] returns the text alone
    and there is no piece at index 1. *)
Lemma split_Q_1_absent (output Q : string) :
  contains Q output = false -> split_Q_1 output Q = Raise IndexError.
Proof.
  intros H. unfold split_Q_1, split.
  destruct Q as [|c Q].
  - destruct output; discriminate.
  - rewrite (split_go_absent _ _ H); reflexivity.
Qed.






(** C8, amended: in a multi-entity trial the prediction is the list of
    matches of [(?:is|are) (.*?)(?:\.|;)] joined with a semicolon and a
    space, the reference the list of matches of [(?:is|are) (.*?);] joined
    with a semicolon alone.  The two patterns find the same matches in every
    text without a full stop. *)
Theorem multi_entity_normalization (multi_entites : Z) (remove_sorry : bool)
  (acc : outputs) (row : KBEntry) (answer model_output : string) :
  (multi_entites =? -1)%Z = false ->
  remove_sorry && contains "sorry" model_output = false ->
  model_outputs (record_output multi_entites remove_sorry acc row answer model_output)
  = model_outputs acc
    ++ [join "; " (findall pattern_multi_prediction model_output)]
  /\ answers (record_output multi_entites remove_sorry acc row answer model_output)
     = answers acc ++ [join ";" (findall pattern_multi_reference answer)]
  /\ (forall text, contains "." text = false ->
                   findall pattern_multi_prediction text
                   = findall pattern_multi_reference text).
Proof.
  intros Hmulti Hkeep. unfold record_output. rewrite Hkeep, Hmulti.
  repeat split. intros text; apply findall_without_dot.
Qed.

(** The spec's two-entity example, as generated text and as ground truth. *)
Lemma multi_entity_normalization_witness :
  model_outputs
    (record_output 2 false no_outputs (Toy.toy_row 0)
       "The color of A is red; The color of B is blue;"
       "The color of A is red; The color of B is blue;")
  = ["red; blue"]
  /\ answers
       (record_output 2 false no_outputs (Toy.toy_row 0)
          "The color of A is red; The color of B is blue;"
          "The color of A is red; The color of B is blue;")
     = ["red;blue"].
Proof.
  pose proof (multi_entity_normalization 2 false no_outputs (Toy.toy_row 0)
                "The color of A is red; The color of B is blue;"
                "The color of A is red; The color of B is blue;"
                eq_refl eq_refl) as [H1 [H2 _]].
  split; [rewrite H1 | rewrite H2]; vm_compute; reflexivity.
Defined.

(** C8 as stated fails: applied to one and the same text, the two
    normalizations give different strings, and a text whose answers end in
    full stops loses all of them on the reference side. *)
Lemma multi_entity_normalizations_differ :
  join "; " (findall pattern_multi_prediction
               "The color of A is red; The color of B is blue;") = "red; blue"
  /\ join ";" (findall pattern_multi_reference
                 "The color of A is red; The color of B is blue;") = "red;blue"
  /\ findall pattern_multi_prediction
       "The color of A is red. The color of B is blue." = ["red"; "blue"]
  /\ findall pattern_multi_reference
       "The color of A is red. The color of B is blue." = [].
Proof. repeat split; vm_compute; reflexivity. Qed.

Section GenerationFacts.
Context {C : Collab} {R : Rng}.

(** Each regime issues one call and extracts the answer from its pruned
    text. *)
Lemma generate_output_unfold (model : family) (mode : eval_mode)
  (kb_layer_frequency : Z) (topk_size kb_scale_factor : option Z)
  (multi_entites : Z) (kb_embedding : kb_embd) (prompt_strs Q : string) (w : world) :
  generate_output model mode kb_layer_frequency topk_size kb_scale_factor
    multi_entites kb_embedding prompt_strs Q w
  = (match model_generate
             (regime_call model mode multi_entites kb_embedding prompt_strs Q) with
     | Ok outputs =>
         split_Q_1 (model_prune_format_mapping model (tokenizer_decode outputs)) Q
     | Raise e => Raise e
     end,
     World C R (w_rng w)
       (regime_call model mode multi_entites kb_embedding prompt_strs Q :: w_calls w)).
Proof.
  destruct mode; unfold generate_output, regime_call, bind;
    rewrite answer_question_unfold; destruct (model_generate _); reflexivity.
Qed.

(** A miss aborts the row, under every regime: the loop body raises
    [IndexError]. *)
Lemma eval_row_raises_on_miss (model : family) (mode : eval_mode)
  (kb_layer_frequency : Z) (topk_size kb_scale_factor : option Z)
  (remove_sorry : bool) (test_kb : list KBEntry) (kb_embedding : kb_embd)
  (prompt_strs : string) (acc : outputs) (row : KBEntry) (w : world)
  (outputs : tensor) :
  model_generate (regime_call model mode (-1) kb_embedding prompt_strs (kb_Q row))
  = Ok outputs ->
  contains (kb_Q row) (model_prune_format_mapping model (tokenizer_decode outputs))
  = false ->
  fst (eval_row model mode kb_layer_frequency topk_size kb_scale_factor (-1)
         remove_sorry test_kb kb_embedding prompt_strs acc row w)
  = Raise IndexError.
Proof.
  intros Hgen Hmiss. unfold eval_row, question_of, bind, ret.
  change (-1 =? -1)%Z with true; cbv beta iota.
  rewrite generate_output_unfold, Hgen, (split_Q_1_absent _ _ Hmiss).
  reflexivity.
Qed.

(** What [record_output] does to the three lists. *)
Lemma record_output_lengths (multi_entites : Z) (remove_sorry : bool)
  (acc : outputs) (row : KBEntry) (answer model_output : string) :
  let acc' := record_output multi_entites remove_sorry acc row answer model_output in
  List.length (model_outputs acc') <= S (List.length (model_outputs acc))
  /\ (List.length (answers acc) = List.length (model_outputs acc) ->
      List.length (answers acc') = List.length (model_outputs acc'))
  /\ (remove_sorry = false ->
      List.length (model_outputs acc') = S (List.length (model_outputs acc)))
  /\ (remove_sorry = false -> multi_entites = (-1)%Z ->
      answers acc' = answers acc ++ [kb_description row]).
Proof.
  unfold record_output.
  destruct (remove_sorry && contains "sorry" model_output) eqn:E.
  - repeat split.
    + lia.
    + trivial.
    + intros ->; discriminate.
    + intros ->; discriminate.
  - destruct (multi_entites =? -1)%Z eqn:Em; simpl;
      rewrite ?length_app; simpl; repeat split; intros;
      try lia; try reflexivity.
    all: apply Z.eqb_neq in Em; congruence.
Qed.

(** A row that completes has issued exactly one call of [model.generate]
    and recorded its output. *)
Lemma eval_row_ok (model : family) (mode : eval_mode) (kb_layer_frequency : Z)
  (topk_size kb_scale_factor : option Z) (multi_entites : Z) (remove_sorry : bool)
  (test_kb : list KBEntry) (kb_embedding : kb_embd) (prompt_strs : string)
  (acc acc' : outputs) (row : KBEntry) (w w' : world) :
  eval_row model mode kb_layer_frequency topk_size kb_scale_factor multi_entites
    remove_sorry test_kb kb_embedding prompt_strs acc row w = (Ok acc', w') ->
  List.length (w_calls w') = S (List.length (w_calls w))
  /\ exists answer model_output,
      acc' = record_output multi_entites remove_sorry acc row answer model_output.
Proof.
  unfold eval_row. intros H.
  apply bind_ok_inv in H as [[Q answer] [w1 [Hq H]]].
  apply bind_ok_inv in H as [out [w2 [Hg H]]].
  apply ret_ok_inv in H as [-> ->].
  assert (Hc1 : w_calls w1 = w_calls w).
  { unfold question_of in Hq.
    destruct (multi_entites =? -1)%Z.
    - now apply ret_ok_inv in Hq as [_ ->].
    - destruct (multi_entites <? 0)%Z; [discriminate|].
      apply bind_ok_inv in Hq as [idx [w3 [Hr Hq]]].
      apply randint_ok_inv in Hr as [_ [_ Hr]].
      apply bind_ok_inv in Hq as [rows [w4 [Hl Hq]]].
      apply lift_ok_inv in Hl as [_ ->].
      now apply ret_ok_inv in Hq as [_ ->]. }
  rewrite generate_output_unfold in Hg. injection Hg as _ <-.
  split; [simpl; now rewrite Hc1 | now exists answer, out].
Qed.

(** The loop over [rows]: one call per row, at most one scored answer per
    row, and exactly one when no output is filtered. *)
Lemma eval_rows_ok (model : family) (mode : eval_mode) (kb_layer_frequency : Z)
  (topk_size kb_scale_factor : option Z) (multi_entites : Z) (remove_sorry : bool)
  (test_kb : list KBEntry) (kb_embedding : kb_embd) (prompt_strs : string)
  (rows : list KBEntry) :
  forall (acc acc' : outputs) (w w' : world),
    for_each
      (eval_row model mode kb_layer_frequency topk_size kb_scale_factor
         multi_entites remove_sorry test_kb kb_embedding prompt_strs)
      rows acc w = (Ok acc', w') ->
    List.length (w_calls w') = List.length (w_calls w) + List.length rows
    /\ List.length (model_outputs acc')
       <= List.length (model_outputs acc) + List.length rows
    /\ (List.length (answers acc) = List.length (model_outputs acc) ->
        List.length (answers acc') = List.length (model_outputs acc'))
    /\ (remove_sorry = false ->
        List.length (model_outputs acc')
        = List.length (model_outputs acc) + List.length rows)
    /\ (remove_sorry = false -> multi_entites = (-1)%Z ->
        answers acc' = answers acc ++ map kb_description rows).
Proof.
  induction rows as [|row rows IH]; intros acc acc' w w' H; cbn [for_each] in H.
  - apply ret_ok_inv in H as [-> ->]. simpl.
    rewrite !Nat.add_0_r, app_nil_r. repeat split; trivial.
  - apply bind_ok_inv in H as [acc1 [w1 [Hrow H]]].
    apply eval_row_ok in Hrow as [Hcalls [answer [out ->]]].
    apply IH in H as [H1 [H2 [H3 [H4 H5]]]].
    pose proof (record_output_lengths multi_entites remove_sorry acc row answer out)
      as [L1 [L2 [L3 L4]]].
    simpl. repeat split.
    + lia.
    + lia.
    + intros E; apply H3, L2, E.
    + intros E; rewrite (H4 E), (L3 E); lia.
    + intros E Em; rewrite (H5 E Em), (L4 E Em), <- app_assoc; reflexivity.
Qed.

Context {L : RngLaws R}.

(** C10, amended: a run of [perform_eval] that completes has generated an
    answer for exactly [min(400, kb_size)] questions, one call of
    [model.generate] each.  It scores one answer per question when
    [remove_sorry] is off, and at most one otherwise; with [remove_sorry] off
    and single-entity questions, the references are the descriptions of the
    first [min(400, kb_size)] sampled rows, in order. *)
Theorem perform_eval_question_cap (model : family) (dataset : list KBEntry)
  (mode : eval_mode) (kb_layer_frequency : Z) (kb_size : nat) (seed : Z)
  (topk_size kb_scale_factor : option Z) (multi_entites : Z) (remove_sorry : bool)
  (w w' : world) (acc : outputs) :
  perform_eval_rows model dataset mode kb_layer_frequency kb_size seed topk_size
    kb_scale_factor multi_entites remove_sorry w = (Ok acc, w') ->
  List.length (w_calls w') = List.length (w_calls w) + Nat.min 400 kb_size
  /\ List.length (model_outputs acc) <= Nat.min 400 kb_size
  /\ List.length (answers acc) = List.length (model_outputs acc)
  /\ (remove_sorry = false -> List.length (model_outputs acc) = Nat.min 400 kb_size)
  /\ (remove_sorry = false -> multi_entites = (-1)%Z ->
      exists test_kb,
        mapM (getitem dataset)
          (fst (np_random_randint (np_random_seed seed) (List.length dataset) kb_size))
        = Ok test_kb
        /\ answers acc = map kb_description (firstn (Nat.min 400 kb_size) test_kb)).
Proof.
  unfold perform_eval_rows. intros H.
  apply bind_ok_inv in H as [u [w1 [Hseed H]]].
  apply seed_rng_ok_inv in Hseed as [Hrng Hc1].
  apply bind_ok_inv in H as [kb_idx [w2 [Hidx H]]].
  apply randint_ok_inv in Hidx as [Hpos [Hidx Hc2]].
  apply bind_ok_inv in H as [test_kb [w3 [Hkb H]]].
  apply lift_ok_inv in Hkb as [Hkb ->].
  assert (Hlen : List.length test_kb = kb_size).
  { rewrite (mapM_length _ _ _ Hkb), Hidx. apply randint_length. }
  rewrite Hlen in H.
  apply eval_rows_ok in H as [H1 [H2 [H3 [H4 H5]]]].
  assert (Hfirst : List.length (firstn (Nat.min 400 kb_size) test_kb)
                   = Nat.min 400 kb_size).
  { rewrite length_firstn; lia. }
  rewrite Hfirst in *. simpl in *.
  repeat split.
  - rewrite H1; congruence.
  - exact H2.
  - now apply H3.
  - exact H4.
  - intros E Em. exists test_kb. split; [|now apply H5].
    rewrite <- Hkb, Hidx, Hrng; reflexivity.
Qed.

End GenerationFacts.

(** A KB of 401 rows: 400 questions are asked and scored. *)
Lemma perform_eval_question_cap_witness :
  List.length
    (w_calls (snd (Toy.generation_run 401 " The purpose of it is 42<|eot_id|>"
                     true false)))
  = 0 + Nat.min 400 401
  /\ List.length
       (model_outputs
          (match fst (Toy.generation_run 401 " The purpose of it is 42<|eot_id|>"
                        true false) with
           | Ok acc => acc
           | Raise _ => no_outputs
           end))
     = Nat.min 400 401.
Proof.
  destruct (Toy.generation_run 401 " The purpose of it is 42<|eot_id|>" true false)
    as [[acc|e] w'] eqn:E.
  - destruct (perform_eval_question_cap (L := ToyFacts.toy_rng_laws)
                _ _ _ _ _ _ _ _ _ _ _ _ _ E) as [H1 [_ [_ [H4 _]]]].
    split; [exact H1 | exact (H4 eq_refl)].
  - exfalso.
    assert (Hok : is_ok (fst (Toy.generation_run 401
                                " The purpose of it is 42<|eot_id|>" true false))
                  = true) by (vm_compute; reflexivity).
    rewrite E in Hok; discriminate.
Defined.

(** C10 as stated fails: with [remove_sorry] on, three answers are
    generated and none is scored. *)
Lemma perform_eval_scores_fewer_with_remove_sorry :
  List.length (w_calls (snd (Toy.generation_run 3 " I am sorry<|eot_id|>" true true)))
  = 3
  /\ fst (Toy.generation_run 3 " I am sorry<|eot_id|>" true true) = Ok no_outputs
  /\ Nat.min 400 3 = 3.
Proof. repeat split; vm_compute; reflexivity. Qed.

(** The trial of C2's counterexample: the model does not repeat the
    question, and the whole run raises. *)
Lemma perform_eval_aborts_on_miss :
  fst (Toy.generation_run 3 "The purpose of it is 42<|eot_id|>" false false)
  = Raise IndexError.
Proof. vm_compute; reflexivity. Qed.

End GenerationFacts.

(** ** Refusal protocol *)

Module RefusalFacts.
Import PyStr Format Collaborators Driver Py Generation Refusal.
Import PyStrFacts DriverFacts MonadFacts.

(** *** Slices, repetitions and the complement *)

Lemma slice_to_firstn {A : Type} (n : Z) (xs : list A) :
  exists m, slice_to n xs = firstn m xs.
Proof. unfold slice_to; destruct (n <? 0)%Z; eauto. Qed.

Lemma slice_to_nonneg {A : Type} (n : Z) (xs : list A) :
  (0 <= n)%Z -> slice_to n xs = firstn (Z.to_nat n) xs.
Proof.
  intros H. unfold slice_to. destruct (Z.ltb_spec n 0); [lia | reflexivity].
Qed.

Lemma firstn_incl_in {A : Type} (m : nat) (xs : list A) (x : A) :
  In x (firstn m xs) -> In x xs.
Proof.
  intros H. rewrite <- (firstn_skipn m xs). apply in_or_app; now left.
Qed.

Lemma firstn_NoDup {A : Type} (m : nat) (xs : list A) :
  NoDup xs -> NoDup (firstn m xs).
Proof.
  intros H. rewrite <- (firstn_skipn m xs) in H.
  now apply NoDup_app_remove_r in H.
Qed.

Lemma complement_of_spec (dataset_len : nat) (kb_idx : list nat) (i : nat) :
  In i (complement_of dataset_len kb_idx) <-> i < dataset_len /\ ~ In i kb_idx.
Proof.
  unfold complement_of. rewrite filter_In, in_seq, negb_true_iff.
  split.
  - intros [Hi Hex]. split; [lia|]. intros Hin.
    assert (E : existsb (Nat.eqb i) kb_idx = true).
    { apply existsb_exists. exists i. split; [exact Hin | apply Nat.eqb_refl]. }
    congruence.
  - intros [Hi Hnot]. split; [lia|].
    destruct (existsb (Nat.eqb i) kb_idx) eqn:E; [|reflexivity].
    apply existsb_exists in E as [j [Hj Hij]].
    apply Nat.eqb_eq in Hij; subst j. contradiction.
Qed.

Lemma complement_of_NoDup (dataset_len : nat) (kb_idx : list nat) :
  NoDup (complement_of dataset_len kb_idx).
Proof. unfold complement_of. apply NoDup_filter, seq_NoDup. Qed.

Lemma times_nth {A : Type} (a b : A) (n m : Z) (i : nat) (x : A) :
  nth_error (times a n ++ times b m) i = Some x ->
  x = if (Z.of_nat i <? n)%Z then a else b.
Proof.
  unfold times. intros H.
  destruct (Z.ltb_spec (Z.of_nat i) n) as [Hlt|Hge].
  - rewrite nth_error_app1 in H by (rewrite repeat_length; lia).
    apply nth_error_In, repeat_spec in H. exact H.
  - rewrite nth_error_app2 in H by (rewrite repeat_length; lia).
    apply nth_error_In, repeat_spec in H. exact H.
Qed.

(** The default trial: 100 questions, one fifth of them outliers. *)
Lemma default_change_point :
  change_point 100 0.2%float = Ok 80%Z
  /\ outlier_count 100 0.2%float = Ok 20%Z
  /\ true_label 100 0.2%float = Ok (repeat 0%Z 80 ++ repeat 1%Z 20).
Proof. repeat split; vm_compute; reflexivity. Qed.

(** The marker is searched as it is written: a capitalised apology is not a
    refusal. *)
Lemma prediction_is_case_sensitive :
  prediction ["I am sorry I cannot find it"; "Sorry, no idea"; "task1"]
  = [1%Z; 0%Z; 0%Z].
Proof. vm_compute; reflexivity. Qed.

Section RefusalFacts.
Context {C : Collab} {R : Rng}.

(** The steps of the sampler, read off a run that completed. *)
Lemma sample_with_outliers_ok (dataset : list KBEntry) (kb_size : nat) (seed : Z)
  (outlier_ratio : float) (question_size : nat) (w w' : world)
  (kb_idx outlier_idx : list nat) (test_kb questions : list KBEntry) (cp : Z) :
  sample_with_outliers dataset kb_size seed outlier_ratio question_size w
  = (Ok (kb_idx, outlier_idx, test_kb, questions, cp), w') ->
  exists (st : rng_state) (n : Z) (outliers : list KBEntry),
    kb_idx = fst (np_random_randint (np_random_seed seed) (List.length dataset) kb_size)
    /\ mapM (getitem dataset) kb_idx = Ok test_kb
    /\ outlier_count (Nat.min kb_size question_size) outlier_ratio = Ok n
    /\ outlier_idx
       = slice_to n (fst (np_random_shuffle st
                            (complement_of (List.length dataset) kb_idx)))
    /\ change_point (Nat.min kb_size question_size) outlier_ratio = Ok cp
    /\ mapM (getitem dataset) outlier_idx = Ok outliers
    /\ questions = slice_to cp test_kb ++ outliers
    /\ w_calls w' = w_calls w.
Proof.
  unfold sample_with_outliers. intros H.
  apply bind_ok_inv in H as [u [w1 [Hseed H]]].
  apply seed_rng_ok_inv in Hseed as [Hrng Hc1].
  apply bind_ok_inv in H as [idx [w2 [Hidx H]]].
  apply randint_ok_inv in Hidx as [Hpos [Hidx Hc2]].
  apply bind_ok_inv in H as [kbrows [w3 [Hkb H]]].
  apply lift_ok_inv in Hkb as [Hkb ->].
  apply bind_ok_inv in H as [shuffled [w4 [Hsh H]]].
  apply shuffle_ok_inv in Hsh as [Hsh Hc4].
  apply bind_ok_inv in H as [n [w5 [Hn H]]].
  apply lift_ok_inv in Hn as [Hn ->].
  apply bind_ok_inv in H as [cp1 [w6 [Hcp1 H]]].
  apply lift_ok_inv in Hcp1 as [Hcp1 ->].
  apply bind_ok_inv in H as [outliers [w7 [Hout H]]].
  apply lift_ok_inv in Hout as [Hout ->].
  apply bind_ok_inv in H as [cp2 [w8 [Hcp2 H]]].
  apply lift_ok_inv in Hcp2 as [Hcp2 ->].
  apply ret_ok_inv in H as [H ->].
  injection H as -> -> -> -> ->.
  assert (cp1 = cp2) by congruence; subst cp2.
  exists (w_rng w2), n, outliers.
  rewrite Hrng in Hidx. repeat split; try assumption; congruence.
Qed.

(** C4, amended: the change point and the labels are computed from the
    effective question size [min(kb_size, question_size)]: the change point
    is [int(q * (1 - outlier_ratio))], the questions are the first
    [change_point] rows of the active KB followed by the outliers, and the
    labels are [change_point] zeros followed by [int(q * outlier_ratio)]
    ones.  For [question_size = 100], [outlier_ratio = 0.2] and a KB of at
    least 100 rows the change point is 80 and the labels are 80 zeros and 20
    ones. *)
Theorem refusal_labeling (dataset : list KBEntry) (kb_size : nat) (seed : Z)
  (outlier_ratio : float) (question_size : nat) (w w' : world)
  (kb_idx outlier_idx : list nat) (test_kb questions : list KBEntry) (cp : Z) :
  sample_with_outliers dataset kb_size seed outlier_ratio question_size w
  = (Ok (kb_idx, outlier_idx, test_kb, questions, cp), w') ->
  change_point (Nat.min kb_size question_size) outlier_ratio = Ok cp
  /\ (exists (n : Z) (outliers : list KBEntry),
        mapM (getitem dataset) outlier_idx = Ok outliers
        /\ questions = slice_to cp test_kb ++ outliers
        /\ outlier_count (Nat.min kb_size question_size) outlier_ratio = Ok n
        /\ true_label (Nat.min kb_size question_size) outlier_ratio
           = Ok (times 0%Z cp ++ times 1%Z n))
  /\ (question_size = 100 -> 100 <= kb_size -> outlier_ratio = 0.2%float ->
      cp = 80%Z
      /\ true_label (Nat.min kb_size question_size) outlier_ratio
         = Ok (repeat 0%Z 80 ++ repeat 1%Z 20)).
Proof.
  intros H.
  apply sample_with_outliers_ok in H
    as [st [n [outliers [Hidx [Hkb [Hn [Hout [Hcp [Hrows [Hq Hc]]]]]]]]]].
  split; [exact Hcp|]. split.
  - exists n, outliers. repeat split; try assumption.
    unfold true_label. rewrite Hcp, Hn. reflexivity.
  - intros -> Hkbsize ->.
    rewrite Nat.min_r in * by exact Hkbsize.
    destruct default_change_point as [D1 [_ D3]].
    split; [congruence | exact D3].
Qed.

Context {L : RngLaws R}.

(** C5, amended: the outlier indices are the first
    [int(q * outlier_ratio)] entries of a shuffle of the rows outside the
    active KB, where [q = min(kb_size, question_size)]: they are pairwise
    distinct rows of the dataset, none of them in the active KB, and as many
    as the count asks for when the complement holds that many. *)
Theorem outlier_sampling (dataset : list KBEntry) (kb_size : nat) (seed : Z)
  (outlier_ratio : float) (question_size : nat) (w w' : world)
  (kb_idx outlier_idx : list nat) (test_kb questions : list KBEntry) (cp : Z) :
  sample_with_outliers dataset kb_size seed outlier_ratio question_size w
  = (Ok (kb_idx, outlier_idx, test_kb, questions, cp), w') ->
  exists (n : Z) (shuffled : list nat),
    Permutation shuffled (complement_of (List.length dataset) kb_idx)
    /\ outlier_count (Nat.min kb_size question_size) outlier_ratio = Ok n
    /\ outlier_idx = slice_to n shuffled
    /\ NoDup outlier_idx
    /\ (forall i, In i outlier_idx -> i < List.length dataset /\ ~ In i kb_idx)
    /\ ((0 <= n)%Z ->
        List.length outlier_idx
        = Nat.min (Z.to_nat n)
            (List.length (complement_of (List.length dataset) kb_idx))).
Proof.
  intros H.
  apply sample_with_outliers_ok in H
    as [st [n [outliers [Hidx [Hkb [Hn [Hout [Hcp [Hrows [Hq Hc]]]]]]]]]].
  set (shuffled := fst (np_random_shuffle st
                          (complement_of (List.length dataset) kb_idx))) in *.
  assert (Hperm : Permutation shuffled (complement_of (List.length dataset) kb_idx))
    by apply shuffle_perm.
  destruct (slice_to_firstn n shuffled) as [m Hm].
  exists n, shuffled. repeat split; try assumption.
  - rewrite Hout, Hm. apply firstn_NoDup.
    apply (Permutation_NoDup (Permutation_sym Hperm)), complement_of_NoDup.
  - rewrite Hout, Hm in H. apply firstn_incl_in in H.
    apply (Permutation_in _ Hperm), complement_of_spec in H. apply H.
  - rewrite Hout, Hm in H. apply firstn_incl_in in H.
    apply (Permutation_in _ Hperm), complement_of_spec in H. apply H.
  - intros Hpos. rewrite Hout, (slice_to_nonneg _ _ Hpos), length_firstn.
    now rewrite (Permutation_length Hperm).
Qed.

(** Each regime of the refusal protocol issues one call and extracts the
    answer from its pruned text. *)
Lemma refusal_generate_output_unfold (model : family) (mode : eval_mode)
  (kb_layer_frequency : Z) (topk_size kb_scale_factor : option Z)
  (kb_embedding : kb_embd) (prompt_strs Q : string) (w : world) :
  generate_output model mode kb_layer_frequency topk_size kb_scale_factor
    kb_embedding prompt_strs Q w
  = (match model_generate (regime_call model mode kb_embedding prompt_strs Q) with
     | Ok outputs =>
         split_Q_1 (model_prune_format_mapping model (tokenizer_decode outputs)) Q
     | Raise e => Raise e
     end,
     World C R (w_rng w)
       (regime_call model mode kb_embedding prompt_strs Q :: w_calls w)).
Proof.
  destruct mode; unfold generate_output, regime_call, bind;
    rewrite answer_question_unfold; destruct (model_generate _); reflexivity.
Qed.

(** A miss aborts the refusal trial as well. *)
Lemma refusal_row_raises_on_miss (model : family) (mode : eval_mode)
  (kb_layer_frequency : Z) (topk_size kb_scale_factor : option Z)
  (kb_embedding : kb_embd) (prompt_strs : string) (cp : Z)
  (st : nat * list string * list string) (row : KBEntry) (w : world)
  (outputs : tensor) :
  model_generate (regime_call model mode kb_embedding prompt_strs (kb_Q row))
  = Ok outputs ->
  contains (kb_Q row) (model_prune_format_mapping model (tokenizer_decode outputs))
  = false ->
  fst (refusal_row model mode kb_layer_frequency topk_size kb_scale_factor
         kb_embedding prompt_strs cp st row w)
  = Raise IndexError.
Proof.
  intros Hgen Hmiss. destruct st as [[i outs] ans]. unfold refusal_row, bind.
  rewrite refusal_generate_output_unfold, Hgen,
    (GenerationFacts.split_Q_1_absent _ _ Hmiss).
  reflexivity.
Qed.

Lemma answers_for_length (gen : string -> M string) (rows : list KBEntry)
  (w w' : world) (outs : list string) :
  answers_for gen rows w outs w' -> List.length outs = List.length rows.
Proof. induction 1; simpl; congruence. Qed.

(** The loop of lines 329-363 collects the generated texts in order. *)
Lemma refusal_rows_ok (model : family) (mode : eval_mode) (kb_layer_frequency : Z)
  (topk_size kb_scale_factor : option Z) (kb_embedding : kb_embd)
  (prompt_strs : string) (cp : Z) (rows : list KBEntry) :
  forall (i i' : nat) (outs outs' ans ans' : list string) (w w' : world),
    for_each
      (refusal_row model mode kb_layer_frequency topk_size kb_scale_factor
         kb_embedding prompt_strs cp)
      rows (i, outs, ans) w = (Ok (i', outs', ans'), w') ->
    exists new_outs,
      answers_for
        (generate_output model mode kb_layer_frequency topk_size kb_scale_factor
           kb_embedding prompt_strs)
        rows w new_outs w'
      /\ outs' = outs ++ new_outs.
Proof.
  induction rows as [|row rows IH]; intros i i' outs outs' ans ans' w w' H;
    cbn [for_each] in H.
  - apply ret_ok_inv in H as [H ->]. injection H as -> -> ->.
    exists []. split; [constructor | now rewrite app_nil_r].
  - apply bind_ok_inv in H as [[[i1 outs1] ans1] [w1 [Hrow H]]].
    unfold refusal_row in Hrow.
    apply bind_ok_inv in Hrow as [out [w2 [Hgen Hrow]]].
    apply ret_ok_inv in Hrow as [Hrow ->]. injection Hrow as -> -> ->.
    apply IH in H as [new_outs [Hrest ->]].
    exists (out :: new_outs). split.
    + econstructor; eassumption.
    + now rewrite <- app_assoc.
Qed.

(** The steps of a trial, read off a run that returned. *)
Lemma refusal_trial_returned (model : family) (dataset : list KBEntry)
  (mode : eval_mode) (kb_layer_frequency : Z) (kb_size : nat) (seed : Z)
  (outlier_ratio : float) (topk_size : option Z) (question_size : nat)
  (kb_scale_factor : option Z) (w w' : world) (results : string)
  (predictions labels : list Z) :
  perform_eval_refusal model dataset mode kb_layer_frequency kb_size seed
    outlier_ratio topk_size question_size kb_scale_factor w
  = (Ok (results, (predictions, labels)), w') ->
  exists (kb_idx outlier_idx : list nat) (test_kb questions : list KBEntry)
         (cp : Z) (w1 : world) (model_outputs : list string),
    sample_with_outliers dataset kb_size seed outlier_ratio question_size w
    = (Ok (kb_idx, outlier_idx, test_kb, questions, cp), w1)
    /\ answers_for
         (generate_output model mode kb_layer_frequency topk_size kb_scale_factor
            (get_kb_embd kb_idx) (render_prompt_strs test_kb))
         questions w1 model_outputs w'
    /\ predictions = prediction model_outputs
    /\ (forall i out,
          nth_error model_outputs i = Some out ->
          nth_error predictions i
          = Some (if contains "sorry" out then 1%Z else 0%Z))
    /\ true_label (Nat.min kb_size question_size) outlier_ratio = Ok labels
    /\ (forall i l,
          nth_error labels i = Some l ->
          l = if (Z.of_nat i <? cp)%Z then 0%Z else 1%Z)
    /\ List.length predictions = List.length questions
    /\ List.length labels = List.length predictions.
Proof.
  unfold perform_eval_refusal. intros H.
  apply bind_ok_inv in H as [[[[[kb_idx outlier_idx] test_kb] questions] cp] [w1 [Hs H]]].
  apply bind_ok_inv in H as [[[i outs] ans] [w2 [Hloop H]]].
  apply bind_ok_inv in H as [labels0 [w3 [Hlab H]]].
  apply lift_ok_inv in Hlab as [Hlab ->].
  apply bind_ok_inv in H as [arr [w4 [Harr H]]].
  apply lift_ok_inv in Harr as [Harr ->].
  apply ret_ok_inv in H as [H ->]. injection H as _ Hpair.
  rewrite <- Hpair in Harr. unfold np_array2 in Harr.
  destruct (Nat.eqb_spec (List.length (prediction outs)) (List.length labels0))
    as [Hlen|]; [|discriminate].
  injection Harr as <- <-.
  apply refusal_rows_ok in Hloop as [new_outs [Hans Houts]]. simpl in Houts.
  subst outs.
  exists kb_idx, outlier_idx, test_kb, questions, cp, w1, new_outs.
  repeat split; try assumption.
  - intros j out Hj. unfold prediction. now rewrite nth_error_map, Hj.
  - intros j l Hj.
    pose proof (sample_with_outliers_ok _ _ _ _ _ _ _ _ _ _ _ _ Hs)
      as [st [n [outliers [_ [_ [Hn [_ [Hcp _]]]]]]]].
    unfold true_label in Hlab. rewrite Hcp, Hn in Hlab. simpl in Hlab.
    injection Hlab as <-. now apply (times_nth _ _ _ n).
  - unfold prediction. rewrite length_map. apply (answers_for_length _ _ _ _ _ Hans).
  - now symmetry.
Qed.


End RefusalFacts.

(** A trial on 200 rows with the default sizes: [kb_size = 100] does not cap
    the 100 questions. *)
Lemma refusal_labeling_witness :
  fst (Toy.refusal_sample 200 100)
  = Ok (seq 1 100, rev (seq 180 20), map Toy.toy_row (seq 1 100),
        map Toy.toy_row (seq 1 80 ++ rev (seq 180 20)), 80%Z)
  /\ true_label (Nat.min 100 100) 0.2%float = Ok (repeat 0%Z 80 ++ repeat 1%Z 20).
Proof.
  assert (E : Toy.refusal_sample 200 100
              = (Ok (seq 1 100, rev (seq 180 20), map Toy.toy_row (seq 1 100),
                     map Toy.toy_row (seq 1 80 ++ rev (seq 180 20)), 80%Z),
                 World _ Toy.toy_rng 102 []))
    by (vm_compute; reflexivity).
  split; [now rewrite E|].
  exact (proj2 (proj2 (proj2 (refusal_labeling _ _ _ _ _ _ _ _ _ _ _ _ E))
                  eq_refl (le_n 100) eq_refl)).
Defined.

(** C4 as stated fails: with [question_size = 100] and
    [outlier_ratio = 0.2] but a KB of 50 rows, the change point is 40 and the
    labels are 40 zeros and 10 ones. *)
Lemma refusal_change_point_is_capped_by_kb_size :
  fst (Toy.refusal_sample 100 50)
  = Ok (seq 1 50, rev (seq 90 10), map Toy.toy_row (seq 1 50),
        map Toy.toy_row (seq 1 40 ++ rev (seq 90 10)), 40%Z)
  /\ (exists results predictions,
        fst (Toy.refusal_run 100 50 " I am sorry")
        = Ok (results, (predictions, repeat 0%Z 40 ++ repeat 1%Z 10))).
Proof.
  split; [vm_compute; reflexivity|].
  vm_compute. eexists. eexists. reflexivity.
Qed.

(** The same trial: its twenty outliers are distinct rows outside the KB. *)
Lemma outlier_sampling_witness :
  fst (Toy.refusal_sample 200 100)
  = Ok (seq 1 100, rev (seq 180 20), map Toy.toy_row (seq 1 100),
        map Toy.toy_row (seq 1 80 ++ rev (seq 180 20)), 80%Z)
  /\ NoDup (rev (seq 180 20))
  /\ (forall i, In i (rev (seq 180 20)) ->
                i < List.length (Toy.toy_dataset 200) /\ ~ In i (seq 1 100)).
Proof.
  assert (E : Toy.refusal_sample 200 100
              = (Ok (seq 1 100, rev (seq 180 20), map Toy.toy_row (seq 1 100),
                     map Toy.toy_row (seq 1 80 ++ rev (seq 180 20)), 80%Z),
                 World _ Toy.toy_rng 102 []))
    by (vm_compute; reflexivity).
  split; [now rewrite E|].
  destruct (outlier_sampling (L := ToyFacts.toy_rng_laws) _ _ _ _ _ _ _ _ _ _ _ _ E)
    as [n [shuffled [_ [_ [_ [Hnodup [Hdisj _]]]]]]].
  split; [exact Hnodup | exact Hdisj].
Defined.

(** C5 as stated fails: with [question_size = 100] and
    [outlier_ratio = 0.2] the count [int(100 * 0.2)] is 20 and 50 rows lie
    outside the KB of 50 rows, yet only 10 outliers are kept. *)
Lemma outlier_count_is_capped_by_kb_size :
  fst (Toy.refusal_sample 100 50)
  = Ok (seq 1 50, rev (seq 90 10), map Toy.toy_row (seq 1 50),
        map Toy.toy_row (seq 1 40 ++ rev (seq 90 10)), 40%Z)
  /\ List.length (rev (seq 90 10)) = 10
  /\ outlier_count 100 0.2%float = Ok 20%Z
  /\ List.length (complement_of 100 (seq 1 50)) = 50.
Proof. repeat split; vm_compute; reflexivity. Qed.



End RefusalFacts.

(** ** Retrieval accuracy: the KB subset *)

Module SubsetFacts.
Import PyStr Format Collaborators Py Generation Accuracy.
Import MonadFacts RefusalFacts.

Lemma mapM_getitem_seq {A : Type} (pre xs : list A) :
  mapM (getitem (pre ++ xs)) (seq (List.length pre) (List.length xs)) = Ok xs.
Proof.
  revert pre; induction xs as [|x xs IH]; intros pre; simpl; [reflexivity|].
  unfold getitem at 1. rewrite nth_error_app2, Nat.sub_diag by lia. simpl.
  specialize (IH (pre ++ [x])).
  rewrite <- app_assoc, length_app, Nat.add_1_r in IH. simpl in IH.
  now rewrite IH.
Qed.

Section SubsetFacts.
Context {C : Collab} {R : Rng} {L : RngLaws R}.
Context {Wt : Weight} {AC : AccuracyCollab C Wt}.

(** C7: a KB larger than the dataset makes [eval_accuracy] raise
    [IndexError] with the world untouched, so before any call of
    [model.generate]; a KB as large as the dataset selects every row, in
    order, without raising; a smaller KB is [kb_size] pairwise distinct rows
    of the dataset. *)
Theorem kb_size_boundary (exp_config : string) (fancy_question : bool)
  (kb_layer_frequency : Z) (kb_scale_factor : option Z) (kb_size : nat)
  (llm_type : family) (test_batch_size : nat) (attn_save_dir : string)
  (dataset : list KBEntry) (w : world) :
  (List.length dataset < kb_size ->
   eval_accuracy exp_config fancy_question kb_layer_frequency kb_scale_factor
     kb_size llm_type test_batch_size attn_save_dir dataset w
   = (Raise IndexError, w))
  /\ (kb_size = List.length dataset ->
      dataset_subset_idx (List.length dataset) kb_size w
      = (Ok (seq 0 (List.length dataset)), w)
      /\ mapM (getitem dataset) (seq 0 (List.length dataset)) = Ok dataset)
  /\ (kb_size < List.length dataset ->
      exists idx w1,
        dataset_subset_idx (List.length dataset) kb_size w = (Ok idx, w1)
        /\ List.length idx = kb_size
        /\ NoDup idx
        /\ (forall i, In i idx -> i < List.length dataset)
        /\ w_calls w1 = w_calls w).
Proof.
  split; [|split].
  - intros Hbig. unfold eval_accuracy, bind, dataset_subset_idx, raise.
    destruct (Nat.eqb_spec kb_size (List.length dataset)) as [E|_]; [lia|].
    destruct (Nat.ltb_spec (List.length dataset) kb_size); [reflexivity | lia].
  - intros ->. split.
    + unfold dataset_subset_idx. now rewrite Nat.eqb_refl.
    + apply (mapM_getitem_seq [] dataset).
  - intros Hsmall. unfold dataset_subset_idx.
    destruct (Nat.eqb_spec kb_size (List.length dataset)) as [E|_]; [lia|].
    destruct (Nat.ltb_spec (List.length dataset) kb_size) as [|_]; [lia|].
    unfold choice_no_replace, bind, shuffle, ret.
    pose proof (shuffle_perm (w_rng w) (seq 0 (List.length dataset))) as Hperm.
    destruct (np_random_shuffle (w_rng w) (seq 0 (List.length dataset)))
      as [perm st]. simpl in Hperm.
    eexists; eexists; split; [reflexivity|]. split; [|split; [|split]].
    + rewrite length_firstn, (Permutation_length Hperm), length_seq. lia.
    + apply firstn_NoDup, (Permutation_NoDup (Permutation_sym Hperm)), seq_NoDup.
    + intros i Hi. apply firstn_incl_in, (Permutation_in _ Hperm), in_seq in Hi. lia.
    + reflexivity.
Qed.

End SubsetFacts.

(** Five rows and a KB of six, five and three rows. *)
Lemma kb_size_boundary_witness :
  Toy.accuracy_run 5 6 5 Toy.artifact_5_2_6 = (Raise IndexError, Toy.toy_world)
  /\ @dataset_subset_idx (Toy.toy_collab true " The purpose of it is 42") Toy.toy_rng
       (List.length (Toy.toy_dataset 5)) 5 Toy.toy_world
     = (Ok (seq 0 5), Toy.toy_world)
  /\ (exists idx w1,
        @dataset_subset_idx (Toy.toy_collab true " The purpose of it is 42")
          Toy.toy_rng (List.length (Toy.toy_dataset 5)) 3 Toy.toy_world
        = (Ok idx, w1)
        /\ List.length idx = 3 /\ NoDup idx).
Proof.
  split; [|split].
  - exact (proj1 (kb_size_boundary (L := ToyFacts.toy_rng_laws)
                    (AC := Toy.toy_sink
                             (Toy.toy_collab true " The purpose of it is 42")
                             Toy.artifact_5_2_6)
                    "accuracy_results" false 3 None 6 Llama 5 "attn"
                    (Toy.toy_dataset 5) Toy.toy_world)
                 (le_n 6)).
  - exact (proj1 (proj1 (proj2 (kb_size_boundary (L := ToyFacts.toy_rng_laws)
                    (AC := Toy.toy_sink
                             (Toy.toy_collab true " The purpose of it is 42")
                             Toy.artifact_5_2_6)
                    "accuracy_results" false 3 None 5 Llama 5 "attn"
                    (Toy.toy_dataset 5) Toy.toy_world))
                 eq_refl)).
  - destruct (proj2 (proj2 (kb_size_boundary (L := ToyFacts.toy_rng_laws)
                    (AC := Toy.toy_sink
                             (Toy.toy_collab true " The purpose of it is 42")
                             Toy.artifact_5_2_6)
                    "accuracy_results" false 3 None 3 Llama 5 "attn"
                    (Toy.toy_dataset 5) Toy.toy_world))
                 (le_S _ _ (le_n 4)))
      as [idx [w1 [H1 [H2 [H3 _]]]]].
    exists idx, w1. repeat split; assumption.
Defined.

End SubsetFacts.

(** ** Retrieval accuracy: rows, reshaping and sums *)

Module ArrayFacts.
Import Py Accuracy.

Lemma Forall_skipn_tail {A : Type} (P : A -> Prop) (n : nat) (xs : list A) :
  Forall P xs -> Forall P (skipn n xs).
Proof.
  intros H. rewrite <- (firstn_skipn n xs) in H.
  now apply Forall_app in H as [_ H].
Qed.

Section Rows.
Context {A : Type}.

Lemma rows_of_as_map (count width : nat) (xs : list A) :
  rows_of count width xs
  = map (fun j => firstn width (skipn (j * width) xs)) (seq 0 count).
Proof.
  revert xs; induction count as [|count IH]; intros xs; [reflexivity|].
  cbn [rows_of seq map]. f_equal.
  rewrite IH, <- seq_shift, map_map. apply map_ext. intros j.
  rewrite skipn_skipn. do 2 f_equal. simpl. lia.
Qed.

Lemma firstn_concat_rows (width : nat) (rows : list (list A)) :
  Forall (fun r => List.length r = width) rows ->
  forall count,
    firstn (count * width) (List.concat rows) = List.concat (firstn count rows).
Proof.
  induction 1 as [|r rows Hr Hrows IH]; intros count.
  - now rewrite !firstn_nil.
  - destruct count as [|count]; [reflexivity|].
    cbn [Nat.mul List.concat firstn].
    rewrite firstn_app, Hr.
    replace (width + count * width - width) with (count * width) by lia.
    rewrite IH, firstn_all2 by lia. reflexivity.
Qed.

Lemma skipn_concat_rows (width : nat) (rows : list (list A)) :
  Forall (fun r => List.length r = width) rows ->
  forall count,
    skipn (count * width) (List.concat rows) = List.concat (skipn count rows).
Proof.
  induction 1 as [|r rows Hr Hrows IH]; intros count.
  - now rewrite !skipn_nil.
  - destruct count as [|count]; [reflexivity|].
    cbn [Nat.mul List.concat skipn].
    rewrite skipn_app, Hr.
    replace (width + count * width - width) with (count * width) by lia.
    rewrite IH, skipn_all2 by lia. reflexivity.
Qed.

(** Cutting a concatenation of rows into groups of [middle] rows. *)
Lemma rows_of_concat_groups (width middle : nat) :
  forall (batch : nat) (rows : list (list A)),
    Forall (fun r => List.length r = width) rows ->
    rows_of batch (middle * width) (List.concat rows)
    = map (@List.concat A) (rows_of batch middle rows).
Proof.
  induction batch as [|batch IH]; intros rows H; [reflexivity|].
  cbn [rows_of map].
  rewrite (firstn_concat_rows _ _ H), (skipn_concat_rows _ _ H).
  rewrite IH by now apply Forall_skipn_tail. reflexivity.
Qed.

(** Cutting a concatenation of rows back into its rows. *)
Lemma rows_of_concat (width : nat) (rows : list (list A)) :
  Forall (fun r => List.length r = width) rows ->
  rows_of (List.length rows) width (List.concat rows) = rows.
Proof.
  induction 1 as [|r rows Hr Hrows IH]; [reflexivity|].
  cbn [List.length rows_of List.concat].
  rewrite firstn_app, skipn_app, Hr, Nat.sub_diag.
  rewrite firstn_all2, skipn_all2 by lia.
  simpl. rewrite app_nil_r, IH. reflexivity.
Qed.

Lemma nth_firstn_lt (n k : nat) (xs : list A) (d : A) :
  k < n -> nth k (firstn n xs) d = nth k xs d.
Proof.
  revert k xs; induction n as [|n IH]; intros k xs Hk; [lia|].
  destruct xs as [|x xs]; [now destruct k|].
  destruct k as [|k]; [reflexivity|]. simpl. apply IH. lia.
Qed.

Lemma nth_skipn_add (n k : nat) (xs : list A) (d : A) :
  nth k (skipn n xs) d = nth (n + k) xs d.
Proof.
  revert xs; induction n as [|n IH]; intros xs; [reflexivity|].
  destruct xs as [|x xs]; [now destruct k | apply IH].
Qed.

End Rows.

Section Sums.
Context {Wt : Weight}.

Lemma zip_with_length (f : weight -> weight -> weight) (xs ys : list weight) :
  List.length (zip_with f xs ys) = Nat.min (List.length xs) (List.length ys).
Proof.
  revert ys; induction xs as [|x xs IH]; intros [|y ys]; simpl; auto.
Qed.

Lemma zip_with_nth (f : weight -> weight -> weight) (xs ys : list weight)
  (k : nat) (d : weight) :
  k < List.length xs -> k < List.length ys ->
  nth k (zip_with f xs ys) d = f (nth k xs d) (nth k ys d).
Proof.
  revert ys k; induction xs as [|x xs IH]; intros [|y ys] k Hx Hy;
    simpl in *; try lia.
  destruct k as [|k]; [reflexivity | apply IH; lia].
Qed.

Lemma fold_zip_with (kb_size k : nat) (rs : list (list weight)) :
  Forall (fun r => List.length r = kb_size) rs ->
  forall r, List.length r = kb_size -> k < kb_size ->
    List.length (fold_left (zip_with wadd) rs r) = kb_size
    /\ nth k (fold_left (zip_with wadd) rs r) wzero
       = fold_left wadd (map (fun r' => nth k r' wzero) rs) (nth k r wzero).
Proof.
  induction 1 as [|r' rs Hr' Hrs IH]; intros r Hr Hk; simpl; [now split|].
  assert (Hz : List.length (zip_with wadd r r') = kb_size)
    by (rewrite zip_with_length; lia).
  destruct (IH _ Hz Hk) as [H1 H2]. split; [exact H1|].
  rewrite H2, zip_with_nth by lia. reflexivity.
Qed.

(** Column [k] of the sum of a matrix is the sum of its column [k]. *)
Lemma sum_rows_nth (kb_size k : nat) (m : list (list weight)) :
  Forall (fun r => List.length r = kb_size) m -> k < kb_size ->
  List.length (sum_rows kb_size m) = kb_size
  /\ nth k (sum_rows kb_size m) wzero
     = reduce_add (map (fun r => nth k r wzero) m).
Proof.
  intros H Hk. destruct m as [|r rs]; simpl.
  - rewrite repeat_length, nth_repeat. now split.
  - inversion H as [|? ? Hr Hrs]; subst. now apply fold_zip_with.
Qed.

Lemma fold_zip_with_length (kb_size : nat) (rs : list (list weight)) :
  Forall (fun r => List.length r = kb_size) rs ->
  forall r, List.length r = kb_size ->
    List.length (fold_left (zip_with wadd) rs r) = kb_size.
Proof.
  induction 1 as [|r' rs Hr' Hrs IH]; intros r Hr; simpl; [exact Hr|].
  apply IH. rewrite zip_with_length; lia.
Qed.

Lemma sum_rows_length (kb_size : nat) (m : list (list weight)) :
  Forall (fun r => List.length r = kb_size) m ->
  List.length (sum_rows kb_size m) = kb_size.
Proof.
  intros H. destruct m as [|r rs]; simpl; [apply repeat_length|].
  apply Forall_cons_iff in H as [Hr Hrs]. now apply fold_zip_with_length.
Qed.

End Sums.

End ArrayFacts.

(** ** Retrieval accuracy: the scores of an artifact *)

Module ScoreFacts.
Import Py Accuracy ArrayFacts.

Section ScoreFacts.
Context {Wt : Weight}.

Lemma seq_as_map (a n : nat) : seq a n = map (fun h => a + h) (seq 0 n).
Proof.
  revert a; induction n as [|n IH]; intros a; simpl; [reflexivity|].
  rewrite Nat.add_0_r. f_equal.
  rewrite (IH (S a)), <- seq_shift, map_map. apply map_ext. intros h; lia.
Qed.

Lemma firstn_seq_min (n a len : nat) :
  firstn n (seq a len) = seq a (Nat.min n len).
Proof.
  revert a len; induction n as [|n IH]; intros a [|len]; simpl; try reflexivity.
  now rewrite IH.
Qed.

Lemma nth_map_seq {B : Type} (f : nat -> B) (n k : nat) (d : B) :
  k < n -> nth k (map f (seq 0 n)) d = f k.
Proof.
  intros Hk. rewrite (nth_indep _ d (f 0)) by now rewrite length_map, length_seq.
  now rewrite map_nth, seq_nth.
Qed.

Lemma concat_length_rows {B : Type} (width : nat) (rows : list (list B)) :
  Forall (fun r => List.length r = width) rows ->
  List.length (List.concat rows) = List.length rows * width.
Proof.
  induction 1 as [|r rows Hr Hrows IH]; simpl; [reflexivity|].
  rewrite length_app, Hr, IH. reflexivity.
Qed.

Variables batch middle last kb_size : nat.
Variable data : list weight.
Hypothesis data_length : List.length data = batch * middle * last.
Hypothesis kb_fits : kb_size <= last.

Local Abbreviation cut_row := (Accuracy.cut_row data last kb_size).

Lemma cut_row_length (j : nat) :
  j < batch * middle -> List.length (cut_row j) = kb_size.
Proof.
  intros Hj. unfold Accuracy.cut_row. rewrite !length_firstn, length_skipn, data_length.
  nia.
Qed.

Lemma cut_row_nth (j k : nat) :
  k < kb_size -> nth k (cut_row j) wzero = nth (j * last + k) data wzero.
Proof.
  intros Hk. unfold Accuracy.cut_row.
  rewrite !nth_firstn_lt by lia. apply nth_skipn_add.
Qed.

Lemma cut_rows_all :
  Forall (fun r => List.length r = kb_size) (map cut_row (seq 0 (batch * middle))).
Proof.
  apply Forall_forall. intros r Hr. apply in_map_iff in Hr as [j [<- Hj]].
  apply in_seq in Hj. apply cut_row_length. lia.
Qed.

(** The rows of batch element [i]. *)
Lemma group_rows (i : nat) :
  i < batch ->
  firstn middle (skipn (i * middle) (map cut_row (seq 0 (batch * middle))))
  = map cut_row (seq (i * middle) middle).
Proof.
  intros Hi. rewrite skipn_map, firstn_map, skipn_seq, firstn_seq_min.
  do 2 f_equal. nia.
Qed.

Lemma group_rows_all (i : nat) :
  i < batch ->
  Forall (fun r => List.length r = kb_size) (map cut_row (seq (i * middle) middle)).
Proof.
  intros Hi. apply Forall_forall. intros r Hr. apply in_map_iff in Hr as [j [<- Hj]].
  apply in_seq in Hj. apply cut_row_length. nia.
Qed.

(** The score vector of batch element [i] is the one the index formula
    describes. *)
Lemma group_sum (i : nat) :
  i < batch ->
  sum_rows kb_size (map cut_row (seq (i * middle) middle))
  = map (score_of data middle last i) (seq 0 kb_size).
Proof.
  intros Hi. apply (nth_ext _ _ wzero wzero).
  - rewrite (sum_rows_length _ _ (group_rows_all i Hi)).
    now rewrite length_map, length_seq.
  - intros k Hk. rewrite (sum_rows_length _ _ (group_rows_all i Hi)) in Hk.
    rewrite (proj2 (sum_rows_nth _ _ _ (group_rows_all i Hi) Hk)).
    rewrite nth_map_seq by exact Hk. unfold score_of. f_equal.
    rewrite map_map, (seq_as_map (i * middle)), map_map.
    apply map_ext. intros h. now apply cut_row_nth.
Qed.

(** Truncating the last axis, reshaping and summing over the middle axis
    yields the score matrix. *)
Lemma scores_of_artifact :
  0 < batch -> 0 < kb_size ->
  exists t w3,
    truncate_last kb_size (NdArray [batch; middle; last] data) = Ok t
    /\ reshape3 batch kb_size t = Ok w3
    /\ sum_axis1 kb_size w3 = score_matrix data batch middle last kb_size.
Proof.
  intros Hb Hkb.
  unfold truncate_last. cbn [Accuracy.shape Accuracy.data rev app product fold_right].
  rewrite Nat.mul_1_r, rows_of_as_map, map_map.
  change (map (fun j => firstn kb_size (firstn last (skipn (j * last) data)))
              (seq 0 (batch * middle)))
    with (map cut_row (seq 0 (batch * middle))).
  eexists. eexists. split; [reflexivity|].
  unfold reshape3. cbn [Accuracy.data].
  rewrite (concat_length_rows _ _ cut_rows_all), length_map, length_seq.
  replace (batch * middle * kb_size) with (middle * (batch * kb_size)) by lia.
  rewrite Nat.Div0.mod_mul, Nat.div_mul by lia.
  destruct (Nat.eqb_spec (batch * kb_size) 0) as [E|_]; [nia|].
  cbn [orb negb Nat.eqb]. split; [reflexivity|].
  rewrite (rows_of_concat_groups _ _ _ _ cut_rows_all).
  unfold sum_axis1, score_matrix.
  rewrite rows_of_as_map, !map_map.
  apply map_ext_in. intros i Hi. apply in_seq in Hi.
  rewrite group_rows by lia.
  assert (Hlen : List.length (map cut_row (seq (i * middle) middle)) = middle)
    by now rewrite length_map, length_seq.
  rewrite <- Hlen at 1.
  rewrite (rows_of_concat _ _ (group_rows_all i ltac:(lia))).
  apply group_sum. lia.
Qed.

End ScoreFacts.

End ScoreFacts.

(** ** Retrieval accuracy: argmax, top-k and the reported means *)

Module ArgmaxFacts.
Import Py Accuracy ArrayFacts MonadFacts.

Lemma in_combine_nth {A B : Type} (xs : list A) (ys : list B) (a : A) (b : B) :
  In (a, b) (combine xs ys) ->
  exists t, nth_error xs t = Some a /\ nth_error ys t = Some b.
Proof.
  revert ys; induction xs as [|x xs IH]; intros [|y ys] H; simpl in H;
    try contradiction.
  destruct H as [H | H].
  - injection H as -> ->. now exists 0.
  - destruct (IH _ H) as [t Ht]. now exists (S t).
Qed.

Lemma nth_error_seq_some (a n t x : nat) :
  nth_error (seq a n) t = Some x -> x = a + t /\ t < n.
Proof.
  revert a t; induction n as [|n IH]; intros a [|t] H; simpl in H;
    try discriminate.
  - injection H as <-. lia.
  - apply IH in H. lia.
Qed.

Lemma mean_bool_all_true (bs : list bool) :
  (forall b, In b bs -> b = true) -> bs <> [] -> mean_bool bs == 1.
Proof.
  intros Hall Hne. unfold mean_bool.
  assert (E : filter (fun b => b) bs = bs).
  { clear Hne. induction bs as [|b bs IH]; [reflexivity|].
    simpl. rewrite (Hall b (or_introl eq_refl)), IH; [reflexivity|].
    intros; apply Hall; now right. }
  rewrite E. destruct bs as [|b bs]; [congruence|].
  unfold Qeq. cbn [Qnum Qden List.length].
  rewrite Z.mul_1_r, Z.mul_1_l. lia.
Qed.

Lemma mapM_indexed {A B : Type} (f : A -> result B) (g : nat -> B) (xs : list A) :
  forall j,
    (forall t x, nth_error xs t = Some x -> f x = Ok (g (j + t))) ->
    mapM f xs = Ok (map g (seq j (List.length xs))).
Proof.
  induction xs as [|x xs IH]; intros j H; [reflexivity|].
  cbn [mapM List.length seq map].
  rewrite (H 0 x eq_refl), Nat.add_0_r. cbn [rbind].
  rewrite (IH (S j)); [reflexivity|].
  intros t y Ht. rewrite (H (S t) y Ht). f_equal. f_equal. lia.
Qed.

Section ArgmaxFacts.
Context {Wt : Weight}.

Lemma topk_defined (k : nat) (v : list weight) :
  k <= List.length v -> exists l, topk k v = Ok l.
Proof.
  intros H. unfold topk.
  destruct (Nat.ltb_spec (List.length v) k); [lia | eauto].
Qed.

Lemma argmax_defined (v : list weight) :
  0 < List.length v -> exists i, argmax v = Ok i.
Proof. destruct v; simpl; [lia | eauto]. Qed.

Context {WL : WeightLaws Wt}.

Lemma argmax_from_keeps (xs : list weight) :
  forall bi b j,
    (forall x, In x xs -> wltb x b = true) -> argmax_from bi b j xs = bi.
Proof.
  induction xs as [|x xs IH]; intros bi b j H; simpl; [reflexivity|].
  rewrite (wltb_asym _ _ (H x (or_introl eq_refl))).
  apply IH. intros; apply H; now right.
Qed.

Lemma argmax_from_finds (xs : list weight) :
  forall bi b j t p,
    nth_error xs t = Some p ->
    (forall k x, nth_error xs k = Some x -> k <> t -> wltb x p = true) ->
    wltb b p = true ->
    argmax_from bi b j xs = j + t.
Proof.
  induction xs as [|x xs IH]; intros bi b j t p Ht Hlow Hb.
  - destruct t; discriminate.
  - destruct t as [|t]; simpl in Ht |- *.
    + injection Ht as ->. rewrite Hb, Nat.add_0_r.
      apply argmax_from_keeps. intros x Hx.
      apply In_nth_error in Hx as [k Hk]. apply (Hlow (S k) x Hk). lia.
    + assert (Hx : wltb x p = true) by (apply (Hlow 0 x eq_refl); lia).
      assert (Hrest : forall k y, nth_error xs k = Some y -> k <> t -> wltb y p = true)
        by (intros k y Hk Hne; apply (Hlow (S k) y Hk); lia).
      destruct (wltb b x);
        rewrite (IH _ _ _ t p Ht Hrest) by assumption; lia.
Qed.

(** [argmax] returns the index of a strict maximum. *)
Lemma argmax_peak (v : list weight) (i : nat) :
  peak_at v i -> argmax v = Ok i.
Proof.
  intros [p [Hp Hlow]]. destruct v as [|x xs]; [destruct i; discriminate|].
  simpl. f_equal. destruct i as [|t]; simpl in Hp.
  - injection Hp as ->. apply argmax_from_keeps. intros y Hy.
    apply In_nth_error in Hy as [k Hk]. apply (Hlow (S k) y Hk). lia.
  - apply (argmax_from_finds xs 0 x 1 t p Hp).
    + intros k y Hk Hne. apply (Hlow (S k) y Hk). lia.
    + apply (Hlow 0 x eq_refl). lia.
Qed.

Lemma extract_max_keeps (xs : list (nat * weight)) :
  forall best,
    (forall x, In x xs -> wltb (snd x) (snd best) = true) ->
    fst (extract_max best xs) = best.
Proof.
  induction xs as [|x xs IH]; intros best H; simpl; [reflexivity|].
  rewrite (wltb_asym _ _ (H x (or_introl eq_refl))).
  specialize (IH best (fun y Hy => H y (or_intror Hy))).
  destruct (extract_max best xs); exact IH.
Qed.

Lemma extract_max_finds (xs : list (nat * weight)) :
  forall best t e,
    nth_error xs t = Some e ->
    (forall k x, nth_error xs k = Some x -> k <> t -> wltb (snd x) (snd e) = true) ->
    wltb (snd best) (snd e) = true ->
    fst (extract_max best xs) = e.
Proof.
  induction xs as [|x xs IH]; intros best t e Ht Hlow Hb.
  - destruct t; discriminate.
  - destruct t as [|t]; simpl in Ht |- *.
    + injection Ht as ->. rewrite Hb.
      assert (Hk : fst (extract_max e xs) = e).
      { apply extract_max_keeps. intros x Hx.
        apply In_nth_error in Hx as [k Hk]. apply (Hlow (S k) x Hk). lia. }
      destruct (extract_max e xs); exact Hk.
    + assert (Hx : wltb (snd x) (snd e) = true) by (apply (Hlow 0 x eq_refl); lia).
      assert (Hrest : forall k y, nth_error xs k = Some y -> k <> t ->
                                  wltb (snd y) (snd e) = true)
        by (intros k y Hk Hne; apply (Hlow (S k) y Hk); lia).
      destruct (wltb (snd best) (snd x)).
      * specialize (IH x t e Ht Hrest Hx).
        destruct (extract_max x xs); exact IH.
      * specialize (IH best t e Ht Hrest Hb).
        destruct (extract_max best xs); exact IH.
Qed.

Lemma nth_error_indexed (v : list weight) :
  forall a t e,
    nth_error (combine (seq a (List.length v)) v) t = Some e ->
    fst e = a + t /\ nth_error v t = Some (snd e).
Proof.
  induction v as [|x v IH]; intros a t e H; simpl in H.
  - destruct t; discriminate.
  - destruct t as [|t]; simpl in H.
    + injection H as <-. simpl. split; [lia | reflexivity].
    + apply IH in H as [H1 H2]. split; [lia | exact H2].
Qed.

Lemma nth_error_indexed_some (v : list weight) :
  forall a t p,
    nth_error v t = Some p ->
    nth_error (combine (seq a (List.length v)) v) t = Some (a + t, p).
Proof.
  induction v as [|x v IH]; intros a t p H.
  - destruct t; discriminate.
  - destruct t as [|t]; simpl in H |- *.
    + injection H as ->. now rewrite Nat.add_0_r.
    + rewrite (IH (S a) t p H). do 2 f_equal. lia.
Qed.

(** The index of a strict maximum is among the top [k], for every positive
    [k] within the length. *)
Lemma topk_peak (k : nat) (v : list weight) (i : nat) :
  0 < k -> k <= List.length v -> peak_at v i ->
  exists l, topk k v = Ok l /\ In i l.
Proof.
  intros Hk Hlen [p [Hp Hlow]]. unfold topk.
  destruct (Nat.ltb_spec (List.length v) k); [lia|].
  eexists; split; [reflexivity|].
  destruct k as [|k]; [lia|].
  destruct v as [|x xs]; [simpl in Hlen; lia|].
  cbn [List.length seq combine select_top].
  assert (Hmax : fst (extract_max (0, x) (combine (seq 1 (List.length xs)) xs))
                 = (i, p)).
  { destruct i as [|t]; simpl in Hp.
    - injection Hp as ->. apply extract_max_keeps. intros e He.
      apply In_nth_error in He as [s Hs].
      apply nth_error_indexed in Hs as [_ Hs].
      apply (Hlow (S s) _ Hs). lia.
    - apply (extract_max_finds _ (0, x) t (S t, p)).
      + apply (nth_error_indexed_some xs 1 t p Hp).
      + intros s e Hs Hne. apply nth_error_indexed in Hs as [_ Hs].
        apply (Hlow (S s) _ Hs). lia.
      + apply (Hlow 0 x eq_refl). lia. }
  destruct (extract_max (0, x) (combine (seq 1 (List.length xs)) xs)) as [m rest].
  simpl in Hmax. subst m. now left.
Qed.

End ArgmaxFacts.

End ArgmaxFacts.

(** ** Retrieval accuracy: the scoring step *)

Module ScoringFacts.
Import Format Py Generation Accuracy ArrayFacts ScoreFacts ArgmaxFacts MonadFacts.

Lemma Qltb_lt (a b : Q) : Toy.Qltb a b = true <-> (a < b)%Q.
Proof. unfold Toy.Qltb, Qlt. apply Z.ltb_lt. Qed.

Lemma QWeight_laws : WeightLaws Toy.QWeight.
Proof.
  split. intros a b H. change (Toy.Qltb a b = true) in H.
  change (Toy.Qltb b a = false). apply Qltb_lt in H.
  destruct (Toy.Qltb b a) eqn:E; [|reflexivity].
  apply Qltb_lt in E. exfalso. apply (Qlt_irrefl a). now apply (Qlt_trans _ b).
Qed.

Lemma QWeight_add_laws : WeightAddLaws Toy.QWeight.
Proof.
  split. intros a b c d H1 H2.
  change (Toy.Qltb a b = true) in H1. change (Toy.Qltb c d = true) in H2.
  change (Toy.Qltb (a + c) (b + d) = true).
  apply Qltb_lt in H1, H2. apply Qltb_lt.
  apply Qplus_lt_le_compat; [exact H1 | now apply Qlt_le_weak].
Qed.

Section ScoringFacts.
Context {Wt : Weight}.

Lemma nth_error_map_seq {B : Type} (f : nat -> B) (n k : nat) (x : B) :
  nth_error (map f (seq 0 n)) k = Some x -> x = f k /\ k < n.
Proof.
  rewrite nth_error_map. destruct (nth_error (seq 0 n) k) as [j|] eqn:E;
    [|discriminate].
  apply nth_error_seq_some in E as [-> Hk]. simpl. intros H; injection H as <-.
  now split.
Qed.

Lemma score_matrix_length (data : list weight) (batch middle last kb_size : nat) :
  List.length (score_matrix data batch middle last kb_size) = batch.
Proof. unfold score_matrix. now rewrite length_map, length_seq. Qed.

Lemma score_matrix_row (data : list weight) (batch middle last kb_size t : nat)
  (row : list weight) :
  nth_error (score_matrix data batch middle last kb_size) t = Some row ->
  row = map (score_of data middle last t) (seq 0 kb_size) /\ t < batch.
Proof.
  unfold score_matrix.
  apply (nth_error_map_seq
           (fun i => map (score_of data middle last i) (seq 0 kb_size))).
Qed.

(** Adding the heads keeps a peak that every head has, when addition is
    exact. *)
Lemma fold_add_mono {AL : WeightAddLaws Wt} (xs ys : list weight) :
  Forall2 (fun x y => wltb x y = true) xs ys ->
  forall a b, wltb a b = true ->
              wltb (fold_left wadd xs a) (fold_left wadd ys b) = true.
Proof.
  induction 1 as [|x y xs ys Hxy Hrest IH]; intros a b Hab; simpl; [exact Hab|].
  apply IH. now apply wadd_mono.
Qed.

Lemma per_head_peak {AL : WeightAddLaws Wt} (data : list weight)
  (middle last i k : nat) :
  0 < middle ->
  (forall h, h < middle ->
             wltb (nth ((i * middle + h) * last + k) data wzero)
                  (nth ((i * middle + h) * last + i) data wzero) = true) ->
  wltb (score_of data middle last i k) (score_of data middle last i i) = true.
Proof.
  intros Hm H. unfold score_of.
  destruct middle as [|m]; [lia|].
  cbn [seq map reduce_add]. apply fold_add_mono; [|apply H; lia].
  assert (Hall : forall h, In h (seq 1 m) -> h < S m) by (intros h Hh; apply in_seq in Hh; lia).
  induction (seq 1 m) as [|h hs IH]; simpl; constructor.
  - apply H, Hall. now left.
  - apply IH. intros; apply Hall; now right.
Qed.

(** The loop of lines 872-879 reports one pair per evaluated layer, each
    computed from the artifact stored under the configuration name and the
    layer index. *)
Lemma score_layers_each (files : string -> option ndarray)
  (attn_save_dir exp_config : string) (kb_layer_frequency : Z)
  (kb_size test_batch_size : nat) (accs : list (Q * Q)) :
  score_layers files attn_save_dir exp_config kb_layer_frequency kb_size
    test_batch_size = Ok accs ->
  exists layers,
    py_range 32 kb_layer_frequency = Ok layers
    /\ List.length accs = List.length layers
    /\ forall j idx,
        nth_error layers j = Some idx ->
        exists artifact pair,
          files (path_join attn_save_dir
                   (exp_config ++ "_" ++ str_of_nat idx ++ ".npy")%string)
          = Some artifact
          /\ score_attention kb_size test_batch_size artifact = Ok pair
          /\ nth_error accs j = Some pair.
Proof.
  unfold score_layers. intros H.
  apply rbind_ok_inv in H as [layers [Hl H]].
  exists layers. split; [exact Hl|]. split; [exact (mapM_length _ _ _ H)|].
  intros j idx Hj.
  destruct (mapM_nth _ _ _ H j idx Hj) as [pair [Hpair Hscore]].
  destruct (files _) as [artifact|]; [|discriminate].
  now exists artifact, pair.
Qed.

Context {WL : WeightLaws Wt}.

(** C1, amended: for an artifact of shape [[batch, middle, last]] with at
    least five KB columns, the scoring step truncates the last axis to
    [kb_size] columns, reshapes and sums over the middle axis, which gives
    the score matrix of the index formula; the reported top-1 accuracy is
    the mean over the batch rows of (argmax of row [i]'s score vector =
    [i]).  When row [i]'s score vector peaks at column [i] for every [i],
    the reported top-1 (and top-5) accuracy is 1; so it is when every head
    of row [i] peaks at column [i] and addition is exact. *)
Theorem score_attention_top1 (batch middle last kb_size : nat) (data : list weight) :
  List.length data = batch * middle * last ->
  kb_size <= last -> 0 < batch -> 5 <= kb_size ->
  exists predictions top_5_acc,
    mapM argmax (score_matrix data batch middle last kb_size) = Ok predictions
    /\ score_attention kb_size batch (NdArray [batch; middle; last] data)
       = Ok (mean_bool (map (fun '(p, l) => p =? l)
                            (combine predictions (seq 0 batch))),
             top_5_acc)
    /\ (batch <= kb_size ->
        (forall i k, i < batch -> k < kb_size -> k <> i ->
                     wltb (score_of data middle last i k)
                          (score_of data middle last i i) = true) ->
        predictions = seq 0 batch
        /\ mean_bool (map (fun '(p, l) => p =? l)
                          (combine predictions (seq 0 batch))) == 1
        /\ top_5_acc == 1)
    /\ (WeightAddLaws Wt -> 0 < middle -> batch <= kb_size ->
        (forall i h k, i < batch -> h < middle -> k < kb_size -> k <> i ->
                       wltb (nth ((i * middle + h) * last + k) data wzero)
                            (nth ((i * middle + h) * last + i) data wzero) = true) ->
        predictions = seq 0 batch
        /\ mean_bool (map (fun '(p, l) => p =? l)
                          (combine predictions (seq 0 batch))) == 1
        /\ top_5_acc == 1).
Proof.
  intros Hlen Hfit Hb Hkb.
  destruct (scores_of_artifact batch middle last kb_size data Hlen Hfit Hb
              ltac:(lia)) as [t [w3 [Ht [Hw Hs]]]].
  set (scores := score_matrix data batch middle last kb_size) in *.
  assert (Hrows : forall row, In row scores -> List.length row = kb_size).
  { intros row Hin. apply In_nth_error in Hin as [j Hj].
    apply score_matrix_row in Hj as [-> _]. now rewrite length_map, length_seq. }
  destruct (mapM_ok_forall argmax scores) as [predictions Hp].
  { intros row Hin. apply argmax_defined. rewrite (Hrows _ Hin). lia. }
  destruct (mapM_ok_forall (topk 5) scores) as [tops Htops].
  { intros row Hin. apply topk_defined. rewrite (Hrows _ Hin). lia. }
  exists predictions.
  exists (mean_bool (map (fun '(ps, l) => existsb (Nat.eqb l) ps)
                         (combine tops (seq 0 batch)))).
  split; [exact Hp|]. split.
  { unfold score_attention. rewrite Ht. cbn [rbind]. rewrite Hw. cbn [rbind].
    rewrite Hs. fold scores. rewrite Hp. cbn [rbind]. rewrite Htops. reflexivity. }
  assert (Hsummed :
            batch <= kb_size ->
            (forall i k, i < batch -> k < kb_size -> k <> i ->
                         wltb (score_of data middle last i k)
                              (score_of data middle last i i) = true) ->
            predictions = seq 0 batch
            /\ mean_bool (map (fun '(p, l) => p =? l)
                              (combine predictions (seq 0 batch))) == 1
            /\ mean_bool (map (fun '(ps, l) => existsb (Nat.eqb l) ps)
                              (combine tops (seq 0 batch))) == 1);
    [|split; [exact Hsummed|];
      intros AL Hm Hbk Hheads; apply Hsummed; [exact Hbk|];
      intros i k Hi Hk Hne; apply per_head_peak; [exact Hm|];
      intros h Hh; now apply Hheads].
  - intros Hbk Hpeak.
    assert (Hpk : forall j row, nth_error scores j = Some row -> peak_at row j).
    { intros j row Hj. apply score_matrix_row in Hj as [-> Hjb].
      exists (score_of data middle last j j). split.
      - rewrite nth_error_map, nth_error_seq by lia.
        destruct (Nat.ltb_spec j kb_size); [reflexivity | lia].
      - intros k x Hk Hne. apply nth_error_map_seq in Hk as [-> Hkk].
        now apply Hpeak. }
    assert (Hseq : predictions = seq 0 batch).
    { pose proof (mapM_indexed argmax (fun j => j) scores 0) as Hix.
      rewrite Hix in Hp.
      - unfold scores in Hp. rewrite score_matrix_length, map_id in Hp.
        now injection Hp as <-.
      - intros j row Hj. apply argmax_peak. now apply Hpk. }
    split; [exact Hseq|]. split.
    + rewrite Hseq. apply mean_bool_all_true.
      * intros b Hin. apply in_map_iff in Hin as [[p l] [<- Hin]].
        apply in_combine_nth in Hin as [j [H1 H2]].
        apply nth_error_seq_some in H1 as [-> _].
        apply nth_error_seq_some in H2 as [-> _]. apply Nat.eqb_refl.
      * destruct batch; [lia | discriminate].
    + apply mean_bool_all_true.
      * intros b Hin. apply in_map_iff in Hin as [[ps l] [<- Hin]].
        apply in_combine_nth in Hin as [j [H1 H2]].
        apply nth_error_seq_some in H2 as [-> Hjb]. simpl in *.
        destruct (nth_error scores j) as [row|] eqn:Hrow.
        2:{ apply nth_error_None in Hrow. unfold scores in Hrow.
            rewrite score_matrix_length in Hrow. lia. }
        destruct (mapM_nth _ _ _ Htops j row Hrow) as [ps' [Hps' Htop]].
        rewrite H1 in Hps'. injection Hps' as <-.
        destruct (topk_peak 5 row j ltac:(lia)) as [l [Hl Hin]].
        { rewrite (Hrows row (nth_error_In _ _ Hrow)). lia. }
        { now apply Hpk. }
        rewrite Hl in Htop. injection Htop as <-.
        apply existsb_exists. exists j. split; [exact Hin | apply Nat.eqb_refl].
      * intros E. apply (f_equal (@List.length bool)) in E.
        rewrite length_map, length_combine, (mapM_length _ _ _ Htops) in E.
        unfold scores in E. rewrite score_matrix_length, length_seq in E.
        simpl in E. lia.
Qed.

End ScoringFacts.

(** An artifact of shape [[5, 2, 6]] scored with five KB columns. *)
Lemma score_attention_top1_witness :
  exists predictions top_5_acc,
    score_attention 5 5 Toy.artifact_5_2_6
    = Ok (mean_bool (map (fun '(p, l) => p =? l) (combine predictions (seq 0 5))),
          top_5_acc)
    /\ predictions = seq 0 5
    /\ mean_bool (map (fun '(p, l) => p =? l) (combine predictions (seq 0 5))) == 1
    /\ top_5_acc == 1.
Proof.
  destruct (score_attention_top1 (Wt := Toy.QWeight) (WL := QWeight_laws)
              5 2 6 5 (data Toy.artifact_5_2_6)
              eq_refl (le_S 5 5 (le_n 5)) (le_S 1 4 (le_S 1 3 (le_S 1 2 (le_S 1 1 (le_n 1)))))
              (le_n 5))
    as [predictions [top_5_acc [_ [Hscore [Hpeak _]]]]].
  exists predictions, top_5_acc. split; [exact Hscore|].
  apply Hpeak; [apply le_n|].
  intros i k Hi Hk Hne.
  do 5 (destruct i as [|i];
        [do 5 (destruct k as [|k];
               [first [exfalso; apply Hne; reflexivity | vm_compute; reflexivity]|]);
         exfalso; lia|]).
  exfalso; lia.
Defined.

(** C1 as stated fails: on an artifact of shape [[4, 2, 4]] whose row [i]
    peaks at column [i], every argmax is right, yet the top-5 step of the
    same iteration raises, and [eval_accuracy] reports nothing. *)
Lemma score_attention_needs_five_columns :
  mapM argmax (score_matrix (data Toy.artifact_4_2_4) 4 2 4 4) = Ok [0; 1; 2; 3]
  /\ score_attention 4 4 Toy.artifact_4_2_4 = Raise RuntimeError
  /\ fst (Toy.accuracy_run 4 4 4 Toy.artifact_4_2_4) = Raise RuntimeError.
Proof. repeat split; vm_compute; reflexivity. Qed.

(** A whole run on five rows and an artifact with five KB columns and one
    column of padding: the eleven layers [0, 3, ..., 30] each report top-1
    and top-5 accuracy 1. *)
Lemma eval_accuracy_example :
  fst (Toy.accuracy_run 5 5 5 Toy.artifact_5_2_6)
  = Ok (repeat (5 # 5, 5 # 5) 11,
        map (fun i => model_question_format_mapping Llama (kb_Q (Toy.toy_row i))
                      ++ " The purpose of it is 42")%string
            (seq 0 5)).
Proof. vm_compute; reflexivity. Qed.

End ScoringFacts.

(** ** Pruning, the echoed prompt and the answer after the question *)

Module TextFacts.
Import PyStr Format Regex Py Generation PyText.
Import PyStrFacts.
Local Open Scope string_scope.

Lemma contains_app_l (sub a b : string) :
  contains sub a = true -> contains sub (a ++ b) = true.
Proof.
  rewrite !contains_iff; intros [pre [post H]].
  exists pre, (post ++ b); now rewrite H, !append_assoc.
Qed.

Lemma contains_app_false (sub a b : string) :
  contains sub (a ++ b) = false ->
  contains sub a = false /\ contains sub b = false.
Proof.
  intros H. split.
  - destruct (contains sub a) eqn:E; [|reflexivity].
    now rewrite (contains_app_l _ _ b E) in H.
  - destruct (contains sub b) eqn:E; [|reflexivity].
    now rewrite (contains_app_r _ a _ E) in H.
Qed.

(** [replace] leaves a text without occurrence alone. *)
Lemma replace_go_absent (old new s : string) :
  contains old s = false -> replace_go old new 0 s = s.
Proof.
  induction s as [|c s IH]; intros H; [reflexivity|].
  cbn [contains] in H. apply orb_false_iff in H as [H1 H2].
  cbn [replace_go]. rewrite H1, (IH H2). reflexivity.
Qed.

Lemma replace_absent (old new s : string) :
  old <> "" -> contains old s = false -> replace old new s = s.
Proof.
  intros Hne H. destruct old as [|a old]; [congruence|].
  now apply replace_go_absent.
Qed.

(** X1: pruning is the identity on a text that holds none of the family's
    control markers. *)
Theorem prune_keeps_plain_text (m : family) (S : string) :
  (forall mk, In mk (markers m) -> contains mk S = false) ->
  model_prune_format_mapping m S = S.
Proof.
  intros H. destruct m; cbn [model_prune_format_mapping markers] in *.
  - unfold _prune_for_llama.
    rewrite (replace_absent "<|eot_id|>") by (try discriminate; apply H; simpl; tauto).
    rewrite (replace_absent "<|start_header_id|>assistant<|end_header_id|>")
      by (try discriminate; apply H; simpl; tauto).
    rewrite (replace_absent "<|start_header_id|>user<|end_header_id|>")
      by (try discriminate; apply H; simpl; tauto).
    apply replace_absent; [discriminate | apply H; simpl; tauto].
  - unfold _prune_for_phi3.
    rewrite (replace_absent "<|end|>") by (try discriminate; apply H; simpl; tauto).
    rewrite (replace_absent "<|assistant|>") by (try discriminate; apply H; simpl; tauto).
    apply replace_absent; [discriminate | apply H; simpl; tauto].
Qed.

(** An ordinary answer, for both families. *)
Lemma prune_keeps_plain_text_witness :
  model_prune_format_mapping Llama "The purpose of KBLaM is retrieval"
  = "The purpose of KBLaM is retrieval"
  /\ model_prune_format_mapping Phi3 "The purpose of KBLaM is retrieval"
     = "The purpose of KBLaM is retrieval".
Proof.
  split.
  - apply (prune_keeps_plain_text Llama).
    intros mk Hmk; simpl in Hmk.
    repeat (destruct Hmk as [<- | Hmk]; [vm_compute; reflexivity|]); contradiction.
  - apply (prune_keeps_plain_text Phi3).
    intros mk Hmk; simpl in Hmk.
    repeat (destruct Hmk as [<- | Hmk]; [vm_compute; reflexivity|]); contradiction.
Defined.

(** *** [split] and [find] *)

Lemma find_none_iff (sub s : string) :
  find sub s = None <-> contains sub s = false.
Proof.
  induction s as [|c s IH]; cbn [find contains].
  - destruct (starts_with sub ""); simpl; split; congruence.
  - destruct (starts_with sub (String c s)); simpl; [split; congruence|].
    rewrite <- IH. destruct (find sub s); simpl; split; congruence.
Qed.

(** The skip counter passes over as many characters as it counts. *)
Lemma split_go_skip (sep : string) (k : nat) (s : string) :
  split_go sep k s = split_go sep 0 (drop k s).
Proof.
  revert k; induction s as [|c s IH]; intros [|k]; try reflexivity.
  cbn [split_go drop]. apply IH.
Qed.

Lemma split_go_find (sep s : string) (n : nat) :
  sep <> "" -> find sep s = Some n ->
  split_go sep 0 s
  = (take n s,
     let (p, ps) := split_go sep 0 (drop (n + String.length sep) s) in p :: ps).
Proof.
  intros Hsep. revert n; induction s as [|c s IH]; intros n H; cbn [find] in H.
  - destruct sep as [|a sep]; [congruence | discriminate].
  - cbn [split_go]. destruct (starts_with sep (String c s)) eqn:E.
    + injection H as <-. cbn [take]. f_equal.
      rewrite split_go_skip.
      destruct sep as [|a sep]; [congruence|].
      cbn [String.length Nat.add Nat.sub drop]. now rewrite Nat.sub_0_r.
    + destruct (find sep s) as [n'|] eqn:F; [|discriminate].
      injection H as <-. rewrite (IH n' eq_refl).
      reflexivity.
Qed.

Lemma split_go_first_piece (sep s : string) :
  sep <> "" ->
  fst (split_go sep 0 s)
  = match find sep s with
    | Some m => take m s
    | None => s
    end.
Proof.
  intros Hsep. destruct (find sep s) as [m|] eqn:F.
  - now rewrite (split_go_find _ _ _ Hsep F).
  - apply find_none_iff in F. now rewrite (split_go_absent _ _ F).
Qed.

Lemma split_Q_1_at (output Q : string) (n : nat) :
  Q <> "" -> find Q output = Some n ->
  split_Q_1 output Q
  = Ok (let rest := drop (n + String.length Q) output in
        match find Q rest with
        | Some m => take m rest
        | None => rest
        end).
Proof.
  intros HQ H. unfold split_Q_1, split.
  destruct Q as [|a Q]; [congruence|].
  rewrite (split_go_find _ _ _ HQ H).
  pose proof (split_go_first_piece (String a Q)
                (drop (n + String.length (String a Q)) output) HQ) as Hp.
  destruct (split_go (String a Q) 0 (drop (n + String.length (String a Q)) output))
    as [p ps].
  cbn [rbind getitem nth_error]. simpl in Hp. now rewrite Hp.
Qed.

(** X3: when the (non-empty) question first occurs at position [n] of the
    generated text, [output.split(Q)[1]] is the text that follows this
    occurrence, cut at the next occurrence of the question if there is
    one. *)
Theorem split_Q_1_between (output Q : string) (n : nat) :
  Q <> "" -> find Q output = Some n ->
  split_Q_1 output Q
  = Ok (let rest := drop (n + String.length Q) output in
        match find Q rest with
        | Some m => take m rest
        | None => rest
        end).
Proof. apply split_Q_1_at. Qed.

(** A reply that repeats the question a second time: the answer is cut
    there. *)
Lemma split_Q_1_between_witness :
  split_Q_1 " Who? It is me. Who? You." "Who?" = Ok " It is me. ".
Proof.
  exact (split_Q_1_between " Who? It is me. Who? You." "Who?" 1
           ltac:(discriminate) eq_refl).
Defined.

(** *** The echoed prompt *)

Lemma prune_echo_llama (Q reply : string) :
  (forall mk, In mk (markers Llama) -> contains mk (Q ++ reply) = false) ->
  _prune_for_llama (_format_Q_llama Q ++ reply) = " " ++ Q ++ reply.
Proof.
  intros H.
  assert (H1 : contains "<|eot_id|>" (Q ++ reply) = false) by (apply H; simpl; tauto).
  assert (H2 : contains "<|start_header_id|>assistant<|end_header_id|>" (Q ++ reply)
               = false) by (apply H; simpl; tauto).
  assert (H3 : contains "<|start_header_id|>user<|end_header_id|>" (Q ++ reply) = false)
    by (apply H; simpl; tauto).
  assert (H4 : contains "<|end_of_text|>" (Q ++ reply) = false)
    by (apply H; simpl; tauto).
  destruct (contains_app_false _ _ _ H1) as [H1q H1r].
  destruct (contains_app_false _ _ _ H2) as [H2q H2r].
  unfold _prune_for_llama, _format_Q_llama, replace.
  cbn [String.append]. rewrite !append_assoc. cbn [String.append].
  FormatFacts.run_replace. f_equal.
  FormatFacts.pass_question H1q. rewrite (replace_go_absent _ _ _ H1r).
  FormatFacts.pass_question H2q. rewrite (replace_go_absent _ _ _ H2r).
  rewrite (replace_go_absent _ _ _ H3).
  apply (replace_go_absent _ _ _ H4).
Qed.

Lemma prune_echo_phi3 (Q reply : string) :
  (forall mk, In mk (markers Phi3) -> contains mk Q = false) ->
  (forall mk, In mk (markers Phi3) -> contains mk reply = false) ->
  _prune_for_phi3 (_format_Q_phi3 Q ++ reply)
  = newline ++ Q ++ (newline ++ newline) ++ reply.
Proof.
  intros H H'.
  assert (H1 : contains "<|end|>" Q = false) by (apply H; simpl; tauto).
  assert (H2 : contains "<|assistant|>" Q = false) by (apply H; simpl; tauto).
  assert (H3 : contains "<|user|>" Q = false) by (apply H; simpl; tauto).
  assert (H1r : contains "<|end|>" reply = false) by (apply H'; simpl; tauto).
  assert (H2r : contains "<|assistant|>" reply = false) by (apply H'; simpl; tauto).
  assert (H3r : contains "<|user|>" reply = false) by (apply H'; simpl; tauto).
  unfold _prune_for_phi3, _format_Q_phi3, replace, newline.
  cbn [String.append]. rewrite !append_assoc. cbn [String.append].
  FormatFacts.run_replace. f_equal.
  FormatFacts.pass_question H1. rewrite (replace_go_absent _ _ _ H1r).
  FormatFacts.pass_question H2. rewrite (replace_go_absent _ _ _ H2r).
  FormatFacts.pass_question H3. rewrite (replace_go_absent _ _ _ H3r).
  reflexivity.
Qed.

Lemma starts_with_self_app (a b : string) : starts_with a (a ++ b) = true.
Proof. apply starts_with_iff. now exists b. Qed.

Lemma drop_app_length (a b : string) : drop (String.length a) (a ++ b) = b.
Proof. induction a as [|c a IH]; [reflexivity | exact IH]. Qed.

(** The question follows a one-character residue it does not begin with:
    its first occurrence is at position 1. *)
Lemma find_after_residue (c : ascii) (Q post : string) :
  Q <> "" -> starts_with (String c "") Q = false ->
  find Q (String c (Q ++ post)) = Some 1.
Proof.
  intros HQ Hc. destruct Q as [|a Q]; [congruence|].
  cbn [find]. cbn [starts_with] in Hc |- *.
  rewrite Ascii.eqb_sym. destruct (Ascii.eqb c a); [discriminate|].
  destruct (String a Q ++ post) as [|b t] eqn:E; [discriminate|].
  cbn [find]. rewrite <- E, starts_with_self_app. reflexivity.
Qed.

(** X2: a generator that repeats the formatted prompt and then replies.
    When neither the question followed by the reply holds a control marker,
    nor the question begins with the residue the pruning leaves before it,
    nor the reply repeats the question, pruning leaves the question between
    the family's residues followed by the reply, and [split(Q)[1]] hands on
    exactly the residue after the question and the reply. *)
Theorem answer_after_echo (m : family) (Q reply : string) :
  Q <> "" ->
  (forall mk, In mk (markers m) -> contains mk (Q ++ reply) = false) ->
  starts_with (residue_before m) Q = false ->
  contains Q (residue_after m ++ reply) = false ->
  model_prune_format_mapping m (model_question_format_mapping m Q ++ reply)
  = residue_before m ++ Q ++ residue_after m ++ reply
  /\ split_Q_1
       (model_prune_format_mapping m (model_question_format_mapping m Q ++ reply)) Q
     = Ok (residue_after m ++ reply).
Proof.
  intros HQ Hfree Hstart Hrep.
  assert (E : model_prune_format_mapping m (model_question_format_mapping m Q ++ reply)
              = residue_before m ++ Q ++ residue_after m ++ reply).
  { destruct m; cbn [model_prune_format_mapping model_question_format_mapping
                     residue_before residue_after].
    - now rewrite (prune_echo_llama Q reply Hfree).
    - apply prune_echo_phi3; intros mk Hmk;
        apply (contains_app_false _ _ _ (Hfree mk Hmk)). }
  split; [exact E|]. rewrite E.
  assert (F : find Q (residue_before m ++ Q ++ residue_after m ++ reply) = Some 1).
  { destruct m; cbn [residue_before] in *; unfold newline in *;
      cbn [String.append]; now apply find_after_residue. }
  rewrite (split_Q_1_at _ _ _ HQ F).
  assert (D : drop (1 + String.length Q)
                (residue_before m ++ Q ++ residue_after m ++ reply)
              = residue_after m ++ reply).
  { destruct m; cbn [residue_before]; unfold newline; cbn [String.append Nat.add drop];
      apply drop_app_length. }
  rewrite D. cbv zeta.
  apply find_none_iff in Hrep. now rewrite Hrep.
Qed.

(** An echoing generator that answers a question of the synthetic dataset,
    for both families. *)
Lemma answer_after_echo_witness :
  split_Q_1
    (model_prune_format_mapping Llama
       (model_question_format_mapping Llama "What is the purpose of entity1?"
        ++ " The purpose of entity1 is task1"))
    "What is the purpose of entity1?"
  = Ok " The purpose of entity1 is task1"
  /\ split_Q_1
       (model_prune_format_mapping Phi3
          (model_question_format_mapping Phi3 "What is the purpose of entity1?"
           ++ "The purpose of entity1 is task1"))
       "What is the purpose of entity1?"
     = Ok (newline ++ newline ++ "The purpose of entity1 is task1").
Proof.
  split.
  - refine (proj2 (answer_after_echo Llama "What is the purpose of entity1?"
                     " The purpose of entity1 is task1" _ _ eq_refl eq_refl)).
    + discriminate.
    + intros mk Hmk; simpl in Hmk.
      repeat (destruct Hmk as [<- | Hmk]; [vm_compute; reflexivity|]); contradiction.
  - refine (proj2 (answer_after_echo Phi3 "What is the purpose of entity1?"
                     "The purpose of entity1 is task1" _ _ eq_refl eq_refl)).
    + discriminate.
    + intros mk Hmk; simpl in Hmk.
      repeat (destruct Hmk as [<- | Hmk]; [vm_compute; reflexivity|]); contradiction.
Defined.

End TextFacts.

(** ** The single-entity answer pattern on a well-formed answer *)

Module ExtractionFacts.
Import PyStr Regex PyText AnswerPattern.
Import PyStrFacts TextFacts.
Local Open Scope string_scope.

Section Greedy.
Variable X : Type.

Lemma star_greedy_first (p : ascii -> bool) (a s : string) (k : string -> option X) (x : X) :
  all_chars p a = true -> begins_with_class p s = false -> k s = Some x ->
  star_greedy p (a ++ s) k = Some x.
Proof.
  intros Ha Hs Hk. induction a as [|c a IH]; cbn [String.append star_greedy].
  - destruct s as [|c s]; [exact Hk|]. cbn [begins_with_class] in Hs.
    cbn [star_greedy]. now rewrite Hs.
  - cbn [all_chars] in Ha. apply andb_true_iff in Ha as [Hc Ha].
    now rewrite Hc, (IH Ha).
Qed.

Lemma star_greedy_none (p : ascii -> bool) (s : string) (k : string -> option X) :
  (forall s1 s2, s = s1 ++ s2 -> k s2 = None) -> star_greedy p s k = None.
Proof.
  induction s as [|c s IH]; intros H; cbn [star_greedy].
  - apply (H "" ""). reflexivity.
  - rewrite IH.
    + destruct (p c); apply (H "" (String c s)); reflexivity.
    + intros s1 s2 ->. apply (H (String c s1) s2). reflexivity.
Qed.

Lemma star_greedy_last (p : ascii -> bool) (a r : string) (k : string -> option X) (x : X) :
  all_chars p a = true -> k r = Some x ->
  (forall s1 s2, r = s1 ++ s2 -> s1 <> "" -> k s2 = None) ->
  star_greedy p (a ++ r) k = Some x.
Proof.
  intros Ha Hk Hlater. induction a as [|c a IH]; cbn [String.append star_greedy].
  - destruct r as [|c r]; [exact Hk|]. cbn [star_greedy].
    rewrite star_greedy_none.
    + now destruct (p c).
    + intros s1 s2 ->. apply (Hlater (String c s1) s2); [reflexivity | discriminate].
  - cbn [all_chars] in Ha. apply andb_true_iff in Ha as [Hc Ha].
    now rewrite Hc, (IH Ha).
Qed.

End Greedy.

Lemma word_is_not_space (c : ascii) : is_word c = true -> is_space c = false.
Proof.
  destruct c as [[] [] [] [] [] [] [] []]; vm_compute; intros H; first [reflexivity | discriminate H].
Qed.

Lemma take_all (s : string) : take (String.length s) s = s.
Proof. induction s as [|c s IH]; [reflexivity | simpl; now rewrite IH]. Qed.

Lemma search_none_suffix (r : regex) (s : string) :
  search r s = None -> forall s1 s2, s = s1 ++ s2 -> match_here r s2 = None.
Proof.
  intros H s1. revert s H. induction s1 as [|c s1 IH]; intros s H s2 ->.
  - cbn [String.append] in H. destruct s2 as [|c s2]; cbn [search] in H.
    + destruct (match_here r "") as [[cap rest]|]; [discriminate | reflexivity].
    + destruct (match_here r (String c s2)) as [[cap rest]|];
        [discriminate | reflexivity].
  - cbn [String.append search] in H.
    destruct (match_here r (String c (s1 ++ s2))) as [[cap rest]|]; [discriminate|].
    now apply (IH (s1 ++ s2)).
Qed.

Section Steps.
Variable X : Type.

Lemma run_str_app (lit : string) (r : regex) (s : string) (cap : option string)
  (k : string -> option string -> option X) :
  run (Cat (Str lit) r) (lit ++ s) cap k = run r s cap k.
Proof.
  cbn [run]. now rewrite starts_with_self_app, drop_app_length.
Qed.

Lemma plus_greedy_first (p : ascii -> bool) (a s : string) (k : string -> option X) (x : X) :
  a <> "" -> all_chars p a = true -> begins_with_class p s = false -> k s = Some x ->
  plus_greedy p (a ++ s) k = Some x.
Proof.
  intros Ha Hp Hs Hk. destruct a as [|c a]; [congruence|].
  cbn [all_chars] in Hp. apply andb_true_iff in Hp as [Hc Hp].
  cbn [String.append plus_greedy]. rewrite Hc. now apply star_greedy_first.
Qed.

Lemma plus_greedy_last (p : ascii -> bool) (a r : string) (k : string -> option X) (x : X) :
  a <> "" -> all_chars p a = true -> k r = Some x ->
  (forall s1 s2, r = s1 ++ s2 -> s1 <> "" -> k s2 = None) ->
  plus_greedy p (a ++ r) k = Some x.
Proof.
  intros Ha Hp Hk Hlater. destruct a as [|c a]; [congruence|].
  cbn [all_chars] in Hp. apply andb_true_iff in Hp as [Hc Hp].
  cbn [String.append plus_greedy]. rewrite Hc. now apply star_greedy_last.
Qed.

Lemma run_plus_first (p : ascii -> bool) (r : regex) (a s : string)
  (cap : option string) (k : string -> option string -> option X) (x : X) :
  a <> "" -> all_chars p a = true -> begins_with_class p s = false -> run r s cap k = Some x ->
  run (Cat (Plus p) r) (a ++ s) cap k = Some x.
Proof. intros. cbn [run]. now apply plus_greedy_first. Qed.

Lemma run_plus_last (p : ascii -> bool) (r : regex) (a s : string)
  (cap : option string) (k : string -> option string -> option X) (x : X) :
  a <> "" -> all_chars p a = true -> run r s cap k = Some x ->
  (forall s1 s2, s = s1 ++ s2 -> s1 <> "" -> run r s2 cap k = None) ->
  run (Cat (Plus p) r) (a ++ s) cap k = Some x.
Proof. intros. cbn [run]. now apply plus_greedy_last. Qed.

End Steps.

Lemma search_here (r : regex) (s : string) (cap : option string) (rest : string) :
  match_here r s = Some (cap, rest) -> search r s = Some (group1 cap).
Proof. intros H. destruct s; cbn [search]; now rewrite H. Qed.

Lemma tail_matches (d : string) (cap : option string) :
  d <> "" -> all_chars is_dot d = true -> leading_space d = false ->
  run pattern_is_tail (" is " ++ d) cap (fun rest c => Some (c, rest))
  = Some (Some d, "").
Proof.
  intros Hd Hdot Hlead.
  change pattern_is_tail
    with (Cat (Plus is_space)
            (Cat (Str "is") (Cat (Plus is_space) (Group (Plus is_dot))))).
  change (" is " ++ d) with (" " ++ ("is" ++ (" " ++ d))).
  apply run_plus_first; [discriminate | reflexivity | reflexivity |].
  rewrite run_str_app.
  apply run_plus_first; [discriminate | reflexivity | |].
  { exact Hlead. }
  cbn [run]. rewrite <- (append_nil_r d) at 1.
  apply plus_greedy_first; trivial.
  cbn [String.length]. now rewrite Nat.sub_0_r, take_all.
Qed.

(** X4: on a text that reads [The <property> of <name> is <description>]
    after a prefix without the letter T, the single-entity pattern captures
    the description, when the property is made of word characters, the name
    holds no double quote, the description holds no newline, neither name nor
    description begins with white space, and [\s+is\s+(.+)] matches nowhere
    further right.  The name may itself hold [ is ]: the capture starts after
    the last such place. *)
Theorem single_answer_extraction (pre p n d : string) :
  contains "T" pre = false ->
  p <> "" -> all_chars is_word p = true ->
  n <> "" -> all_chars is_not_dquote n = true -> leading_space n = false ->
  d <> "" -> all_chars is_dot d = true -> leading_space d = false ->
  search pattern_is_tail ("is " ++ d) = None ->
  search pattern_single (pre ++ "The " ++ p ++ " of " ++ n ++ " is " ++ d) = Some d.
Proof.
  intros Hpre Hp Hword Hn Hquote Hnlead Hd Hdot Hdlead Hlast.
  assert (Hm : match_here pattern_single ("The " ++ p ++ " of " ++ n ++ " is " ++ d)
               = Some (Some d, "")).
  { unfold match_here.
    change pattern_single
      with (Cat (Str "The")
             (Cat (Plus is_space)
               (Cat (Plus is_word)
                 (Cat (Plus is_space)
                   (Cat (Str "of")
                     (Cat (Plus is_space)
                       (Cat (Plus is_not_dquote) pattern_is_tail))))))).
    change ("The " ++ p ++ " of " ++ n ++ " is " ++ d)
      with ("The" ++ (" " ++ (p ++ (" " ++ ("of" ++ (" " ++ (n ++ (" is " ++ d)))))))).
    rewrite run_str_app.
    apply run_plus_first; [discriminate | reflexivity | |].
    { destruct p as [|pc p]; [congruence|]. cbn [all_chars] in Hword.
      apply andb_true_iff in Hword as [Hpc _]. now apply word_is_not_space. }
    apply run_plus_first; [exact Hp | exact Hword | reflexivity |].
    apply run_plus_first; [discriminate | reflexivity | reflexivity |].
    rewrite run_str_app.
    apply run_plus_first; [discriminate | reflexivity | |].
    { destruct n as [|nc n]; [congruence | exact Hnlead]. }
    apply run_plus_last; [exact Hn | exact Hquote | now apply tail_matches |].
    intros s1 s2 E Hs1. destruct s1 as [|c s1]; [congruence|].
    injection E as _ E.
    apply (search_none_suffix _ _ Hlast s1 s2 E). }
  revert Hm. generalize ("The " ++ p ++ " of " ++ n ++ " is " ++ d). intros t Hm.
  clear - Hpre Hm. induction pre as [|c pre IH].
  - cbn [String.append]. now apply search_here in Hm.
  - cbn [contains] in Hpre. apply orb_false_iff in Hpre as [Hc Hpre].
    cbn [String.append search].
    assert (Hno : match_here pattern_single (String c (pre ++ t)) = None).
    { unfold match_here, pattern_single. cbn [seq_of run].
      cbn [starts_with] in Hc |- *. now destruct (Ascii.eqb "T" c). }
    rewrite Hno. now apply IH.
Qed.

(** A name that holds [ is ]: the capture starts after the last one. *)
Lemma single_answer_extraction_witness :
  search pattern_single " The purpose of the thing that is new is to help"
  = Some "to help".
Proof.
  exact (single_answer_extraction " " "purpose" "the thing that is new" "to help"
           eq_refl ltac:(discriminate) eq_refl ltac:(discriminate) eq_refl eq_refl
           ltac:(discriminate) eq_refl eq_refl eq_refl).
Defined.

End ExtractionFacts.

(** ** [strip] *)

Module StripFacts.
Import PyStr Accuracy PyText.
Local Open Scope string_scope.

Lemma lstrip_spec (c : ascii) (s : string) :
  exists a, s = copies a c ++ lstrip c s
            /\ starts_with (String c "") (lstrip c s) = false.
Proof.
  induction s as [|b s [a [IH1 IH2]]].
  - now exists 0.
  - cbn [lstrip]. destruct (Ascii.eqb_spec b c) as [->|Hne].
    + exists (S a). split; [cbn [copies String.append]; now rewrite <- IH1 | exact IH2].
    + exists 0. split; [reflexivity|]. cbn [starts_with].
      destruct (Ascii.eqb_spec c b); [congruence | reflexivity].
Qed.

Lemma rstrip_spec (c : ascii) (s : string) :
  exists b, s = rstrip c s ++ copies b c /\ ends_with_char c (rstrip c s) = false.
Proof.
  induction s as [|x s [b [IH1 IH2]]].
  - now exists 0.
  - cbn [rstrip]. destruct (rstrip c s) as [|y r] eqn:E.
    + cbn [String.append] in IH1. destruct (Ascii.eqb_spec x c) as [->|Hne].
      * exists (S b). split; [cbn [copies String.append]; now rewrite <- IH1 | reflexivity].
      * exists b. split; [cbn [String.append]; now rewrite <- IH1|].
        cbn [ends_with_char]. destruct (Ascii.eqb_spec x c); [congruence | reflexivity].
    + exists b. split; [cbn [String.append] in *; now rewrite <- IH1 | exact IH2].
Qed.

Lemma rstrip_keeps_head (c : ascii) (s : string) :
  starts_with (String c "") s = false -> starts_with (String c "") (rstrip c s) = false.
Proof.
  destruct s as [|x s]; [trivial|]. cbn [rstrip starts_with].
  destruct (Ascii.eqb_spec c x) as [|Hne]; [discriminate|]. intros _.
  destruct (rstrip c s).
  - destruct (Ascii.eqb_spec x c); [congruence|]. cbn [starts_with].
    destruct (Ascii.eqb_spec c x); [congruence | reflexivity].
  - cbn [starts_with]. destruct (Ascii.eqb_spec c x); [congruence | reflexivity].
Qed.

Lemma strip_spec (c : ascii) (s : string) :
  exists a b,
    s = copies a c ++ strip c s ++ copies b c
    /\ starts_with (String c "") (strip c s) = false
    /\ ends_with_char c (strip c s) = false.
Proof.
  destruct (lstrip_spec c s) as [a [H1 H2]].
  destruct (rstrip_spec c (lstrip c s)) as [b [H3 H4]].
  exists a, b. unfold strip. split; [|split].
  - now rewrite <- H3.
  - now apply rstrip_keeps_head.
  - exact H4.
Qed.

End StripFacts.

(** ** Retrieval accuracy: the whole run *)

Module AccuracyRunFacts.
Import PyStr Format Collaborators Py Generation Accuracy PyText AccuracyCall.
Import MonadFacts RefusalFacts SubsetFacts ArrayFacts ArgmaxFacts ScoringFacts StripFacts.

Section AccuracyRun.
Context {C : Collab} {R : Rng} {Wt : Weight} {AC : AccuracyCollab C Wt}.

(** The steps of [eval_accuracy], read off a run that completed. *)
Lemma eval_accuracy_ok (exp_config : string) (fancy_question : bool)
  (kb_layer_frequency : Z) (kb_scale_factor : option Z) (kb_size : nat)
  (llm_type : family) (test_batch_size : nat) (attn_save_dir : string)
  (dataset : list KBEntry) (w w' : world) (accs : list (Q * Q)) (lines : list string) :
  eval_accuracy exp_config fancy_question kb_layer_frequency kb_scale_factor
    kb_size llm_type test_batch_size attn_save_dir dataset w = (Ok (accs, lines), w') ->
  exists subset_idx w1 dataset_subset input_strs outputs,
    dataset_subset_idx (List.length dataset) kb_size w = (Ok subset_idx, w1)
    /\ mapM (getitem dataset) subset_idx = Ok dataset_subset
    /\ mapM (input_str llm_type fancy_question dataset_subset) (seq 0 test_batch_size)
       = Ok input_strs
    /\ model_generate (generate_call exp_config attn_save_dir (get_kb_embd subset_idx)
                         input_strs) = Ok outputs
    /\ w' = World C R (w_rng w1)
              (generate_call exp_config attn_save_dir (get_kb_embd subset_idx) input_strs
               :: w_calls w1)
    /\ score_layers
         (saved_files (generate_call exp_config attn_save_dir (get_kb_embd subset_idx)
                         input_strs))
         attn_save_dir exp_config
         (if (kb_layer_frequency =? -1)%Z then 3%Z else kb_layer_frequency)
         kb_size test_batch_size = Ok accs
    /\ lines = map (strip "^") (tokenizer_batch_decode outputs).
Proof.
  unfold eval_accuracy. intros H.
  apply bind_ok_inv in H as [subset_idx [w1 [Hidx H]]].
  apply bind_ok_inv in H as [dataset_subset [w2 [Hrows H]]].
  apply lift_ok_inv in Hrows as [Hrows ->].
  apply bind_ok_inv in H as [input_strs [w3 [Hin H]]].
  apply lift_ok_inv in Hin as [Hin ->].
  exists subset_idx, w1, dataset_subset, input_strs.
  unfold generate_call.
  destruct (tokenizer_call input_strs) as [ids mask] eqn:Etok. cbn [fst snd].
  apply bind_ok_inv in H as [outputs [w4 [Hgen H]]].
  unfold generate in Hgen. injection Hgen as Hgen <-.
  apply bind_ok_inv in H as [accs0 [w5 [Hacc H]]].
  apply lift_ok_inv in Hacc as [Hacc ->].
  apply ret_ok_inv in H as [H ->]. injection H as -> ->.
  exists outputs. repeat split; assumption.
Qed.
End AccuracyRun.

Section AccuracyRun2.
Context {C : Collab} {R : Rng} {Wt : Weight} {AC : AccuracyCollab C Wt}.

Lemma dataset_subset_idx_calls (dataset_len kb_size : nat) (w w1 : world)
  (idx : list nat) :
  dataset_subset_idx dataset_len kb_size w = (Ok idx, w1) -> w_calls w1 = w_calls w.
Proof.
  unfold dataset_subset_idx.
  destruct (kb_size =? dataset_len).
  - intros H. now apply ret_ok_inv in H as [_ ->].
  - destruct (dataset_len <? kb_size); [discriminate|].
    unfold choice_no_replace. intros H.
    apply bind_ok_inv in H as [perm [w2 [Hs H]]].
    apply shuffle_ok_inv in Hs as [_ Hs].
    now apply ret_ok_inv in H as [_ ->].
Qed.

Lemma py_range_layers (f : Z) (layers : list nat) :
  py_range 32 f = Ok layers ->
  f <> 0%Z
  /\ List.length layers = layer_count f
  /\ forall j idx, nth_error layers j = Some idx ->
                   idx = j * Z.to_nat f /\ idx < 32.
Proof.
  unfold py_range, layer_count.
  destruct (Z.eqb_spec f 0) as [->|Hne]; [discriminate|].
  destruct (Z.ltb_spec f 0) as [Hneg|Hpos]; intros H; injection H as <-.
  - split; [exact Hne|]. split; [reflexivity|]. intros [|j] idx Hj; discriminate.
  - split; [exact Hne|]. split; [now rewrite length_map, length_seq|].
    intros j idx Hj.
    apply (nth_error_map_seq (fun i => i * Z.to_nat f)) in Hj as [-> Hj].
    split; [reflexivity|].
    assert (Hf : 0 < Z.to_nat f) by lia.
    pose proof (Nat.Div0.mul_div_le (32 + Z.to_nat f - 1) (Z.to_nat f)) as Hd.
    set (F := Z.to_nat f) in *. set (q := (32 + F - 1) / F) in *.
    assert (Hq : S j <= q) by exact Hj.
    apply (Nat.mul_le_mono_l _ _ F) in Hq. lia.
Qed.

(** X13: a run of [eval_accuracy] that completes reports one pair per
    layer index [0, f, 2f, ...] below 32, where [f] is [kb_layer_frequency]
    with [-1] standing for 3 (eleven layers); [f] is not zero; a negative
    [f] scores no layer.  Pair [j] is computed from the artifact that the
    one call of [model.generate] saved under
    [attn_save_dir/{exp_config}_{j*f}.npy]. *)
Theorem eval_accuracy_layers (exp_config : string) (fancy_question : bool)
  (kb_layer_frequency : Z) (kb_scale_factor : option Z) (kb_size : nat)
  (llm_type : family) (test_batch_size : nat) (attn_save_dir : string)
  (dataset : list KBEntry) (w w' : world) (accs : list (Q * Q)) (lines : list string) :
  eval_accuracy exp_config fancy_question kb_layer_frequency kb_scale_factor
    kb_size llm_type test_batch_size attn_save_dir dataset w = (Ok (accs, lines), w') ->
  let f := if (kb_layer_frequency =? -1)%Z then 3%Z else kb_layer_frequency in
  f <> 0%Z
  /\ List.length accs = layer_count f
  /\ (kb_layer_frequency = (-1)%Z \/ kb_layer_frequency = 3%Z -> List.length accs = 11)
  /\ exists call,
      w_calls w' = call :: w_calls w
      /\ forall j pair,
          nth_error accs j = Some pair ->
          j * Z.to_nat f < 32
          /\ exists artifact,
              saved_files call
                (path_join attn_save_dir
                   (exp_config ++ "_" ++ str_of_nat (j * Z.to_nat f) ++ ".npy")%string)
              = Some artifact
              /\ score_attention kb_size test_batch_size artifact = Ok pair.
Proof.
  intros H f.
  apply eval_accuracy_ok in H
    as [idx [w1 [rows [strs [outputs [Hidx [Hrows [Hstrs [Hgen [-> [Hacc _]]]]]]]]]]].
  fold f in Hacc.
  apply score_layers_each in Hacc as [layers [Hl [Hlen Heach]]].
  apply py_range_layers in Hl as [Hne [Hcount Hlayers]].
  split; [exact Hne|]. split; [congruence|]. split.
  { intros [E|E]; rewrite Hlen, Hcount; subst f; rewrite E; reflexivity. }
  eexists. split.
  { cbn [w_calls]. now rewrite (dataset_subset_idx_calls _ _ _ _ _ Hidx). }
  intros j pair Hj.
  destruct (nth_error layers j) as [layer|] eqn:El.
  2:{ apply nth_error_None in El.
      assert (Hlt : j < List.length accs) by (apply nth_error_Some; congruence). lia. }
  destruct (Hlayers j layer El) as [-> Hlt]. split; [exact Hlt|].
  destruct (Heach j _ El) as [artifact [pair' [Hfile [Hscore Hnth]]]].
  exists artifact. split; [exact Hfile|]. congruence.
Qed.

End AccuracyRun2.

Lemma mapM_raise_at {A B : Type} (f : A -> result B) (pre : list A) (x : A)
  (post : list A) (e : exn) :
  (forall y, In y pre -> exists z, f y = Ok z) -> f x = Raise e ->
  mapM f (pre ++ x :: post) = Raise e.
Proof.
  intros Hpre Hx. induction pre as [|y pre IH]; cbn [app mapM].
  - now rewrite Hx.
  - destruct (Hpre y (or_introl eq_refl)) as [z ->]. cbn [rbind].
    rewrite IH; [reflexivity|]. intros; apply Hpre; now right.
Qed.

Section AccuracyBatch.
Context {C : Collab} {R : Rng} {L : RngLaws R}.
Context {Wt : Weight} {AC : AccuracyCollab C Wt}.

(** The KB subset of a run whose KB fits the dataset. *)
Lemma dataset_subset_rows (dataset : list KBEntry) (kb_size : nat) (w : world) :
  kb_size <= List.length dataset ->
  exists idx w1 rows,
    dataset_subset_idx (List.length dataset) kb_size w = (Ok idx, w1)
    /\ w_calls w1 = w_calls w
    /\ NoDup idx
    /\ mapM (getitem dataset) idx = Ok rows
    /\ List.length rows = kb_size.
Proof.
  intros Hfit.
  assert (Hidx : exists idx w1,
             dataset_subset_idx (List.length dataset) kb_size w = (Ok idx, w1)
             /\ List.length idx = kb_size /\ NoDup idx
             /\ (forall i, In i idx -> i < List.length dataset)).
  { unfold dataset_subset_idx.
    destruct (Nat.eqb_spec kb_size (List.length dataset)) as [E|Hne].
    - exists (seq 0 (List.length dataset)), w. split; [reflexivity|].
      split; [rewrite length_seq; congruence|]. split; [apply seq_NoDup|].
      intros i Hi. apply in_seq in Hi. lia.
    - destruct (Nat.ltb_spec (List.length dataset) kb_size) as [|_]; [lia|].
      unfold choice_no_replace, bind, shuffle, ret.
      pose proof (shuffle_perm (w_rng w) (seq 0 (List.length dataset))) as Hperm.
      destruct (np_random_shuffle (w_rng w) (seq 0 (List.length dataset)))
        as [perm st]. simpl in Hperm.
      eexists; eexists; split; [reflexivity|]. split; [|split].
      + rewrite length_firstn, (Permutation_length Hperm), length_seq. lia.
      + apply firstn_NoDup, (Permutation_NoDup (Permutation_sym Hperm)), seq_NoDup.
      + intros i Hi.
        apply firstn_incl_in, (Permutation_in _ Hperm), in_seq in Hi. lia. }
  destruct Hidx as [idx [w1 [Hrun [Hlen [Hnd Hin]]]]].
  destruct (mapM_ok_forall (getitem dataset) idx) as [rows Hrows].
  { intros i Hi. unfold getitem.
    destruct (nth_error dataset i) as [row|] eqn:E; [now exists row|].
    apply nth_error_None in E. specialize (Hin i Hi). lia. }
  exists idx, w1, rows. repeat split; try assumption.
  - exact (dataset_subset_idx_calls _ _ _ _ _ Hrun).
  - now rewrite (mapM_length _ _ _ Hrows).
Qed.

(** X12: for a KB that fits the dataset, [eval_accuracy] takes the
    prompts from the first [test_batch_size] rows of the KB subset.  A batch
    larger than the KB raises [IndexError] before [model.generate] is
    called; a batch within the KB leads to exactly one call, whose prompts
    are the formatted questions of the first [test_batch_size] rows of a
    subset taken at distinct dataset indices. *)
Theorem batch_within_kb (exp_config : string) (fancy_question : bool)
  (kb_layer_frequency : Z) (kb_scale_factor : option Z) (kb_size : nat)
  (llm_type : family) (test_batch_size : nat) (attn_save_dir : string)
  (dataset : list KBEntry) (w : world) :
  kb_size <= List.length dataset ->
  (kb_size < test_batch_size ->
   exists w1,
     eval_accuracy exp_config fancy_question kb_layer_frequency kb_scale_factor
       kb_size llm_type test_batch_size attn_save_dir dataset w
     = (Raise IndexError, w1)
     /\ w_calls w1 = w_calls w)
  /\ (test_batch_size <= kb_size ->
      exists subset_idx dataset_subset input_strs,
        NoDup subset_idx
        /\ mapM (getitem dataset) subset_idx = Ok dataset_subset
        /\ List.length input_strs = test_batch_size
        /\ (forall i s,
              nth_error input_strs i = Some s ->
              exists row,
                nth_error dataset_subset i = Some row
                /\ s = model_question_format_mapping llm_type
                         (if fancy_question then aug_row row else kb_Q row))
        /\ w_calls (snd (eval_accuracy exp_config fancy_question kb_layer_frequency
                           kb_scale_factor kb_size llm_type test_batch_size
                           attn_save_dir dataset w))
           = generate_call exp_config attn_save_dir (get_kb_embd subset_idx) input_strs
             :: w_calls w).
Proof.
  intros Hfit.
  destruct (dataset_subset_rows dataset kb_size w Hfit)
    as [idx [w1 [rows [Hidx [Hcalls [Hnd [Hrows Hlen]]]]]]].
  split.
  - intros Hbig. exists w1. split; [|exact Hcalls].
    unfold eval_accuracy, bind. rewrite Hidx. unfold lift at 1. rewrite Hrows.
    unfold lift at 1.
    change (fun i : nat =>
              row <- getitem rows i ;;
              Ok (model_question_format_mapping llm_type
                    (if fancy_question then aug_row row else kb_Q row)))
      with (input_str llm_type fancy_question rows).
    assert (Hsplit : seq 0 test_batch_size
                     = seq 0 kb_size ++ kb_size :: seq (S kb_size) (test_batch_size - S kb_size)).
    { replace test_batch_size with (kb_size + S (test_batch_size - S kb_size)) at 1 by lia.
      rewrite seq_app. reflexivity. }
    rewrite Hsplit, (mapM_raise_at _ _ _ _ IndexError); [reflexivity | |].
    + intros i Hi. apply in_seq in Hi. unfold input_str, getitem.
      destruct (nth_error rows i) as [row|] eqn:E; [cbn [rbind]; eauto|].
      apply nth_error_None in E. lia.
    + unfold input_str, getitem.
      destruct (nth_error rows kb_size) as [row|] eqn:E; [|reflexivity].
      assert (kb_size < List.length rows) by (apply nth_error_Some; congruence). lia.
  - intros Hsmall.
    destruct (mapM_ok_forall (input_str llm_type fancy_question rows)
                (seq 0 test_batch_size)) as [strs Hstrs].
    { intros i Hi. apply in_seq in Hi. unfold input_str, getitem.
      destruct (nth_error rows i) as [row|] eqn:E; [cbn [rbind]; eauto|].
      apply nth_error_None in E. lia. }
    exists idx, rows, strs. split; [exact Hnd|]. split; [exact Hrows|].
    split; [now rewrite (mapM_length _ _ _ Hstrs), length_seq|]. split.
    + intros i s Hi.
      assert (Hlt : i < test_batch_size).
      { rewrite <- (length_seq test_batch_size 0), <- (mapM_length _ _ _ Hstrs).
        apply nth_error_Some; congruence. }
      destruct (mapM_nth _ _ _ Hstrs i i) as [s' [Hs' Hf]].
      { rewrite nth_error_seq. destruct (Nat.ltb_spec i test_batch_size); [reflexivity|lia]. }
      rewrite Hi in Hs'. injection Hs' as <-.
      unfold input_str, getitem in Hf.
      destruct (nth_error rows i) as [row|]; [|discriminate].
      cbn [rbind] in Hf. injection Hf as <-. now exists row.
    + unfold eval_accuracy, bind. rewrite Hidx. unfold lift at 1. rewrite Hrows.
      unfold lift at 1.
      change (fun i : nat =>
                row <- getitem rows i ;;
                Ok (model_question_format_mapping llm_type
                      (if fancy_question then aug_row row else kb_Q row)))
        with (input_str llm_type fancy_question rows).
      rewrite Hstrs. unfold generate_call.
      destruct (tokenizer_call strs) as [ids mask]. cbn [fst snd].
      unfold generate.
      destruct (model_generate _) as [outputs|e]; cbn [snd w_calls]; [|now rewrite Hcalls].
      unfold lift. destruct (score_layers _ _ _ _ _ _); cbn [snd w_calls ret];
        now rewrite Hcalls.
Qed.

End AccuracyBatch.

Section AccuracyLines.
Context {C : Collab} {R : Rng} {Wt : Weight} {AC : AccuracyCollab C Wt}.

(** X15: every line [eval_accuracy] hands to the text file is a
    decoded output without the pad characters [^] at its two ends: the
    output is the line between two runs of [^], and the line neither begins
    nor ends with [^]; there is one line per decoded output, in order. *)
Theorem transcript_lines_stripped (exp_config : string) (fancy_question : bool)
  (kb_layer_frequency : Z) (kb_scale_factor : option Z) (kb_size : nat)
  (llm_type : family) (test_batch_size : nat) (attn_save_dir : string)
  (dataset : list KBEntry) (w w' : world) (accs : list (Q * Q)) (lines : list string) :
  eval_accuracy exp_config fancy_question kb_layer_frequency kb_scale_factor
    kb_size llm_type test_batch_size attn_save_dir dataset w = (Ok (accs, lines), w') ->
  exists call outputs,
    w_calls w' = call :: w_calls w
    /\ model_generate call = Ok outputs
    /\ Forall2
         (fun output line =>
            exists a b,
              output = (copies a "^" ++ line ++ copies b "^")%string
              /\ starts_with "^" line = false
              /\ ends_with_char "^" line = false)
         (tokenizer_batch_decode outputs) lines.
Proof.
  intros H.
  apply eval_accuracy_ok in H
    as [idx [w1 [rows [strs [outputs [Hidx [Hrows [Hstrs [Hgen [-> [Hacc ->]]]]]]]]]]].
  eexists. exists outputs. split.
  { cbn [w_calls]. now rewrite (dataset_subset_idx_calls _ _ _ _ _ Hidx). }
  split; [exact Hgen|].
  induction (tokenizer_batch_decode outputs) as [|out outs IH]; cbn [map];
    constructor; [|exact IH].
  apply strip_spec.
Qed.

End AccuracyLines.

Lemma pos_of_nat_Z (n : nat) : 0 < n -> Z.pos (Pos.of_nat n) = Z.of_nat n.
Proof.
  destruct n as [|n]; [lia|]. intros _.
  rewrite <- Pos.of_nat_succ, Zpos_P_of_succ_nat. lia.
Qed.

Lemma mean_bool_range (bs : list bool) : (0 <= mean_bool bs)%Q /\ (mean_bool bs <= 1)%Q.
Proof.
  unfold mean_bool, Qle. cbn [Qnum Qden].
  pose proof (filter_length_le (fun b : bool => b) bs) as Hle.
  destruct bs as [|b bs].
  - cbn. lia.
  - rewrite pos_of_nat_Z by (cbn [List.length]; lia). lia.
Qed.

Lemma mean_bool_le (xs ys : list bool) :
  List.length xs = List.length ys ->
  List.length (filter (fun b => b) xs) <= List.length (filter (fun b => b) ys) ->
  (mean_bool xs <= mean_bool ys)%Q.
Proof.
  intros Hlen Hcount. unfold mean_bool, Qle. cbn [Qnum Qden]. rewrite Hlen.
  apply Z.mul_le_mono_nonneg_r; lia.
Qed.

Section TopFive.
Context {Wt : Weight} {WL : WeightLaws Wt}.

Lemma topk_ok_length (k : nat) (v : list weight) (l : list nat) :
  topk k v = Ok l -> k <= List.length v.
Proof.
  unfold topk. destruct (Nat.ltb_spec (List.length v) k); [discriminate | lia].
Qed.

(** Row by row, a right top-1 prediction is among the top five. *)
Lemma hits_top1_top5 (scores : list (list weight)) :
  (forall row, In row scores -> exists i, peak_at row i) ->
  forall (predictions : list nat) (tops : list (list nat)) (label : list nat),
    mapM argmax scores = Ok predictions ->
    mapM (topk 5) scores = Ok tops ->
    List.length (filter (fun b => b)
                   (map (fun '(p, l) => p =? l) (combine predictions label)))
    <= List.length (filter (fun b => b)
                      (map (fun '(ps, l) => existsb (Nat.eqb l) ps)
                           (combine tops label))).
Proof.
  induction scores as [|row scores IH]; intros Hpeak predictions tops label Hp Ht.
  - injection Hp as <-. simpl. lia.
  - cbn [mapM] in Hp, Ht.
    apply rbind_ok_inv in Hp as [p [Hp1 Hp]].
    apply rbind_ok_inv in Hp as [ps' [Hp2 Hp]]. injection Hp as <-.
    apply rbind_ok_inv in Ht as [t [Ht1 Ht]].
    apply rbind_ok_inv in Ht as [ts' [Ht2 Ht]]. injection Ht as <-.
    destruct label as [|l label]; [simpl; lia|].
    specialize (IH (fun r Hr => Hpeak r (or_intror Hr)) ps' ts' label Hp2 Ht2).
    cbn [combine map filter].
    destruct (Hpeak row (or_introl eq_refl)) as [i Hi].
    rewrite (argmax_peak row i Hi) in Hp1. injection Hp1 as <-.
    destruct (topk_peak 5 row i ltac:(lia) (topk_ok_length _ _ _ Ht1) Hi)
      as [t' [Ht' Hin]].
    rewrite Ht' in Ht1. injection Ht1 as ->.
    destruct (Nat.eqb_spec i l) as [->|Hne].
    + assert (E : existsb (Nat.eqb l) t = true).
      { apply existsb_exists. exists l. split; [exact Hin | apply Nat.eqb_refl]. }
      rewrite E. cbn [List.length]. lia.
    + destruct (existsb (Nat.eqb l) t); cbn [List.length]; lia.
Qed.

(** X14: when every score vector has a strict maximum, the reported
    top-5 accuracy is at least the top-1 accuracy, and both lie between 0
    and 1. *)
Theorem top5_at_least_top1 (kb_size test_batch_size : nat) (artifact t : ndarray)
  (w : list (list (list weight))) (acc top_5_acc : Q) :
  truncate_last kb_size artifact = Ok t ->
  reshape3 test_batch_size kb_size t = Ok w ->
  (forall row, In row (sum_axis1 kb_size w) -> exists i, peak_at row i) ->
  score_attention kb_size test_batch_size artifact = Ok (acc, top_5_acc) ->
  (0 <= acc)%Q /\ (acc <= top_5_acc)%Q /\ (top_5_acc <= 1)%Q.
Proof.
  intros Ht Hw Hpeak H. unfold score_attention in H.
  rewrite Ht in H. cbn [rbind] in H. rewrite Hw in H. cbn [rbind] in H.
  apply rbind_ok_inv in H as [predictions [Hp H]].
  apply rbind_ok_inv in H as [tops [Htops H]].
  injection H as <- <-.
  split; [apply mean_bool_range|]. split; [|apply mean_bool_range].
  apply mean_bool_le.
  - rewrite !length_map, !length_combine.
    now rewrite (mapM_length _ _ _ Hp), (mapM_length _ _ _ Htops).
  - now apply hits_top1_top5 with (scores := sum_axis1 kb_size w).
Qed.

End TopFive.

(** A run on five rows with the default layer frequency. *)
Lemma eval_accuracy_layers_witness :
  match fst (Toy.accuracy_run 5 5 5 Toy.artifact_5_2_6) with
  | Ok (accs, _) => List.length accs = 11
  | Raise _ => False
  end.
Proof.
  destruct (Toy.accuracy_run 5 5 5 Toy.artifact_5_2_6) as [[[accs lines]|e] w'] eqn:E;
    cbn [fst].
  - exact (proj1 (proj2 (proj2 (eval_accuracy_layers _ _ _ _ _ _ _ _ _ _ _ _ _ E)))
             (or_intror eq_refl)).
  - assert (Hok : is_ok (fst (Toy.accuracy_run 5 5 5 Toy.artifact_5_2_6)) = true)
      by (vm_compute; reflexivity).
    rewrite E in Hok. discriminate Hok.
Defined.


(** A batch of five prompts on a KB of three rows. *)
Lemma batch_within_kb_witness :
  exists w1,
    Toy.accuracy_run 5 3 5 Toy.artifact_5_2_6 = (Raise IndexError, w1)
    /\ w_calls w1 = [].
Proof.
  exact (proj1 (batch_within_kb (L := ToyFacts.toy_rng_laws)
                  (AC := Toy.toy_sink (Toy.toy_collab true " The purpose of it is 42")
                           Toy.artifact_5_2_6)
                  "accuracy_results" false 3 None 3 Llama 5 "attn"
                  (Toy.toy_dataset 5) Toy.toy_world
                  ltac:(simpl; lia))
           ltac:(lia)).
Defined.


(** The lines of a run on five rows. *)
Lemma transcript_lines_stripped_witness :
  exists call outputs,
    w_calls (snd (Toy.accuracy_run 5 5 5 Toy.artifact_5_2_6)) = [call]
    /\ Toy.toy_generate true " The purpose of it is 42" call = Ok outputs
    /\ Forall2
         (fun output line =>
            exists a b,
              output = (copies a "^" ++ line ++ copies b "^")%string
              /\ starts_with "^" line = false
              /\ ends_with_char "^" line = false)
         outputs
         (match fst (Toy.accuracy_run 5 5 5 Toy.artifact_5_2_6) with
          | Ok (_, lines) => lines
          | Raise _ => []
          end).
Proof.
  destruct (Toy.accuracy_run 5 5 5 Toy.artifact_5_2_6) as [[[accs lines]|e] w'] eqn:E;
    cbn [fst snd].
  - exact (transcript_lines_stripped _ _ _ _ _ _ _ _ _ _ _ _ _ E).
  - assert (Hok : is_ok (fst (Toy.accuracy_run 5 5 5 Toy.artifact_5_2_6)) = true)
      by (vm_compute; reflexivity).
    rewrite E in Hok. discriminate Hok.
Defined.

(** The artifact of shape [[5, 2, 6]]: each of its five score vectors has a
    strict maximum. *)
Lemma top5_at_least_top1_witness :
  match score_attention 5 5 Toy.artifact_5_2_6 with
  | Ok (acc, top_5_acc) => (0 <= acc)%Q /\ (acc <= top_5_acc)%Q /\ (top_5_acc <= 1)%Q
  | Raise _ => False
  end.
Proof.
  destruct (score_attention 5 5 Toy.artifact_5_2_6) as [[acc top5]|e] eqn:E.
  - destruct (truncate_last 5 Toy.artifact_5_2_6) as [t|] eqn:Et; [|discriminate Et].
    destruct (reshape3 5 5 t) as [w|] eqn:Ew.
    2:{ vm_compute in Et. injection Et as <-. discriminate Ew. }
    refine (top5_at_least_top1 (WL := QWeight_laws) 5 5 Toy.artifact_5_2_6 t w acc top5
              Et Ew _ E).
    vm_compute in Et. injection Et as <-. vm_compute in Ew. injection Ew as <-.
    intros row Hrow. vm_compute in Hrow.
    assert (Hpk : forall i p v,
               nth_error v i = Some p ->
               forallb (fun '(k, x) => (k =? i) || Toy.Qltb x p)
                       (combine (seq 0 (List.length v)) v) = true ->
               @peak_at Toy.QWeight v i).
    { intros i p v Hp Hall. exists p. split; [exact Hp|].
      intros k x Hk Hne. rewrite forallb_forall in Hall.
      assert (Hin : In (k, x) (combine (seq 0 (List.length v)) v)).
      { apply nth_error_In with (n := k).
        now apply (nth_error_indexed_some (Wt := Toy.QWeight) v 0 k x). }
      apply Hall in Hin. apply orb_true_iff in Hin as [Hin|Hin]; [|exact Hin].
      apply Nat.eqb_eq in Hin. contradiction. }
    destruct Hrow as [<-|[<-|[<-|[<-|[<-|[]]]]]];
      [exists 0 | exists 1 | exists 2 | exists 3 | exists 4];
      (eapply Hpk; [reflexivity | vm_compute; reflexivity]).
  - assert (Hok : is_ok (score_attention 5 5 Toy.artifact_5_2_6) = true)
      by (vm_compute; reflexivity).
    rewrite E in Hok. discriminate Hok.
Defined.


End AccuracyRunFacts.

(** ** The generation and refusal loops as a whole *)

Module LoopFacts.
Import PyStr Format Regex Collaborators Driver Py Generation Refusal PyText LoopState.
Import PyStrFacts DriverFacts MonadFacts GenerationFacts RefusalFacts.

Section LoopFacts.
Context {C : Collab} {R : Rng}.

Lemma bind_ext {A B : Type} (m : M A) (f g : A -> M B) (w : world) :
  (forall a w1, f a w1 = g a w1) -> bind m f w = bind m g w.
Proof.
  intros H. unfold bind. destruct (m w) as [[a|e] w1]; [apply H | reflexivity].
Qed.

Lemma for_each_ext {A S : Type} (body1 body2 : S -> A -> M S) (xs : list A) :
  (forall s x w, body1 s x w = body2 s x w) ->
  forall s w, for_each body1 xs s w = for_each body2 xs s w.
Proof.
  intros H. induction xs as [|x xs IH]; intros s w; cbn [for_each]; [reflexivity|].
  unfold bind. rewrite H. destruct (body2 s x w) as [[s'|e] w1]; [apply IH | reflexivity].
Qed.

(** A property of the loop state that every completed iteration keeps. *)
Lemma for_each_invariant {A S : Type} (P : S -> Prop) (body : S -> A -> M S)
  (xs : list A) :
  (forall s x w s' w', P s -> body s x w = (Ok s', w') -> P s') ->
  forall s w s' w', P s -> for_each body xs s w = (Ok s', w') -> P s'.
Proof.
  intros Hbody. induction xs as [|x xs IH]; intros s w s' w' Hs H; cbn [for_each] in H.
  - now apply ret_ok_inv in H as [-> _].
  - apply bind_ok_inv in H as [s1 [w1 [H1 H]]].
    apply (IH s1 w1 s' w'); [|exact H]. now apply (Hbody s x w s1 w1).
Qed.

(** [np.random.seed] accepts the seeds of [0, 2**32 - 1] and no other. *)
Lemma seed_rng_accepts (seed : Z) (w : world) :
  (0 <= seed < 2 ^ 32)%Z ->
  seed_rng seed w = (Ok tt, World C R (np_random_seed seed) (w_calls w)).
Proof.
  intros [H1 H2]. unfold seed_rng.
  destruct (Z.leb_spec 0 seed); [|lia]. destruct (Z.ltb_spec seed (2 ^ 32)); [|lia].
  reflexivity.
Qed.

Lemma seed_rng_refuses (seed : Z) (w : world) :
  (seed < 0 \/ 2 ^ 32 <= seed)%Z -> seed_rng seed w = (Raise ValueError, w).
Proof.
  intros H. unfold seed_rng.
  destruct (Z.leb_spec 0 seed); [|reflexivity].
  destruct (Z.ltb_spec seed (2 ^ 32)); [lia | reflexivity].
Qed.

Lemma bind_seed_accepts {A : Type} (seed : Z) (k : unit -> M A) (w : world) :
  (0 <= seed < 2 ^ 32)%Z ->
  bind (seed_rng seed) k w = k tt (World C R (np_random_seed seed) (w_calls w)).
Proof. intros H. unfold bind. now rewrite (seed_rng_accepts _ _ H). Qed.

Lemma bind_seed_refuses {A : Type} (seed : Z) (k : unit -> M A) (w : world) :
  (seed < 0 \/ 2 ^ 32 <= seed)%Z ->
  bind (seed_rng seed) k w = (Raise ValueError, w).
Proof. intros H. unfold bind. now rewrite (seed_rng_refuses _ _ H). Qed.

(** Drawing at least one index from an empty range is refused. *)
Lemma randint_empty_range (size : nat) (w : world) :
  0 < size -> randint 0 size w = (Raise ValueError, w).
Proof.
  intros H. unfold randint. destruct (Nat.eqb_spec size 0); [lia | reflexivity].
Qed.


(** X8: [perform_eval] and [perform_eval_refusal] return the same
    result and leave the same state whatever [kb_layer_frequency],
    [topk_size] and [kb_scale_factor] they are given: the three parameters
    are handed to [answer_question], which uses none of them. *)
Theorem unused_generation_parameters (model : family) (dataset : list KBEntry)
  (mode : eval_mode) (kb_layer_frequency kb_layer_frequency' : Z) (kb_size : nat)
  (seed : Z) (topk_size topk_size' kb_scale_factor kb_scale_factor' : option Z)
  (multi_entites : Z) (remove_sorry : bool) (outlier_ratio : float)
  (question_size : nat) (w : world) :
  perform_eval model dataset mode kb_layer_frequency kb_size seed topk_size
    kb_scale_factor multi_entites remove_sorry w
  = perform_eval model dataset mode kb_layer_frequency' kb_size seed topk_size'
      kb_scale_factor' multi_entites remove_sorry w
  /\ perform_eval_refusal model dataset mode kb_layer_frequency kb_size seed
       outlier_ratio topk_size question_size kb_scale_factor w
     = perform_eval_refusal model dataset mode kb_layer_frequency' kb_size seed
         outlier_ratio topk_size' question_size kb_scale_factor' w.
Proof.
  split.
  - assert (E : perform_eval_rows model dataset mode kb_layer_frequency kb_size seed topk_size
    kb_scale_factor multi_entites remove_sorry w = perform_eval_rows model dataset mode kb_layer_frequency' kb_size seed topk_size'
    kb_scale_factor' multi_entites remove_sorry w).
    { unfold perform_eval_rows. apply bind_ext. intros _ w1. apply bind_ext. intros kb_idx w2.
      apply bind_ext. intros test_kb w3. apply for_each_ext. intros acc row w4.
      unfold eval_row. apply bind_ext. intros [Q answer] w5.
      unfold bind. now rewrite !generate_output_unfold. }
    unfold perform_eval, bind. now rewrite E.
  - unfold perform_eval_refusal. apply bind_ext.
    intros [[[[kb_idx outlier_idx] test_kb] questions] cp] w1.
    unfold bind at 1 3.
    rewrite (for_each_ext _ (refusal_row model mode kb_layer_frequency' topk_size' kb_scale_factor' (get_kb_embd kb_idx) (render_prompt_strs test_kb) cp)); [reflexivity|].
    intros [[i outs] ans] row w2. unfold refusal_row, bind.
    now rewrite !refusal_generate_output_unfold.
Qed.
End LoopFacts.

Section Progress.
Context {C : Collab} {R : Rng}.



Lemma mapM_getitem_in {A : Type} (xs : list A) (idx : list nat) (ys : list A) :
  mapM (getitem xs) idx = Ok ys -> forall y, In y ys -> In y xs.
Proof.
  revert ys; induction idx as [|i idx IH]; intros ys H y Hy; cbn [mapM] in H.
  - injection H as <-. contradiction.
  - apply rbind_ok_inv in H as [x [Hx H]].
    apply rbind_ok_inv in H as [ys' [Hys H]]. injection H as <-.
    destruct Hy as [<-|Hy]; [|now apply (IH ys')].
    unfold getitem in Hx. destruct (nth_error xs i) eqn:E; [|discriminate].
    injection Hx as <-. now apply nth_error_In in E.
Qed.

Context {L : RngLaws R}.



End Progress.


Section EmptyQuestion.
Context {C : Collab} {R : Rng}.

(** X10: a row whose question is the empty string aborts the trial
    with [ValueError] (the empty separator of [split]), in [perform_eval]
    and in [perform_eval_refusal] alike, after [model.generate] has been
    called for the row. *)
Theorem empty_question_raises (model : family) (mode : eval_mode)
  (kb_layer_frequency : Z) (topk_size kb_scale_factor : option Z)
  (remove_sorry : bool) (test_kb : list KBEntry) (kb_embedding : kb_embd)
  (prompt_strs : string) (acc : outputs) (cp : Z)
  (st : nat * list string * list string) (row : KBEntry) (w : world)
  (outputs outputs' : tensor) :
  kb_Q row = EmptyString ->
  model_generate (Generation.regime_call model mode (-1)%Z kb_embedding prompt_strs "")
  = Ok outputs ->
  model_generate (Refusal.regime_call model mode kb_embedding prompt_strs "")
  = Ok outputs' ->
  eval_row model mode kb_layer_frequency topk_size kb_scale_factor (-1)%Z
    remove_sorry test_kb kb_embedding prompt_strs acc row w
  = (Raise ValueError,
     World C R (w_rng w)
       (Generation.regime_call model mode (-1)%Z kb_embedding prompt_strs ""
        :: w_calls w))
  /\ refusal_row model mode kb_layer_frequency topk_size kb_scale_factor
       kb_embedding prompt_strs cp st row w
     = (Raise ValueError,
        World C R (w_rng w)
          (Refusal.regime_call model mode kb_embedding prompt_strs "" :: w_calls w)).
Proof.
  intros HQ Hgen Hgen'. split.
  - unfold eval_row, question_of, bind, ret.
    change (-1 =? -1)%Z with true; cbv beta iota.
    rewrite generate_output_unfold, HQ, Hgen. reflexivity.
  - destruct st as [[i outs] ans]. unfold refusal_row, bind.
    rewrite refusal_generate_output_unfold, HQ, Hgen'. reflexivity.
Qed.

End EmptyQuestion.

Section Seeding.
Context {C : Collab} {R : Rng}.

(** X18: [perform_eval] and [perform_eval_refusal] seed NumPy's random
    state before they draw from it.  With an integer seed that
    [np.random.seed] accepts (one of [0, 2**32 - 1]) their outcome (result,
    random state left behind and calls made) is the same whatever random
    state they are started in: a trial is reproducible from its seed.  With
    an integer seed outside that range both raise [ValueError] at once, and
    leave the random state and the calls as they were. *)
Theorem seeded_trial_reproducible (model : family) (dataset : list KBEntry)
  (mode : eval_mode) (kb_layer_frequency : Z) (kb_size : nat) (seed : Z)
  (topk_size kb_scale_factor : option Z) (multi_entites : Z) (remove_sorry : bool)
  (outlier_ratio : float) (question_size : nat) :
  ((0 <= seed < 2 ^ 32)%Z ->
   forall (st st' : rng_state) (calls : list kwargs),
     perform_eval model dataset mode kb_layer_frequency kb_size seed topk_size
       kb_scale_factor multi_entites remove_sorry (World C R st calls)
     = perform_eval model dataset mode kb_layer_frequency kb_size seed topk_size
         kb_scale_factor multi_entites remove_sorry (World C R st' calls)
     /\ perform_eval_refusal model dataset mode kb_layer_frequency kb_size seed
          outlier_ratio topk_size question_size kb_scale_factor (World C R st calls)
        = perform_eval_refusal model dataset mode kb_layer_frequency kb_size seed
            outlier_ratio topk_size question_size kb_scale_factor
            (World C R st' calls))
  /\ ((seed < 0 \/ 2 ^ 32 <= seed)%Z ->
      forall w : world,
        perform_eval model dataset mode kb_layer_frequency kb_size seed topk_size
          kb_scale_factor multi_entites remove_sorry w
        = (Raise ValueError, w)
        /\ perform_eval_refusal model dataset mode kb_layer_frequency kb_size seed
             outlier_ratio topk_size question_size kb_scale_factor w
           = (Raise ValueError, w)).
Proof.
  split.
  - intros Hseed st st' calls.
    assert (E1 : perform_eval_rows model dataset mode kb_layer_frequency kb_size seed
                   topk_size kb_scale_factor multi_entites remove_sorry
                   (World C R st calls)
                 = perform_eval_rows model dataset mode kb_layer_frequency kb_size
                     seed topk_size kb_scale_factor multi_entites remove_sorry
                     (World C R st' calls)).
    { unfold perform_eval_rows. now rewrite !(bind_seed_accepts _ _ _ Hseed). }
    assert (E2 : sample_with_outliers dataset kb_size seed outlier_ratio question_size
                   (World C R st calls)
                 = sample_with_outliers dataset kb_size seed outlier_ratio
                     question_size (World C R st' calls)).
    { unfold sample_with_outliers. now rewrite !(bind_seed_accepts _ _ _ Hseed). }
    split.
    + unfold perform_eval, bind. now rewrite E1.
    + unfold perform_eval_refusal, bind. now rewrite E2.
  - intros Hseed w.
    assert (E1 : perform_eval_rows model dataset mode kb_layer_frequency kb_size seed
                   topk_size kb_scale_factor multi_entites remove_sorry w
                 = (Raise ValueError, w)).
    { unfold perform_eval_rows. now rewrite (bind_seed_refuses _ _ _ Hseed). }
    assert (E2 : sample_with_outliers dataset kb_size seed outlier_ratio question_size w
                 = (Raise ValueError, w)).
    { unfold sample_with_outliers. now rewrite (bind_seed_refuses _ _ _ Hseed). }
    split.
    + unfold perform_eval, bind. now rewrite E1.
    + unfold perform_eval_refusal, bind. now rewrite E2.
Qed.

End Seeding.

Section EmptyDataset.
Context {C : Collab} {R : Rng}.

(** X9: on an empty dataset, with a KB of at least one row asked for,
    [perform_eval] and [perform_eval_refusal] raise [ValueError] before any
    call of [model.generate]: with a seed [np.random.seed] accepts, in the
    sampling step ([np.random.randint] over an empty range), the state being
    the freshly seeded one; with a seed it refuses, in [np.random.seed]
    itself, the state being left as it was. *)
Theorem empty_dataset_raises (model : family) (mode : eval_mode)
  (kb_layer_frequency : Z) (kb_size : nat) (seed : Z)
  (topk_size kb_scale_factor : option Z) (multi_entites : Z) (remove_sorry : bool)
  (outlier_ratio : float) (question_size : nat) (w : world) :
  0 < kb_size ->
  let st := if ((0 <=? seed) && (seed <? 2 ^ 32))%Z
            then np_random_seed seed else w_rng w in
  perform_eval model [] mode kb_layer_frequency kb_size seed topk_size
    kb_scale_factor multi_entites remove_sorry w
  = (Raise ValueError, World C R st (w_calls w))
  /\ perform_eval_refusal model [] mode kb_layer_frequency kb_size seed
       outlier_ratio topk_size question_size kb_scale_factor w
     = (Raise ValueError, World C R st (w_calls w)).
Proof.
  intros Hk st.
  assert (E1 : perform_eval_rows model [] mode kb_layer_frequency kb_size seed
                 topk_size kb_scale_factor multi_entites remove_sorry w
               = (Raise ValueError, World C R st (w_calls w))).
  { unfold perform_eval_rows. subst st.
    destruct (Z.leb_spec 0 seed) as [H1|H1], (Z.ltb_spec seed (2 ^ 32)) as [H2|H2];
      cbn [andb].
    - rewrite (bind_seed_accepts _ _ _ (conj H1 H2)). unfold bind.
      cbn [List.length]. now rewrite (randint_empty_range _ _ Hk).
    - rewrite bind_seed_refuses by lia. now destruct w.
    - rewrite bind_seed_refuses by lia. now destruct w.
    - rewrite bind_seed_refuses by lia. now destruct w. }
  assert (E2 : sample_with_outliers [] kb_size seed outlier_ratio question_size w
               = (Raise ValueError, World C R st (w_calls w))).
  { unfold sample_with_outliers. subst st.
    destruct (Z.leb_spec 0 seed) as [H1|H1], (Z.ltb_spec seed (2 ^ 32)) as [H2|H2];
      cbn [andb].
    - rewrite (bind_seed_accepts _ _ _ (conj H1 H2)). unfold bind at 1.
      cbn [List.length]. now rewrite (randint_empty_range _ _ Hk).
    - rewrite bind_seed_refuses by lia. now destruct w.
    - rewrite bind_seed_refuses by lia. now destruct w.
    - rewrite bind_seed_refuses by lia. now destruct w. }
  split.
  - unfold perform_eval, bind. now rewrite E1.
  - unfold perform_eval_refusal, bind. now rewrite E2.
Qed.

End EmptyDataset.

Section Filter.
Context {C : Collab} {R : Rng}.

Lemma record_output_filtered (multi_entites : Z) (remove_sorry : bool)
  (acc : outputs) (row : KBEntry) (answer model_output : string) :
  filtered remove_sorry acc ->
  filtered remove_sorry
    (record_output multi_entites remove_sorry acc row answer model_output).
Proof.
  intros [H1 [H2 H3]]. unfold record_output, filtered.
  destruct (remove_sorry && contains "sorry" model_output) eqn:E; [now repeat split|].
  assert (Hkeep : remove_sorry = true ->
                  Forall (fun pair => contains "sorry" (fst pair) = false)
                         (full_outputs acc ++ [(model_output, answer)])).
  { intros Hrs. apply Forall_app. split; [now apply H3|].
    constructor; [|constructor]. cbn [fst]. rewrite Hrs in E. exact E. }
  destruct (multi_entites =? -1)%Z; cbn [full_outputs model_outputs answers];
    rewrite !length_app; cbn [List.length]; repeat split; try lia; exact Hkeep.
Qed.

(** X7: in a run of [perform_eval] that completes, the transcript,
    the predictions and the references have one length; with
    [remove_sorry] on, no generated text of the transcript holds the marker
    [sorry]. *)
Theorem remove_sorry_filters (model : family) (dataset : list KBEntry)
  (mode : eval_mode) (kb_layer_frequency : Z) (kb_size : nat) (seed : Z)
  (topk_size kb_scale_factor : option Z) (multi_entites : Z) (remove_sorry : bool)
  (w w' : world) (acc : outputs) :
  perform_eval_rows model dataset mode kb_layer_frequency kb_size seed topk_size
    kb_scale_factor multi_entites remove_sorry w = (Ok acc, w') ->
  List.length (full_outputs acc) = List.length (model_outputs acc)
  /\ List.length (answers acc) = List.length (model_outputs acc)
  /\ (remove_sorry = true ->
      Forall (fun pair => contains "sorry" (fst pair) = false) (full_outputs acc)).
Proof.
  unfold perform_eval_rows. intros H.
  apply bind_ok_inv in H as [u [w1 [_ H]]].
  apply bind_ok_inv in H as [kb_idx [w2 [_ H]]].
  apply bind_ok_inv in H as [test_kb [w3 [_ H]]].
  apply (for_each_invariant (filtered remove_sorry)) in H; [exact H | |].
  - intros s row w4 s' w5 Hs Hrow.
    apply eval_row_ok in Hrow as [_ [answer [out ->]]].
    now apply record_output_filtered.
  - repeat split. intros _. constructor.
Qed.

End Filter.

Section Transcript.
Context {C : Collab} {R : Rng}.

Lemma refusal_rows_answers (model : family) (mode : eval_mode) (kb_layer_frequency : Z)
  (topk_size kb_scale_factor : option Z) (kb_embedding : kb_embd)
  (prompt_strs : string) (cp : Z) (rows : list KBEntry) :
  forall (i i' : nat) (outs outs' ans ans' : list string) (w w' : world),
    for_each
      (refusal_row model mode kb_layer_frequency topk_size kb_scale_factor
         kb_embedding prompt_strs cp)
      rows (i, outs, ans) w = (Ok (i', outs', ans'), w') ->
    List.length outs' = List.length outs + List.length rows
    /\ ans' = ans ++ map (fun '(j, row) => reference_answer cp j row)
                         (combine (seq i (List.length rows)) rows).
Proof.
  induction rows as [|row rows IH]; intros i i' outs outs' ans ans' w w' H;
    cbn [for_each] in H.
  - apply ret_ok_inv in H as [H ->]. injection H as -> -> ->.
    cbn. now rewrite Nat.add_0_r, app_nil_r.
  - apply bind_ok_inv in H as [[[i1 outs1] ans1] [w1 [Hrow H]]].
    unfold refusal_row in Hrow.
    apply bind_ok_inv in Hrow as [out [w2 [Hgen Hrow]]].
    apply ret_ok_inv in Hrow as [Hrow ->]. injection Hrow as -> -> ->.
    apply IH in H as [H1 H2]. split.
    + rewrite H1, length_app. cbn [List.length]. lia.
    + rewrite H2, <- app_assoc. reflexivity.
Qed.

(** X11: in a refusal trial that completes, the transcript pairs
    the text generated for question [i] with the row's description when [i]
    lies before the change point and with the sentence
    [Cannot find relevant information in the KB] from the change point on;
    the predictions are computed from the same generated texts. *)
Theorem refusal_transcript (model : family) (dataset : list KBEntry)
  (mode : eval_mode) (kb_layer_frequency : Z) (kb_size : nat) (seed : Z)
  (outlier_ratio : float) (topk_size : option Z) (question_size : nat)
  (kb_scale_factor : option Z) (w w' : world) (results : string)
  (arr : list Z * list Z) :
  perform_eval_refusal model dataset mode kb_layer_frequency kb_size seed
    outlier_ratio topk_size question_size kb_scale_factor w
  = (Ok (results, arr), w') ->
  exists (kb_idx outlier_idx : list nat) (test_kb questions : list KBEntry)
         (cp : Z) (w1 : world) (model_outputs : list string),
    sample_with_outliers dataset kb_size seed outlier_ratio question_size w
    = (Ok (kb_idx, outlier_idx, test_kb, questions, cp), w1)
    /\ List.length model_outputs = List.length questions
    /\ fst arr = prediction model_outputs
    /\ results
       = render_results
           (combine model_outputs
              (map (fun '(i, row) => reference_answer cp i row)
                   (combine (seq 0 (List.length questions)) questions))).
Proof.
  unfold perform_eval_refusal. intros H.
  apply bind_ok_inv in H as [[[[[kb_idx outlier_idx] test_kb] questions] cp] [w1 [Hs H]]].
  apply bind_ok_inv in H as [[[i outs] ans] [w2 [Hloop H]]].
  apply bind_ok_inv in H as [labels0 [w3 [Hlab H]]].
  apply lift_ok_inv in Hlab as [Hlab ->].
  apply bind_ok_inv in H as [arr0 [w4 [Harr H]]].
  apply lift_ok_inv in Harr as [Harr ->].
  apply ret_ok_inv in H as [H ->]. injection H as -> ->.
  apply refusal_rows_answers in Hloop as [Hlen Hans]. cbn in Hlen, Hans.
  exists kb_idx, outlier_idx, test_kb, questions, cp, w1, outs.
  split; [exact Hs|]. split; [exact Hlen|]. split.
  - unfold np_array2 in Harr.
    destruct (List.length (prediction outs) =? List.length labels0); [|discriminate].
    now injection Harr as <-.
  - now rewrite Hans.
Qed.

End Transcript.

(** Three rows answered without the marker, the filter on. *)
Lemma remove_sorry_filters_witness :
  match fst (Toy.generation_run 3 " The purpose of it is 42<|eot_id|>" true true) with
  | Ok acc =>
      List.length (full_outputs acc) = List.length (model_outputs acc)
      /\ Forall (fun pair => contains "sorry" (fst pair) = false) (full_outputs acc)
  | Raise _ => False
  end.
Proof.
  destruct (Toy.generation_run 3 " The purpose of it is 42<|eot_id|>" true true)
    as [[acc|e] w'] eqn:E; cbn [fst].
  - destruct (remove_sorry_filters _ _ _ _ _ _ _ _ _ _ _ _ _ E) as [H1 [_ H3]].
    split; [exact H1 | exact (H3 eq_refl)].
  - assert (Hok : is_ok (fst (Toy.generation_run 3 " The purpose of it is 42<|eot_id|>"
                                true true)) = true) by (vm_compute; reflexivity).
    rewrite E in Hok. discriminate Hok.
Defined.

(** Twenty rows and a KB of ten: the change point is 8. *)
Lemma refusal_transcript_witness :
  match fst (Toy.refusal_run 20 10 " I am sorry") with
  | Ok (results, _) =>
      exists questions model_outputs,
        List.length model_outputs = List.length questions
        /\ results
           = render_results
               (combine model_outputs
                  (map (fun '(i, row) => reference_answer 8 i row)
                       (combine (seq 0 (List.length questions)) questions)))
  | Raise _ => False
  end.
Proof.
  destruct (Toy.refusal_run 20 10 " I am sorry") as [[[results arr]|e] w'] eqn:E;
    cbn [fst].
  - destruct (refusal_transcript _ _ _ _ _ _ _ _ _ _ _ _ _ _ E)
      as [kb_idx [outlier_idx [test_kb [questions [cp [w1 [outs [Hs [Hlen [_ Hres]]]]]]]]]].
    assert (Hcp : cp = 8%Z).
    { assert (Hs' : match fst (Refusal.sample_with_outliers
                                (C := Toy.toy_collab true " I am sorry")
                                (Toy.toy_dataset 20) 10 1 0.2%float 100 Toy.toy_world) with
                    | Ok (_, _, _, _, c) => c = 8%Z
                    | Raise _ => True
                    end) by (vm_compute; reflexivity).
      rewrite Hs in Hs'. exact Hs'. }
    subst cp. now exists questions, outs.
  - assert (Hok : is_ok (fst (Toy.refusal_run 20 10 " I am sorry")) = true)
      by (vm_compute; reflexivity).
    rewrite E in Hok. discriminate Hok.
Defined.

(** The seed 1 from two random states, and the seed -1. *)
Lemma seeded_trial_reproducible_witness :
  @perform_eval (Toy.toy_collab true " The purpose of it is 42") Toy.toy_rng Llama
    (Toy.toy_dataset 5) kb 3 3 1 None None (-1)%Z false (World _ Toy.toy_rng 0 [])
  = @perform_eval (Toy.toy_collab true " The purpose of it is 42") Toy.toy_rng Llama
      (Toy.toy_dataset 5) kb 3 3 1 None None (-1)%Z false (World _ Toy.toy_rng 7 [])
  /\ @perform_eval (Toy.toy_collab true " The purpose of it is 42") Toy.toy_rng Llama
       (Toy.toy_dataset 5) kb 3 3 (-1) None None (-1)%Z false (World _ Toy.toy_rng 7 [])
     = (Raise ValueError, World _ Toy.toy_rng 7 []).
Proof.
  split.
  - exact (proj1 (proj1 (seeded_trial_reproducible
                           (C := Toy.toy_collab true " The purpose of it is 42")
                           (R := Toy.toy_rng) Llama (Toy.toy_dataset 5) kb 3 3 1 None
                           None (-1)%Z false 0.2%float 100)
                    ltac:(lia) 0 7 [])).
  - exact (proj1 (proj2 (seeded_trial_reproducible
                           (C := Toy.toy_collab true " The purpose of it is 42")
                           (R := Toy.toy_rng) Llama (Toy.toy_dataset 5) kb 3 3 (-1)
                           None None (-1)%Z false 0.2%float 100)
                    ltac:(lia) (World _ Toy.toy_rng 7 []))).
Defined.

(** A KB of three rows asked of an empty dataset. *)
Lemma empty_dataset_raises_witness :
  fst (@perform_eval (Toy.toy_collab true " I do not know") Toy.toy_rng Llama []
         kb 3 3 1 None None (-1)%Z false Toy.toy_world)
  = Raise ValueError.
Proof.
  exact (f_equal fst
           (proj1 (empty_dataset_raises (C := Toy.toy_collab true " I do not know")
                     Llama kb 3 3 1 None None (-1)%Z false 0.2%float 100 Toy.toy_world
                     ltac:(lia)))).
Defined.

(** A row with an empty question. *)
Lemma empty_question_raises_witness :
  fst (@eval_row (Toy.toy_collab true " I do not know") Toy.toy_rng Llama kb 3 None None
         (-1)%Z false [] [] "" no_outputs
         {| kb_name := "n"; kb_description_type := "t"; kb_description := "d";
            kb_key_string := "k"; kb_Q := ""; kb_A := "a" |} Toy.toy_world)
  = Raise ValueError.
Proof.
  refine (f_equal fst
            (proj1 (empty_question_raises (C := Toy.toy_collab true " I do not know")
                      Llama kb 3 None None false [] [] "" no_outputs 0 (0, [], [])
                      {| kb_name := "n"; kb_description_type := "t";
                         kb_description := "d"; kb_key_string := "k"; kb_Q := "";
                         kb_A := "a" |}
                      Toy.toy_world _ _ eq_refl eq_refl eq_refl))).
Defined.

End LoopFacts.

(** ** The command line: which options each driver finds *)

Module CliFacts.
Import Cli.
Local Open Scope string_scope.

(** X16: of the four drivers [main] dispatches to, [eval_generate],
    [eval_accuracy_cli] and [eval_refusal] find every attribute they read
    in the namespace of their sub-command, whatever the command line sets;
    [eval], the driver of [standard], fails with [AttributeError] at its
    first read, [args.attn_save_dir], an option only the [accuracy]
    sub-command declares.  Under the namespace of any sub-command [eval]
    fails with [AttributeError]: [accuracy] declares [attn_save_dir] but
    not [sample_size]. *)
Theorem driver_options (given : string -> option argval) :
  (exists vs, read_all (parse_args generation given) (driver_reads generation) = Done vs)
  /\ (exists vs, read_all (parse_args accuracy given) (driver_reads accuracy) = Done vs)
  /\ (exists vs, read_all (parse_args refusal given) (driver_reads refusal) = Done vs)
  /\ read_all (parse_args standard given) (driver_reads standard)
     = Failed (AttributeError "attn_save_dir")
  /\ (forall c,
        read_all (parse_args c given) eval_reads
        = Failed (AttributeError match c with
                                 | accuracy => "sample_size"
                                 | _ => "attn_save_dir"
                                 end)).
Proof.
  split; [eexists; cbv; reflexivity|].
  split; [eexists; cbv; reflexivity|].
  split; [eexists; cbv; reflexivity|].
  split; [cbv; reflexivity|].
  intros c. destruct c; cbv; reflexivity.
Qed.

End CliFacts.

(** ** The set-up of [eval_refusal] and the retriever *)

Module SetupFacts.
Import PyStr Format Cli RefusalSetup.
Local Open Scope string_scope.

Section SetupFacts.
Context {Ld : Loader}.

Ltac step H :=
  match type of H with
  | obind ?o _ = Done _ =>
      let E := fresh "E" in
      destruct o eqn:E; cbn [obind] in H; [|discriminate H]
  end.

(** X17: the set-up of [eval_refusal] binds [key_embds] and
    [value_embds] only under [--use_precomputed_embd].  It completes only
    with the flag on, and then hands on a retriever that serves the cached
    embeddings (never the encoder path); with the flag off it never
    completes, and when the dataset, the tokenizer, the model and the encoder
    all load it raises [UnboundLocalError] for [key_embds] where the
    retriever is built. *)
Theorem refusal_setup_needs_precomputed (args : options) :
  (forall model tokenizer retriever,
      eval_refusal_setup args = Done (model, tokenizer, retriever) ->
      use_precomputed_embd args = true
      /\ _use_cached_embd retriever = true
      /\ forall batch_indices,
          get_key_embeddings retriever batch_indices
          = get_kb_embd (encoder retriever) batch_indices
              (Some (key_embds retriever, value_embds retriever)) None)
  /\ (use_precomputed_embd args = false ->
      exists e, eval_refusal_setup args = Failed e)
  /\ (use_precomputed_embd args = false ->
      forall test_dataset dataset_dir rows tokenizer model encoder encoder',
        RefusalSetup.test_dataset args = Some test_dataset ->
        RefusalSetup.dataset_dir args = Some dataset_dir ->
        json_load (Accuracy.path_join dataset_dir (test_dataset ++ ".json")) = Ok rows ->
        tokenizer_from_pretrained (llm_base_dir args) = Ok tokenizer ->
        model_from_pretrained
          (if String.eqb (llm_type args) "llama3" then Llama else Phi3) (model_dir args)
        = Ok model ->
        kb_layer_frequency args <> 0%Z ->
        KBEncoder (encoder_spec args)
          (hidden_size (prepare_generation model (set_pad_token tokenizer "^"))
           * (num_hidden_layers (prepare_generation model (set_pad_token tokenizer "^"))
              / kb_layer_frequency args + 1))%Z
          true
        = Ok encoder ->
        load_state_dict encoder (encoder_dir args) = Ok encoder' ->
        eval_refusal_setup args = Failed (UnboundLocalError "key_embds")).
Proof.
  split; [|split].
  - intros model tokenizer retriever H. unfold eval_refusal_setup in H.
    step H. step H. step H. 
    destruct (use_precomputed_embd args) eqn:Eflag.
    + step H. destruct a2 as [k v]. step H. step H. step H. step H. step H. step H. step H.
      injection H as <- <- <-.
      split; [reflexivity|]. split; [reflexivity|]. intros idx. reflexivity.
    + cbn [obind] in H. step H. step H. step H. step H. step H.
      cbn [local obind] in H. discriminate H.
  - intros Eflag. unfold eval_refusal_setup. rewrite Eflag.
    destruct (as_str (test_dataset args)); cbn [obind]; [|eauto].
    destruct (as_str (dataset_dir args)); cbn [obind]; [|eauto].
    destruct (lib (json_load _)); cbn [obind]; [|eauto].
    destruct (lib (tokenizer_from_pretrained _)); cbn [obind]; [|eauto].
    match goal with |- context [obind ?o _] => destruct o; cbn [obind]; [|eauto] end.
    destruct (floordiv _ _); cbn [obind]; [|eauto].
    destruct (lib (KBEncoder _ _ _)); cbn [obind]; [|eauto].
    destruct (lib (load_state_dict _ _)); cbn [local obind]; eauto.
  - intros Eflag t d rows tok m enc enc' Ht Hd Hrows Htok Hm Hklf Henc Hload.
    unfold eval_refusal_setup. rewrite Eflag, Ht, Hd. cbn [as_str obind].
    rewrite Hrows. cbn [lib obind]. rewrite Htok. cbn [lib obind].
    assert (Em : (if String.eqb (llm_type args) "llama3"
                  then lib (model_from_pretrained Llama (model_dir args))
                  else lib (model_from_pretrained Phi3 (model_dir args)))
                 = Done m).
    { destruct (String.eqb (llm_type args) "llama3"); now rewrite Hm. }
    rewrite Em. cbn [obind]. unfold floordiv.
    destruct (Z.eqb_spec (kb_layer_frequency args) 0) as [|_]; [contradiction|].
    cbn [obind]. rewrite Henc. cbn [lib obind]. rewrite Hload. reflexivity.
Qed.

End SetupFacts.

(** The stand-in loader, with the flag off and on. *)
Lemma refusal_setup_needs_precomputed_witness :
  eval_refusal_setup (Ld := ToyLoader.toy_loader) (ToyLoader.toy_options false)
  = Failed (UnboundLocalError "key_embds")
  /\ exists model tokenizer retriever,
      eval_refusal_setup (Ld := ToyLoader.toy_loader) (ToyLoader.toy_options true)
      = Done (model, tokenizer, retriever)
      /\ _use_cached_embd retriever = true.
Proof.
  split.
  - exact (proj2 (proj2 (refusal_setup_needs_precomputed (Ld := ToyLoader.toy_loader)
                           (ToyLoader.toy_options false)))
             eq_refl "synthetic" "data" (Toy.toy_dataset 3) "tokenizer" Phi3 "OAI" "OAI"
             eq_refl eq_refl eq_refl eq_refl eq_refl ltac:(discriminate) eq_refl eq_refl).
  - destruct (eval_refusal_setup (Ld := ToyLoader.toy_loader) (ToyLoader.toy_options true))
      as [[[model tokenizer] retriever]|e] eqn:E.
    + exists model, tokenizer, retriever. split; [reflexivity|].
      exact (proj1 (proj2 (proj1 (refusal_setup_needs_precomputed
                                    (Ld := ToyLoader.toy_loader)
                                    (ToyLoader.toy_options true))
                             model tokenizer retriever E))).
    + vm_compute in E. discriminate E.
Defined.

End SetupFacts.

(** ** Multi-entity answers without a terminator *)

Module TerminatorFacts.
Import PyStr Format Regex Py Generation PyText AnswerPattern.
Import PyStrFacts RegexFacts.
Local Open Scope string_scope.

Section Fails.
Variable X : Type.

Lemma star_greedy_const_none (p : ascii -> bool) (s : string) :
  star_greedy p s (fun _ => @None X) = None.
Proof. induction s as [|c s IH]; cbn [star_greedy]; [reflexivity|]. rewrite IH. now destruct (p c). Qed.

Lemma star_lazy_const_none (p : ascii -> bool) (s : string) :
  star_lazy p s (fun _ => @None X) = None.
Proof. induction s as [|c s IH]; cbn [star_lazy]; [reflexivity|]. rewrite IH. now destruct (p c). Qed.

(** A pattern followed by nothing that matches does not match. *)
Lemma run_none (r : regex) :
  forall (s : string) (cap : option string),
    run r s cap (fun _ _ => @None X) = None.
Proof.
  induction r as [lit | p | r1 IH1 r2 IH2 | r1 IH1 r2 IH2 | p | p | r1 IH1];
    intros s cap; cbn [run].
  - now destruct (starts_with lit s).
  - destruct s as [|c s]; [reflexivity | now destruct (p c)].
  - rewrite (run_ext (fun _ => True) (fun _ _ _ => I) X r1 s cap _ (fun _ _ => None));
      [apply IH1 | exact I | intros; apply IH2].
  - now rewrite IH1, IH2.
  - unfold plus_greedy. destruct s as [|c s]; [reflexivity|].
    destruct (p c); [apply star_greedy_const_none | reflexivity].
  - apply star_lazy_const_none.
  - apply IH1.
Qed.

End Fails.

Lemma no_terminator_tail (c : ascii) (s : string) :
  no_terminator (String c s) -> no_terminator s.
Proof. intros [H1 H2]. split; eapply contains_tail; eassumption. Qed.

Lemma terminator_fails (X : Type) (s : string) (cap : option string)
  (k : string -> option string -> option X) :
  no_terminator s -> run (Alt (chr ".") (chr ";")) s cap k = None.
Proof.
  intros [H1 H2]. destruct s as [|c s]; [reflexivity|].
  cbn [contains starts_with] in H1, H2.
  apply orb_false_iff in H1 as [H1 _]. apply orb_false_iff in H2 as [H2 _].
  unfold chr. cbn [run].
  destruct (Ascii.eqb "." c); [discriminate|].
  destruct (Ascii.eqb ";" c); [discriminate | reflexivity].
Qed.

Lemma run_cat_fails (X : Type) (P : string -> Prop)
  (P_tail : forall c s, P (String c s) -> P s) (r1 r2 : regex) :
  (forall s cap (k : string -> option string -> option X), P s -> run r2 s cap k = None) ->
  forall s cap (k : string -> option string -> option X),
    P s -> run (Cat r1 r2) s cap k = None.
Proof.
  intros H s cap k Hs. cbn [run].
  rewrite (run_ext P P_tail X r1 s cap _ (fun _ _ => None));
    [apply run_none | exact Hs | intros; now apply H].
Qed.

Lemma prediction_needs_terminator (s : string) :
  no_terminator s -> match_here pattern_multi_prediction s = None.
Proof.
  intros H. unfold match_here, pattern_multi_prediction. cbn [seq_of].
  revert H. generalize (@None string). revert s.
  generalize (fun (rest : string) (cap : option string) => Some (cap, rest)).
  intros k s cap H. revert s cap k H.
  do 3 (apply (run_cat_fails _ no_terminator no_terminator_tail); intros s cap k H;
        revert s cap k H).
  intros s cap k H. now apply terminator_fails.
Qed.

Lemma reference_needs_semicolon (s : string) :
  contains ";" s = false -> match_here pattern_multi_reference s = None.
Proof.
  intros H. unfold match_here, pattern_multi_reference. cbn [seq_of].
  revert H. generalize (@None string). revert s.
  generalize (fun (rest : string) (cap : option string) => Some (cap, rest)).
  intros k s cap H. revert s cap k H.
  do 3 (apply (run_cat_fails _ (fun s => contains ";" s = false) (contains_tail ";"));
        intros s cap k H; revert s cap k H).
  intros s cap k H. destruct s as [|c s]; [reflexivity|].
  cbn [contains starts_with] in H. apply orb_false_iff in H as [H _].
  unfold chr. cbn [run]. now destruct (Ascii.eqb ";" c).
Qed.

Lemma findall_go_fails (r : regex) (P : string -> Prop)
  (P_tail : forall c s, P (String c s) -> P s) :
  (forall s, P s -> match_here r s = None) ->
  forall s skip, P s -> findall_go r skip s = [].
Proof.
  intros H. induction s as [|c s IH]; intros skip Hs; cbn [findall_go].
  - now rewrite (H "" Hs).
  - destruct skip as [|k]; [rewrite (H _ Hs)|]; apply IH, (P_tail c), Hs.
Qed.

(** X5: in a multi-entity trial a generated text that holds neither
    a full stop nor a semicolon yields no match, and the prediction scored is
    the empty string; a reference answer without a semicolon likewise becomes
    the empty reference. *)
Theorem unterminated_answer_scores_empty (multi_entites : Z) (remove_sorry : bool)
  (acc : outputs) (row : KBEntry) (answer model_output : string) :
  (multi_entites =? -1)%Z = false ->
  remove_sorry && contains "sorry" model_output = false ->
  contains "." model_output = false ->
  contains ";" model_output = false ->
  model_outputs (record_output multi_entites remove_sorry acc row answer model_output)
  = (model_outputs acc ++ [""])%list
  /\ (contains ";" answer = false ->
      answers (record_output multi_entites remove_sorry acc row answer model_output)
      = (answers acc ++ [""])%list).
Proof.
  intros Hmulti Hkeep Hdot Hsemi. unfold record_output. rewrite Hkeep, Hmulti.
  cbn [model_outputs answers]. split.
  - unfold findall.
    rewrite (findall_go_fails _ no_terminator no_terminator_tail
               prediction_needs_terminator); [reflexivity | now split].
  - intros Hans. unfold findall.
    rewrite (findall_go_fails _ (fun s => contains ";" s = false) (contains_tail ";")
               reference_needs_semicolon); [reflexivity | exact Hans].
Qed.

(** A generated answer that joins its two parts with [and]. *)
Lemma unterminated_answer_scores_empty_witness :
  model_outputs
    (record_output 2 false no_outputs (Toy.toy_row 0)
       "The color of A is red; The color of B is blue;"
       "The color of A is red and the color of B is blue")
  = [""].
Proof.
  exact (proj1 (unterminated_answer_scores_empty 2 false no_outputs (Toy.toy_row 0)
                  "The color of A is red; The color of B is blue;"
                  "The color of A is red and the color of B is blue"
                  eq_refl eq_refl eq_refl eq_refl)).
Defined.

End TerminatorFacts.
(** ** Trials: default sizes, untemplated outputs, multi-entity questions *)

Module TrialFacts.
Import PyStr Format Regex Collaborators Driver Py Generation Refusal PyText Accuracy.
Import PyStrFacts MonadFacts GenerationFacts RefusalFacts ArrayFacts ArgmaxFacts LoopFacts.
Local Open Scope nat_scope.

(** The sizes of the default trial, for every effective question size up to
    100: the change point is [floor(4q/5)] and the outlier count
    [floor(q/5)]. *)
Lemma default_sizes_upto_100 (q : nat) :
  q <= 100 ->
  change_point q 0.2%float = Ok (Z.of_nat (4 * q / 5))
  /\ outlier_count q 0.2%float = Ok (Z.of_nat (q / 5))
  /\ 4 * q / 5 + q / 5 = (if q mod 5 =? 0 then q else q - 1).
Proof.
  intros Hq.
  assert (Hall : forallb
                   (fun q =>
                      match change_point q 0.2%float, outlier_count q 0.2%float with
                      | Ok cp, Ok n =>
                          (cp =? Z.of_nat (4 * q / 5))%Z && (n =? Z.of_nat (q / 5))%Z
                          && (4 * q / 5 + q / 5 =? (if q mod 5 =? 0 then q else q - 1))
                      | _, _ => false
                      end)
                   (seq 0 101) = true) by (vm_compute; reflexivity).
  rewrite forallb_forall in Hall.
  specialize (Hall q ltac:(apply in_seq; lia)).
  destruct (change_point q 0.2%float) as [cp|]; [|discriminate].
  destruct (outlier_count q 0.2%float) as [n|]; [|discriminate].
  apply andb_true_iff in Hall as [Hall H3]. apply andb_true_iff in Hall as [H1 H2].
  apply Z.eqb_eq in H1, H2. apply Nat.eqb_eq in H3. now subst.
Qed.

Section DefaultTrial.
Context {C : Collab} {R : Rng}.

(** X19: a refusal trial run with the defaults ([outlier_ratio = 0.2],
    [question_size = 100]) that returns has, for the effective question size
    [q = min(kb_size, 100)], the labels [floor(4q/5)] zeros followed by
    [floor(q/5)] ones and as many predictions as labels: [q] when 5 divides
    [q], and [q - 1] otherwise, the two truncations dropping one question. *)
Theorem default_refusal_trial_size (model : family) (dataset : list KBEntry)
  (mode : eval_mode) (kb_layer_frequency : Z) (kb_size : nat) (seed : Z)
  (topk_size kb_scale_factor : option Z) (w w' : world) (results : string)
  (predictions labels : list Z) :
  perform_eval_refusal model dataset mode kb_layer_frequency kb_size seed
    0.2%float topk_size 100 kb_scale_factor w
  = (Ok (results, (predictions, labels)), w') ->
  let q := Nat.min kb_size 100 in
  labels = repeat 0%Z (4 * q / 5) ++ repeat 1%Z (q / 5)
  /\ List.length predictions = (if q mod 5 =? 0 then q else q - 1).
Proof.
  intros H q. unfold perform_eval_refusal in H.
  apply bind_ok_inv in H as [[[[[kb_idx outlier_idx] test_kb] questions] cp] [w1 [Hs H]]].
  apply bind_ok_inv in H as [[[i outs] ans] [w2 [Hloop H]]].
  apply bind_ok_inv in H as [labels0 [w3 [Hlab H]]].
  apply lift_ok_inv in Hlab as [Hlab ->].
  apply bind_ok_inv in H as [arr [w4 [Harr H]]].
  apply lift_ok_inv in Harr as [Harr ->].
  apply ret_ok_inv in H as [H ->]. injection H as _ Hpair.
  rewrite <- Hpair in Harr. unfold np_array2 in Harr.
  destruct (Nat.eqb_spec (List.length (prediction outs)) (List.length labels0))
    as [Hlen|]; [|discriminate].
  injection Harr as <- <-.
  destruct (default_sizes_upto_100 q (Nat.le_min_r kb_size 100)) as [Hcp [Hn Hsum]].
  fold q in Hlab. unfold true_label in Hlab. rewrite Hcp, Hn in Hlab.
  cbn [rbind] in Hlab. injection Hlab as <-.
  unfold times. rewrite !Nat2Z.id. split; [reflexivity|].
  rewrite Hlen. unfold times. rewrite !Nat2Z.id, length_app, !repeat_length. exact Hsum.
Qed.

End DefaultTrial.

(** A KB of 8 rows out of 20: 6 zeros, 1 one, 7 predictions. *)
Lemma default_refusal_trial_size_witness :
  match fst (Toy.refusal_run 20 8 " I am sorry") with
  | Ok (_, (predictions, labels)) =>
      labels = repeat 0%Z 6 ++ repeat 1%Z 1 /\ List.length predictions = 7
  | Raise _ => False
  end.
Proof.
  destruct (Toy.refusal_run 20 8 " I am sorry")
    as [[[results [predictions labels]]|e] w'] eqn:E; cbn [fst].
  - exact (default_refusal_trial_size _ _ _ _ _ _ _ _ _ _ _ _ _ E).
  - assert (Hok : is_ok (fst (Toy.refusal_run 20 8 " I am sorry")) = true)
      by (vm_compute; reflexivity).
    rewrite E in Hok. discriminate Hok.
Defined.

(** The single-entity pattern begins with the literal [The]. *)
Lemma search_needs_The (s : string) :
  contains "The" s = false -> search pattern_single s = None.
Proof.
  induction s as [|c s IH]; intros H.
  - reflexivity.
  - cbn [contains] in H. apply orb_false_iff in H as [H1 H2].
    cbn [search]. unfold match_here at 1, pattern_single. cbn [seq_of run].
    rewrite H1. now apply IH.
Qed.

(** X20: in a single-entity trial, an output that is kept and in which
    [The] does not occur is scored as it is, whole, against the row's
    description: the pattern finds nothing and nothing is cut. *)
Theorem untemplated_answer_scored_verbatim (remove_sorry : bool) (acc : outputs)
  (row : KBEntry) (answer model_output : string) :
  remove_sorry && contains "sorry" model_output = false ->
  contains "The" model_output = false ->
  model_outputs (record_output (-1) remove_sorry acc row answer model_output)
  = model_outputs acc ++ [model_output]
  /\ answers (record_output (-1) remove_sorry acc row answer model_output)
     = answers acc ++ [kb_description row].
Proof.
  intros Hkeep Hthe. unfold record_output. rewrite Hkeep.
  change (-1 =? -1)%Z with true. cbv iota.
  now rewrite (search_needs_The _ Hthe).
Qed.

(** A lower-case answer is scored whole. *)
Lemma untemplated_answer_scored_verbatim_witness :
  model_outputs
    (record_output (-1) false no_outputs (Toy.toy_row 0) "a" "the purpose is task0")
  = ["the purpose is task0"%string].
Proof.
  exact (proj1 (untemplated_answer_scored_verbatim false no_outputs (Toy.toy_row 0) "a"
                  "the purpose is task0" eq_refl eq_refl)).
Defined.

Section MultiQuestion.
Context {C : Collab} {R : Rng} {L : RngLaws R}.

(** X21: with [multi_entites >= 0] the question of an iteration does not
    depend on the row the loop is at: it is built by
    [generate_multi_entity_qa] from [multi_entites] rows of the active KB
    drawn with [randint] (so with repeats allowed), and no model call is
    made while it is built. *)
Theorem multi_entity_question (multi_entites : Z) (test_kb : list KBEntry)
  (row row' : KBEntry) (w w' : world) (Q A : string) :
  (0 <= multi_entites)%Z ->
  question_of multi_entites test_kb row w = (Ok (Q, A), w') ->
  question_of multi_entites test_kb row' w = (Ok (Q, A), w')
  /\ w_calls w' = w_calls w
  /\ exists rows,
      List.length rows = Z.to_nat multi_entites
      /\ (forall r, In r rows -> In r test_kb)
      /\ (Q, A) = generate_multi_entity_qa (map kb_name rows)
                    (map kb_description_type rows) (map kb_description rows).
Proof.
  intros Hpos H. unfold question_of in *.
  destruct (Z.eqb_spec multi_entites (-1)) as [|_]; [lia|].
  destruct (Z.ltb_spec multi_entites 0) as [|_]; [lia|].
  split; [exact H|].
  apply bind_ok_inv in H as [idx [w1 [Hidx H]]].
  apply randint_ok_inv in Hidx as [Hlen [Hidx Hc1]].
  apply bind_ok_inv in H as [rows [w2 [Hrows H]]].
  apply lift_ok_inv in Hrows as [Hrows ->].
  apply ret_ok_inv in H as [H ->].
  split; [exact Hc1|]. exists rows. split; [|split].
  - rewrite (mapM_length _ _ _ Hrows), Hidx. apply randint_length.
  - now apply (mapM_getitem_in _ _ _ Hrows).
  - exact H.
Qed.

End MultiQuestion.

(** Two entities out of a KB of three rows. *)
Lemma multi_entity_question_witness :
  exists rows,
    List.length rows = 2
    /\ fst (@question_of (Toy.toy_collab true "") Toy.toy_rng 2 (Toy.toy_dataset 3)
              (Toy.toy_row 0) Toy.toy_world)
       = Ok (generate_multi_entity_qa (Collab := Toy.toy_collab true "")
               (map kb_name rows) (map kb_description_type rows)
               (map kb_description rows)).
Proof.
  destruct (@question_of (Toy.toy_collab true "") Toy.toy_rng 2 (Toy.toy_dataset 3)
              (Toy.toy_row 0) Toy.toy_world) as [[[Q A]|e] w'] eqn:E.
  - destruct (multi_entity_question (L := ToyFacts.toy_rng_laws) 2 (Toy.toy_dataset 3)
                (Toy.toy_row 0) (Toy.toy_row 1) Toy.toy_world w' Q A ltac:(lia) E)
      as [_ [_ [rows [Hlen [_ Hqa]]]]].
    exists rows. split; [exact Hlen|]. cbn [fst]. now rewrite Hqa.
  - vm_compute in E. discriminate E.
Defined.

End TrialFacts.

(** ** The outcomes of the scoring step *)

Module ScoringOutcomeFacts.
Import PyStr Format Collaborators Py Generation PyText Accuracy.
Import MonadFacts ArrayFacts ArgmaxFacts.
Local Open Scope nat_scope.

Lemma rows_of_lengths {A : Type} (count width : nat) :
  forall xs : list A,
    List.length xs = count * width ->
    Forall (fun r => List.length r = width) (rows_of count width xs).
Proof.
  induction count as [|count IH]; intros xs H; cbn [rows_of]; constructor.
  - rewrite length_firstn. simpl in H. lia.
  - apply IH. rewrite length_skipn. simpl in H. lia.
Qed.

Lemma rows_of_count {A : Type} (count width : nat) (xs : list A) :
  List.length (rows_of count width xs) = count.
Proof.
  revert xs; induction count as [|count IH]; intros xs; cbn [rows_of List.length];
    [reflexivity | now rewrite IH].
Qed.

Lemma mapM_raise_head {A B : Type} (f : A -> result B) (x : A) (xs : list A) (e : exn) :
  f x = Raise e -> mapM f (x :: xs) = Raise e.
Proof. intros H. cbn [mapM]. now rewrite H. Qed.

Section Classify.
Context {Wt : Weight}.

(** The score vectors of a reshaped array: one per batch element, each of
    [kb_size] entries. *)
Lemma reshape3_scores (batch kb_size : nat) (t : ndarray)
  (w3 : list (list (list weight))) :
  reshape3 batch kb_size t = Ok w3 ->
  0 < batch /\ 0 < kb_size
  /\ List.length (data t) mod (batch * kb_size) = 0
  /\ List.length (sum_axis1 kb_size w3) = batch
  /\ Forall (fun row => List.length row = kb_size) (sum_axis1 kb_size w3).
Proof.
  unfold reshape3. intros H.
  destruct (Nat.eqb_spec (batch * kb_size) 0) as [|Hknown]; [discriminate|].
  destruct (Nat.eqb_spec (List.length (data t) mod (batch * kb_size)) 0)
    as [Hmod|]; [|discriminate].
  cbn [orb negb] in H. injection H as <-.
  split; [nia|]. split; [nia|]. split; [exact Hmod|].
  set (middle := List.length (data t) / (batch * kb_size)).
  assert (Hsize : List.length (data t) = batch * (middle * kb_size)).
  { pose proof (Nat.div_mod (List.length (data t)) (batch * kb_size) Hknown) as Hd.
    rewrite Hmod in Hd. fold middle in Hd. nia. }
  unfold sum_axis1. split.
  - now rewrite !length_map, rows_of_count.
  - apply Forall_forall. intros row Hrow.
    apply in_map_iff in Hrow as [m [<- Hm]].
    apply in_map_iff in Hm as [chunk [<- Hchunk]].
    apply sum_rows_length, rows_of_lengths.
    pose proof (rows_of_lengths batch (middle * kb_size) (data t) Hsize) as Hall.
    rewrite Forall_forall in Hall. now apply Hall.
Qed.

Lemma reshape3_refuses (batch kb_size : nat) (t : ndarray) :
  batch = 0 \/ kb_size = 0 \/ List.length (data t) mod (batch * kb_size) <> 0 ->
  reshape3 batch kb_size t = Raise ValueError.
Proof.
  intros H. unfold reshape3.
  destruct (Nat.eqb_spec (batch * kb_size) 0) as [|Hknown]; [reflexivity|].
  destruct (Nat.eqb_spec (List.length (data t) mod (batch * kb_size)) 0) as [Hmod|];
    [|reflexivity].
  destruct H as [->|[->|H]]; [lia | lia | contradiction].
Qed.

(** X22: what the scoring of one layer's artifact does, case by case.  A
    0-dimensional artifact raises [IndexError] at the truncation.  Otherwise,
    with [t] the truncated array: the reshape raises [ValueError] when
    [test_batch_size] or [kb_size] is 0 or the size of [t] is not a multiple
    of [test_batch_size * kb_size]; when the reshape goes through and
    [kb_size < 5], the top-1 step passes and the top-5 step raises
    [RuntimeError]; when it goes through and [kb_size >= 5], a pair of
    accuracies is returned. *)
Theorem score_attention_outcome (kb_size test_batch_size : nat) (artifact : ndarray) :
  (shape artifact = [] ->
   score_attention kb_size test_batch_size artifact = Raise IndexError)
  /\ (forall t,
        truncate_last kb_size artifact = Ok t ->
        (test_batch_size = 0 \/ kb_size = 0
         \/ List.length (data t) mod (test_batch_size * kb_size) <> 0 ->
         score_attention kb_size test_batch_size artifact = Raise ValueError)
        /\ (0 < test_batch_size -> 0 < kb_size -> kb_size < 5 ->
            List.length (data t) mod (test_batch_size * kb_size) = 0 ->
            score_attention kb_size test_batch_size artifact = Raise RuntimeError)
        /\ (0 < test_batch_size -> 5 <= kb_size ->
            List.length (data t) mod (test_batch_size * kb_size) = 0 ->
            exists acc top_5_acc,
              score_attention kb_size test_batch_size artifact = Ok (acc, top_5_acc))).
Proof.
  split.
  - intros Hshape. unfold score_attention, truncate_last. now rewrite Hshape.
  - intros t Ht. unfold score_attention. rewrite Ht. cbn [rbind]. split; [|split].
    + intros H. now rewrite (reshape3_refuses _ _ _ H).
    + intros Hb Hk Hsmall Hmod.
      destruct (reshape3 test_batch_size kb_size t) as [w3|e] eqn:Ew.
      2:{ unfold reshape3 in Ew. rewrite Hmod in Ew.
          destruct (Nat.eqb_spec (test_batch_size * kb_size) 0); [nia | discriminate]. }
      cbn [rbind].
      destruct (reshape3_scores _ _ _ _ Ew) as [_ [_ [_ [Hlen Hrows]]]].
      destruct (mapM_ok_forall argmax (sum_axis1 kb_size w3)) as [predictions ->].
      { intros row Hrow. apply argmax_defined.
        rewrite Forall_forall in Hrows. rewrite (Hrows row Hrow). lia. }
      cbn [rbind].
      destruct (sum_axis1 kb_size w3) as [|row rows] eqn:Es; [simpl in Hlen; lia|].
      rewrite (mapM_raise_head _ _ _ RuntimeError); [reflexivity|].
      unfold topk. apply Forall_inv in Hrows. rewrite Hrows.
      destruct (Nat.ltb_spec kb_size 5); [reflexivity | lia].
    + intros Hb Hk Hmod.
      destruct (reshape3 test_batch_size kb_size t) as [w3|e] eqn:Ew.
      2:{ unfold reshape3 in Ew. rewrite Hmod in Ew.
          destruct (Nat.eqb_spec (test_batch_size * kb_size) 0); [nia | discriminate]. }
      cbn [rbind].
      destruct (reshape3_scores _ _ _ _ Ew) as [_ [_ [_ [Hlen Hrows]]]].
      rewrite Forall_forall in Hrows.
      destruct (mapM_ok_forall argmax (sum_axis1 kb_size w3)) as [predictions ->].
      { intros row Hrow. apply argmax_defined. rewrite (Hrows row Hrow). lia. }
      destruct (mapM_ok_forall (topk 5) (sum_axis1 kb_size w3)) as [tops ->].
      { intros row Hrow. apply topk_defined. rewrite (Hrows row Hrow). lia. }
      cbn [rbind]. eauto.
Qed.

End Classify.

(** The four outcomes on concrete artifacts. *)
Lemma score_attention_outcome_witness :
  (exists acc top_5_acc, score_attention 5 5 Toy.artifact_5_2_6 = Ok (acc, top_5_acc))
  /\ score_attention 3 5 Toy.artifact_5_2_6 = Raise RuntimeError
  /\ score_attention 5 4 Toy.artifact_5_2_6 = Raise ValueError
  /\ score_attention 5 5 (NdArray (Wt := Toy.QWeight) [] [1%Q]) = Raise IndexError.
Proof.
  split; [|split; [|split]].
  - refine (proj2 (proj2 (proj2 (score_attention_outcome (Wt := Toy.QWeight) 5 5
                                   Toy.artifact_5_2_6) _ eq_refl)) _ _ _);
      [lia | lia | vm_compute; reflexivity].
  - refine (proj1 (proj2 (proj2 (score_attention_outcome (Wt := Toy.QWeight) 3 5
                                   Toy.artifact_5_2_6) _ eq_refl)) _ _ _ _);
      [lia | lia | lia | vm_compute; reflexivity].
  - refine (proj1 (proj2 (score_attention_outcome (Wt := Toy.QWeight) 5 4
                            Toy.artifact_5_2_6) _ eq_refl) _).
    right; right. vm_compute. discriminate.
  - exact (proj1 (score_attention_outcome (Wt := Toy.QWeight) 5 5
                    (NdArray (Wt := Toy.QWeight) [] [1%Q]))
             eq_refl).
Defined.

End ScoringOutcomeFacts.
